(** * Peer message processing of main.cpp, embedded in Rocq

    The development follows src/main.cpp: [FinalizeNode], [ProcessGetData],
    the branches of [ProcessMessage] for the commands version, inv, headers,
    pong and filteradd, and the outer loop [ProcessMessages].

    Conventions of the embedding.
    - A [uint256] is the number whose base-256 digits, most significant
      first, are the bytes data[0..31] of the blob, so that [<] on [N] is the
      order std::map uses for uint256 keys and 0 is the null hash.
    - Signed 64-bit quantities (times, NodeId) are in [Z]; the code performs
      no arithmetic on them that could leave the 64-bit range for values a
      clock or a counter produces, so no wrap-around is written.
    - Calls into collaborators that live outside main.cpp (dosMan, requester,
      PushMessage, the logger, ...) are recorded in the [trace] of the
      [World], the latest call first; what a collaborator answers is read
      from [Env], which is fixed for the length of one call: the clocks do
      not advance and no other thread changes the configuration or the
      active chain meanwhile.
    - A `return` in the middle of a handler is the [Return] outcome of the
      handler monad [M]. *)

From Stdlib Require Import ZArith NArith List String Lia Bool.
From stdpp Require Import base option list gmap strings fin_maps sorting.

Local Open Scope string_scope.
Local Open Scope list_scope.
Local Open Scope Z_scope.

Abbreviation uint256 := N (only parsing).
Abbreviation NodeId := Z (only parsing).

(** ** Record update

    [set_field eta proj] builds the function that replaces field [proj] in a
    record whose eta expansion is [eta]. *)

Ltac set_field eta proj :=
  lazymatch type of proj with
  | ?R -> ?E =>
      exact (fun (v : E) (r : R) =>
               ltac:(let e := eval cbv beta delta [eta] in (eta r) in
                     lazymatch e with
                     | context C [proj r] =>
                         let t := context C [v] in exact t
                     end))
  end.

(** ** Data *)

Record CAddress := { ip : N; port : N }.

Record CInv := { type : Z; hash : uint256 }.

Record CBlockHeader := {
  hdr_nVersion : Z;
  hashPrevBlock : uint256;
  hashMerkleRoot : uint256;
  nTime : Z;
  nBits : N;
  nNonce : N
}.

Definition GetBlockTime (h : CBlockHeader) : Z := nTime h.

Record CTransaction := { txid : uint256 }.

Record CBlock := { blk_header : CBlockHeader; vtx : list CTransaction }.

(** A node of the block index.  A pointer to an index node is the node
    itself, which carries its chain of ancestors in [pprev]. *)
Inductive CBlockIndex := Build_CBlockIndex {
  phashBlock : uint256;
  nHeight : Z;
  nStatus : N;
  idx_nTime : Z;
  nChainWork : N;
  pprev : option CBlockIndex
}.

Definition GetBlockHash (i : CBlockIndex) : uint256 := phashBlock i.
Definition idx_GetBlockTime (i : CBlockIndex) : Z := idx_nTime i.

(** The bloom filter of bloom.h: only its bit array and parameters. *)
Record CBloomFilter := {
  filter_vData : list Byte.byte;
  nHashFuncs : N;
  nTweak : N;
  nFlags : N
}.

Record CMerkleBlock := {
  mb_header : CBlockHeader;
  vMatchedTxn : list (nat * uint256)
}.

Record CBlockLocator := { vHave : list uint256 }.

(** The version payload.  Fields after addrMe are read only while bytes
    remain (`if (!vRecv.empty())`), hence the nested options. *)
Record VersionTail3 := { vm_nStartingHeight : Z; vm_fRelayTxes : option bool }.
Record VersionTail2 := { vm_strSubVer : string; vm_tail3 : option VersionTail3 }.
Record VersionTail1 := {
  vm_addrFrom : CAddress;
  vm_nNonce : N;
  vm_tail2 : option VersionTail2
}.
Record VersionMsg := {
  vm_nVersion : Z;
  vm_nServices : N;
  vm_nTime : Z;
  vm_addrMe : CAddress;
  vm_tail1 : option VersionTail1
}.

(** Decoded payloads of the commands modelled below; [vRecv] of the pong
    command stays a byte string because the handler inspects its length. *)
Inductive Payload :=
| PVersion (v : VersionMsg)
| PInv (vInv : list CInv)
| PHeaders (headers : list CBlockHeader)
| PPong (vRecv : list Byte.byte)
| PFilterAdd (vData : list Byte.byte)
| POther (strCommand : string) (vRecv : list Byte.byte).

(** The command a payload was decoded for. *)
Definition strCommand_of (p : Payload) : string :=
  match p with
  | PVersion _ => "version"
  | PInv _ => "inv"
  | PHeaders _ => "headers"
  | PPong _ => "pong"
  | PFilterAdd _ => "filteradd"
  | POther c _ => c
  end.

Record CNetMessage := {
  pchMessageStart : list Byte.byte;
  hdr_IsValid : bool;
  hdr_nMessageSize : Z;
  hdr_nChecksum : N;
  vRecv_checksum : N;
  msg_complete : bool;
  msg_size : Z;
  msg_payload : Payload;
  msg_nTime : Z
}.

Record CNode := {
  id : NodeId;
  addr : CAddress;
  addrLocal : CAddress;
  fInbound : bool;
  fWhitelisted : bool;
  fOneShot : bool;
  fClient : bool;
  fFeeler : bool;
  nVersion : Z;
  nServices : N;
  strSubVer : string;
  cleanSubVer : string;
  nStartingHeight : Z;
  fRelayTxes : bool;
  nSendVersion : Z;
  fVerackSent : bool;
  fSuccessfullyConnected : bool;
  fGetAddr : bool;
  fDisconnect : bool;
  tVersionSent : Z;
  nTimeOffset : Z;
  nSendSize : Z;
  nPingNonceSent : N;
  nPingUsecStart : Z;
  nPingUsecTime : Z;
  nMinPingUsecTime : Z;
  pfilter : option CBloomFilter;
  hashContinue : uint256;
  blocksSent : Z;
  txsSent : Z;
  vRecvGetData : list CInv;
  vRecvMsg : list CNetMessage;
  currentRecvMsgSize : Z;
  nMaxBlocksInTransit : Z
}.

Definition CNode_eta (n : CNode) : CNode :=
  Build_CNode (id n) (addr n) (addrLocal n) (fInbound n) (fWhitelisted n)
    (fOneShot n) (fClient n) (fFeeler n) (nVersion n) (nServices n)
    (strSubVer n) (cleanSubVer n) (nStartingHeight n) (fRelayTxes n)
    (nSendVersion n) (fVerackSent n) (fSuccessfullyConnected n) (fGetAddr n)
    (fDisconnect n) (tVersionSent n) (nTimeOffset n) (nSendSize n)
    (nPingNonceSent n) (nPingUsecStart n) (nPingUsecTime n)
    (nMinPingUsecTime n) (pfilter n) (hashContinue n) (blocksSent n)
    (txsSent n) (vRecvGetData n) (vRecvMsg n) (currentRecvMsgSize n)
    (nMaxBlocksInTransit n).

Definition set_addrLocal := ltac:(set_field CNode_eta addrLocal).
Definition set_fClient := ltac:(set_field CNode_eta fClient).
Definition set_fFeeler := ltac:(set_field CNode_eta fFeeler).
Definition set_nVersion := ltac:(set_field CNode_eta nVersion).
Definition set_nServices := ltac:(set_field CNode_eta nServices).
Definition set_strSubVer := ltac:(set_field CNode_eta strSubVer).
Definition set_cleanSubVer := ltac:(set_field CNode_eta cleanSubVer).
Definition set_nStartingHeight := ltac:(set_field CNode_eta nStartingHeight).
Definition set_fRelayTxes := ltac:(set_field CNode_eta fRelayTxes).
Definition set_nSendVersion := ltac:(set_field CNode_eta nSendVersion).
Definition set_fVerackSent := ltac:(set_field CNode_eta fVerackSent).
Definition set_fSuccessfullyConnected := ltac:(set_field CNode_eta fSuccessfullyConnected).
Definition set_fGetAddr := ltac:(set_field CNode_eta fGetAddr).
Definition set_fDisconnect := ltac:(set_field CNode_eta fDisconnect).
Definition set_nTimeOffset := ltac:(set_field CNode_eta nTimeOffset).
Definition set_nSendSize := ltac:(set_field CNode_eta nSendSize).
Definition set_nPingNonceSent := ltac:(set_field CNode_eta nPingNonceSent).
Definition set_nPingUsecStart := ltac:(set_field CNode_eta nPingUsecStart).
Definition set_nPingUsecTime := ltac:(set_field CNode_eta nPingUsecTime).
Definition set_nMinPingUsecTime := ltac:(set_field CNode_eta nMinPingUsecTime).
Definition set_pfilter := ltac:(set_field CNode_eta pfilter).
Definition set_hashContinue := ltac:(set_field CNode_eta hashContinue).
Definition set_blocksSent := ltac:(set_field CNode_eta blocksSent).
Definition set_txsSent := ltac:(set_field CNode_eta txsSent).
Definition set_vRecvGetData := ltac:(set_field CNode_eta vRecvGetData).
Definition set_vRecvMsg := ltac:(set_field CNode_eta vRecvMsg).
Definition set_currentRecvMsgSize := ltac:(set_field CNode_eta currentRecvMsgSize).
Definition set_nMaxBlocksInTransit := ltac:(set_field CNode_eta nMaxBlocksInTransit).

(** Per-peer synchronisation state of nodestate.h, as far as main.cpp
    reads or writes it. *)
Record CNodeState := {
  fSyncStarted : bool;
  fPreferredDownload : bool;
  fPreferHeaders : bool;
  fFirstHeadersReceived : bool;
  nFirstHeadersExpectedHeight : Z;
  nSyncStartTime : Z;
  pindexBestKnownBlock : option CBlockIndex;
  pindexBestHeaderSent : option CBlockIndex
}.

Definition CNodeState_eta (s : CNodeState) : CNodeState :=
  Build_CNodeState (fSyncStarted s) (fPreferredDownload s) (fPreferHeaders s)
    (fFirstHeadersReceived s) (nFirstHeadersExpectedHeight s)
    (nSyncStartTime s) (pindexBestKnownBlock s) (pindexBestHeaderSent s).

Definition set_fPreferredDownload := ltac:(set_field CNodeState_eta fPreferredDownload).
Definition set_fFirstHeadersReceived := ltac:(set_field CNodeState_eta fFirstHeadersReceived).
Definition set_nSyncStartTime := ltac:(set_field CNodeState_eta nSyncStartTime).

(** Modelled from the spec: the in-flight bookkeeping of the request manager
    (requestManager.cpp is not part of the sources).  The spec describes the
    in-flight map as rows (hash, peer) with a request timestamp and a retry
    count, each row at most once, and a last-request time per block hash that
    is reset on peer removal so that another peer may be asked at once. *)
Record CRequestManager := {
  mapBlocksInFlight : gmap (uint256 * NodeId) (Z * nat);
  mapBlkInfo : gmap uint256 Z;
  mapRequestManagerNodeState : gset NodeId
}.

Definition CRequestManager_eta (r : CRequestManager) : CRequestManager :=
  Build_CRequestManager (mapBlocksInFlight r) (mapBlkInfo r)
    (mapRequestManagerNodeState r).

Definition set_mapBlocksInFlight := ltac:(set_field CRequestManager_eta mapBlocksInFlight).
Definition set_mapBlkInfo := ltac:(set_field CRequestManager_eta mapBlkInfo).
Definition set_mapRequestManagerNodeState :=
  ltac:(set_field CRequestManager_eta mapRequestManagerNodeState).

(** ** Calls into collaborators *)

Inductive RejectCode :=
| REJECT_MALFORMED
| REJECT_INVALID
| REJECT_OBSOLETE
| REJECT_DUPLICATE.

(** The messages handed to PushMessage.  A headers message is given by
    the blocks of the index whose headers (GetBlockHeader) it holds. *)
Inductive OutMsg :=
| MREJECT (strCommand : string) (ccode : RejectCode) (reason : string)
| MVERSION
| MVERACK
| MGETADDR
| MGETHEADERS (locator : CBlockLocator) (hashStop : uint256)
| MHEADERS (vHeaders : list CBlockIndex)
| MBLOCK (block : CBlock)
| MMERKLEBLOCK (mb : CMerkleBlock)
| MTX (tx : CTransaction)
| MRELAYED (command : Z) (tx : CTransaction)
| MINV (vInv : list CInv)
| MNOTFOUND (vInv : list CInv).

Inductive LogArg := LStr (s : string) | LNum (z : Z).

Inductive Event :=
| EvPushMessage (to : NodeId) (m : OutMsg)
| EvPushAddress (to : NodeId) (a : CAddress)
| EvMisbehaving (nodeid : NodeId) (howmuch : Z)
| EvBan (a : CAddress) (seconds : Z)
| EvLog (fmt : string) (args : list LogArg)
| EvUpdateBlockAvailability (nodeid : NodeId) (h : uint256)
| EvAskFor (inv : CInv) (nodeid : NodeId)
| EvAddInventoryKnown (nodeid : NodeId) (inv : CInv)
| EvInventory (h : uint256)
| EvSendXThinBlock (block : CBlock) (nodeid : NodeId) (inv : CInv)
| EvSeenLocal (a : CAddress)
| EvAddrmanAdd (a source : CAddress)
| EvAddrmanGood (a : CAddress)
| EvAddTimeData (a : CAddress) (nOffset : Z)
| EvAcceptBlockHeader (header : CBlockHeader) (accepted : bool)
| EvUpdateMostWorkOurFork (header : CBlockHeader)
| EvUpdateRecvStats (nodeid : NodeId) (strCommand : string) (nTimeReceived : Z)
| EvRandAddSeedPerfmon
| EvConnectionTrackerEviction (a : CAddress) (nTime : Z)
| EvPrintExceptionContinue
| EvIsChainNearlySyncdInit
| EvIsInitialBlockDownloadInit
| EvCheckBlockIndex.

(** What AcceptBlockHeader (validation.cpp) hands back: its boolean, the
    block index after the call, the value left in *ppindex, and the DoS
    score when the validation state is invalid. *)
Record AcceptResult := {
  ar_ok : bool;
  ar_mapBlockIndex : gmap uint256 CBlockIndex;
  ar_ppindex : option CBlockIndex;
  ar_nDoS : option Z
}.

(** ** The state one call works on *)

Record World := {
  node : CNode;
  mapBlockIndex : gmap uint256 CBlockIndex;
  mapUnConnectedHeaders : gmap uint256 (CBlockHeader * Z);
  nodestate : gmap NodeId CNodeState;
  nSyncStarted : Z;
  nPreferredDownload : Z;
  requester : CRequestManager;
  trace : list Event
}.

Definition World_eta (w : World) : World :=
  Build_World (node w) (mapBlockIndex w) (mapUnConnectedHeaders w)
    (nodestate w) (nSyncStarted w) (nPreferredDownload w) (requester w)
    (trace w).

Definition set_node := ltac:(set_field World_eta node).
Definition set_mapBlockIndex := ltac:(set_field World_eta mapBlockIndex).
Definition set_mapUnConnectedHeaders := ltac:(set_field World_eta mapUnConnectedHeaders).
Definition set_nodestate := ltac:(set_field World_eta nodestate).
Definition set_nSyncStarted := ltac:(set_field World_eta nSyncStarted).
Definition set_nPreferredDownload := ltac:(set_field World_eta nPreferredDownload).
Definition set_requester := ltac:(set_field World_eta requester).
Definition set_trace := ltac:(set_field World_eta trace).

(** How a call of ProcessMessage ends: with its boolean, with one of the
    exceptions ProcessMessages catches, or in a crash. *)
Inductive HandlerResult :=
| HRet (b : bool)
| HThrowIos (what : string)
| HThrowStd
| HThrowOther
| HInterrupted
| HCrash.

(** Everything a handler reads from outside main.cpp during one call:
    configuration, clocks, the active chain, storage, the other
    subsystems' query functions, and the constants that headers outside
    main.cpp declare and the specification leaves open.
    [LimitedString_what] is the what() of the std::ios_base::failure that
    LIMITED_STRING (serialize.h) throws for a string over its limit. *)
Record Env := {
  GetHash : CBlockHeader -> uint256;
  GetTime : Z;
  GetAdjustedTime : Z;
  SendBufferSize : Z;
  SendSizeAfterPush : Z -> OutMsg -> Z;
  fImporting : bool;
  fReindex : bool;
  fListen : bool;
  fDropMessagesTest : bool;
  fBlocksOnly : bool;
  fWhitelistRelay : bool;
  nLocalServices : N;
  NODE_NETWORK : N;
  NODE_BLOOM : N;
  NO_BLOOM_VERSION : Z;
  MIN_PEER_PROTO_VERSION : Z;
  PROTOCOL_VERSION : Z;
  CADDR_TIME_VERSION : Z;
  VERACK_TIMEOUT : Z;
  MAX_SUBVERSION_LENGTH : nat;
  LimitedString_what : string;
  nLocalHostNonce : N;
  NetworkIDString : string;
  IsInitialBlockDownload : bool;
  IsChainNearlySyncd : bool;
  MAX_UNCONNECTED_HEADERS : nat;
  UNCONNECTED_HEADERS_TIMEOUT : Z;
  nPowTargetSpacing : Z;
  maxBlocksInTransitPerPeer : Z;
  chainActive_Contains : CBlockIndex -> bool;
  chainActive_Tip : CBlockIndex;
  chainActive_GetLocator : option CBlockIndex -> CBlockLocator;
  pindexBestHeader : option CBlockIndex;
  BLOCK_HAVE_DATA : N;
  BLOCK_EXCESSIVE : N;
  IsValid_SCRIPTS : CBlockIndex -> bool;
  IsValid_TREE : CBlockIndex -> bool;
  GetBlockProofEquivalentTime : CBlockIndex -> CBlockIndex -> CBlockIndex -> Z;
  OutboundTargetReached : bool -> bool;
  ReadBlockFromDisk : CBlockIndex -> option CBlock;
  MakeMerkleBlock : CBlock -> CBloomFilter -> CMerkleBlock * CBloomFilter;
  mapRelay : CInv -> option CTransaction;
  CommitQGet : uint256 -> option CTransaction;
  mempool_get : uint256 -> option CTransaction;
  TxAlreadyHave : CInv -> bool;
  AcceptBlockHeader :
    CBlockHeader -> gmap uint256 CBlockIndex -> option CBlockIndex -> AcceptResult;
  bloom_insert : CBloomFilter -> list Byte.byte -> CBloomFilter;
  SanitizeString : string -> string;
  IsRoutable : CAddress -> bool;
  GetLocalAddress : CAddress -> CAddress;
  IsPeerAddrLocalGood : CNode -> bool;
  addrman_size : Z;
  vNodes : list (NodeId * bool);
  MSG_TX : Z;
  MSG_BLOCK : Z;
  MSG_FILTERED_BLOCK : Z;
  MSG_THINBLOCK : Z;
  IsKnownType : CInv -> bool;
  GetMagic : list Byte.byte;
  ProcessOther : string -> list Byte.byte -> World -> HandlerResult * World
}.

(** ** The handler monad: state, early return, crash *)

Inductive Outcome (A : Type) :=
| Normal (a : A)
| Return (b : bool)
| Crash.
Arguments Normal {A} a.
Arguments Return {A} b.
Arguments Crash {A}.

Definition M (A : Type) : Type := World -> Outcome A * World.

Definition ret {A} (a : A) : M A := fun w => (Normal a, w).

Definition bind {A B} (m : M A) (k : A -> M B) : M B :=
  fun w =>
    match m w with
    | (Normal a, w') => k a w'
    | (Return b, w') => (Return b, w')
    | (Crash, w') => (Crash, w')
    end.

Notation "'let*' x ':=' m 'in' k" := (bind m (fun x => k))
  (at level 10, x name, m at level 100, k at level 200, only parsing).
Notation "m '>>>' k" := (bind m (fun _ => k))
  (at level 199, right associativity, only parsing).

(** `return b;` *)
Definition return_ {A} (b : bool) : M A := fun w => (Return b, w).
(** Dereferencing a null pointer. *)
Definition crash {A} : M A := fun w => (Crash, w).

Definition get : M World := fun w => (Normal w, w).
Definition modify (f : World -> World) : M unit := fun w => (Normal tt, f w).
Definition pfrom : M CNode := fun w => (Normal (node w), w).
Definition modify_node (f : CNode -> CNode) : M unit :=
  modify (fun w => set_node (f (node w)) w).
Definition when (c : bool) (m : M unit) : M unit := if c then m else ret tt.

Definition emit (e : Event) : M unit :=
  modify (fun w => set_trace (e :: trace w) w).

Definition LOG (fmt : string) (args : list LogArg) : M unit := emit (EvLog fmt args).

(** `return error(fmt, ...)`: error() logs and yields false. *)
Definition return_error {A} (fmt : string) (args : list LogArg) : M A :=
  LOG fmt args >>> return_ false.

Definition Misbehaving (howmuch : Z) : M unit :=
  let* n := pfrom in emit (EvMisbehaving (id n) howmuch).

Fixpoint for_each {A} (l : list A) (body : A -> M unit) : M unit :=
  match l with
  | [] => ret tt
  | x :: l' => body x >>> for_each l' body
  end.

(** A branch that runs to its end reaches the closing `return true;` of
    ProcessMessage. *)
Definition run (m : M unit) (w : World) : HandlerResult * World :=
  match m w with
  | (Normal _, w') => (HRet true, w')
  | (Return b, w') => (HRet b, w')
  | (Crash, w') => (HCrash, w')
  end.

(** ** The handlers *)

(** Arithmetic of std::atomic<int>: two's complement, 32 bits. *)
Definition int32_wrap (z : Z) : Z := (z + 2 ^ 31) mod 2 ^ 32 - 2 ^ 31.

(** Little-endian reading of [n] bytes, as `vRecv >> nonce` does. *)
Fixpoint ReadLE (n : nat) (bs : list Byte.byte) : N :=
  match n, bs with
  | S n', b :: bs' => (Byte.to_N b + 256 * ReadLE n' bs')%N
  | _, _ => 0%N
  end.

(** Modelled from the spec: MAX_SCRIPT_ELEMENT_SIZE is declared in
    script/script.h; the spec gives the filteradd element limit as 520. *)
Definition MAX_SCRIPT_ELEMENT_SIZE : Z := 520.

(** Modelled from the spec: MAX_INV_SZ is declared in net.h; the spec gives
    it as 50000. *)
Definition MAX_INV_SZ : Z := 50000.

(** Modelled from the spec: MAX_HEADERS_RESULTS is declared in main.h; the
    spec gives it as 2000. *)
Definition MAX_HEADERS_RESULTS : Z := 2000.

Section Handlers.

Context (env : Env).

(** pfrom->PushMessage(...): the message is handed to the network layer,
    which also moves the peer's send-buffer size. *)
Definition PushMessage (m : OutMsg) : M unit :=
  let* n := pfrom in
  emit (EvPushMessage (id n) m) >>>
  modify_node (set_nSendSize (SendSizeAfterPush env (nSendSize n) m)).

(** *** pong (main.cpp 2207-2272) *)

(** The nested conditionals of the branch: the values of bPingFinished and
    sProblem they leave, and the peer with its ping times updated. *)
Definition pong_check (n : CNode) (pingUsecEnd : Z) (nAvail : nat) (nonce : N)
  : bool * string * CNode :=
  if (8 <=? nAvail)%nat then
    if negb (nPingNonceSent n =? 0)%N then
      if (nonce =? nPingNonceSent n)%N then
        let pingUsecTime := pingUsecEnd - nPingUsecStart n in
        if 0 <? pingUsecTime then
          (true, "",
           set_nMinPingUsecTime (Z.min (nMinPingUsecTime n) pingUsecTime)
             (set_nPingUsecTime pingUsecTime n))
        else (true, "Timing mishap", n)
      else if (nonce =? 0)%N then (true, "Nonce zero", n)
      else (false, "Nonce mismatch", n)
    else (false, "Unsolicited pong without ping", n)
  else (true, "Short payload", n).

Definition pong_log (n : CNode) (sProblem : string) (nonce : N) (nAvail : nat) : Event :=
  EvLog "pong peer=%d: %s, %x expected, %x received, %u bytes"
    [LNum (id n); LStr sProblem; LNum (Z.of_N (nPingNonceSent n));
     LNum (Z.of_N nonce); LNum (Z.of_nat nAvail)].

Definition ProcessPong (nTimeReceived : Z) (vRecv : list Byte.byte) : M unit :=
  let* n := pfrom in
  let nAvail := length vRecv in
  let nonce := if (8 <=? nAvail)%nat then ReadLE 8 vRecv else 0%N in
  match pong_check n nTimeReceived nAvail nonce with
  | (bPingFinished, sProblem, n') =>
      modify_node (fun _ => n') >>>
      when (negb (String.eqb sProblem "")) (emit (pong_log n sProblem nonce nAvail)) >>>
      when bPingFinished (modify_node (set_nPingNonceSent 0%N))
  end.

(** *** filteradd (main.cpp 2296-2315) *)

Definition ProcessFilterAdd (vData : list Byte.byte) : M unit :=
  if MAX_SCRIPT_ELEMENT_SIZE <? Z.of_nat (length vData) then Misbehaving 100
  else
    let* n := pfrom in
    match pfilter n with
    | Some f => modify_node (set_pfilter (Some (bloom_insert env f vData)))
    | None => Misbehaving 100
    end.

(** *** inv (main.cpp 1328-1423) *)

Definition AlreadyHaveBlock (w : World) (inv : CInv) : bool :=
  match mapBlockIndex w !! hash inv with
  | None => false
  | Some mi => negb (N.land (nStatus mi) (BLOCK_HAVE_DATA env) =? 0)%N
  end.

Definition bool_arg (b : bool) : LogArg := LNum (if b then 1 else 0).

(** One turn of the loop over vInv up to, and without, the send-buffer
    check that ends it. *)
Definition inv_handle (fBlocksOnly : bool) (inv : CInv) : M unit :=
  if negb ((type inv =? MSG_TX env) || (type inv =? MSG_BLOCK env)) || (hash inv =? 0)%N then
    Misbehaving 20 >>>
    return_error "message inv invalid type = %u or is null hash %s"
      [LNum (type inv); LNum (Z.of_N (hash inv))]
  else
    (if type inv =? MSG_BLOCK env then
       let* w := get in
       let* n := pfrom in
       let fAlreadyHaveBlock := AlreadyHaveBlock w inv in
       LOG "got inv: %s  %s peer=%d"
         [LNum (Z.of_N (hash inv)); LStr (if fAlreadyHaveBlock then "have" else "new");
          LNum (id n)] >>>
       emit (EvUpdateBlockAvailability (id n) (hash inv)) >>>
       if (negb fAlreadyHaveBlock && negb (IsInitialBlockDownload env))
          || (negb fAlreadyHaveBlock && String.eqb (NetworkIDString env) "regtest")
       then
         PushMessage
           (MGETHEADERS (chainActive_GetLocator env (pindexBestHeader env)) (hash inv))
       else
         LOG "skipping request of block %s.  already have: %d  importing: %d  reindex: %d  isChainNearlySyncd: %d"
           [LNum (Z.of_N (hash inv)); bool_arg fAlreadyHaveBlock;
            bool_arg (fImporting env); bool_arg (fReindex env);
            bool_arg (IsChainNearlySyncd env)]
     else
       let* n := pfrom in
       let fAlreadyHaveTx := TxAlreadyHave env inv in
       LOG "got inv: %s  have: %d peer=%s"
         [LNum (Z.of_N (hash inv)); bool_arg fAlreadyHaveTx; LNum (id n)] >>>
       emit (EvAddInventoryKnown (id n) inv) >>>
       if fBlocksOnly then
         LOG "transaction (%s) inv sent in violation of protocol peer=%d"
           [LNum (Z.of_N (hash inv)); LNum (id n)]
       else
         when (negb fAlreadyHaveTx && negb (IsInitialBlockDownload env))
           (emit (EvAskFor inv (id n)))) >>>
    emit (EvInventory (hash inv)).

(** The check that closes each turn (main.cpp 1417-1421).  SendBufferSize
    is declared in net.h; its double is taken in [Z]. *)
Definition inv_check_send_size : M unit :=
  let* n := pfrom in
  when (SendBufferSize env * 2 <? nSendSize n)
    (Misbehaving 50 >>>
     return_error "send buffer size() = %u" [LNum (nSendSize n)]).

Definition inv_entry (fBlocksOnly : bool) (inv : CInv) : M unit :=
  inv_handle fBlocksOnly inv >>> inv_check_send_size.

Definition inv_fBlocksOnly (n : CNode) : bool :=
  if fWhitelisted n && fWhitelistRelay env then false else fBlocksOnly env.

Definition ProcessInv (vInv : list CInv) : M unit :=
  if fImporting env || fReindex env then return_ true
  else
    LOG "Received INV list of size %d" [LNum (Z.of_nat (length vInv))] >>>
    if (MAX_INV_SZ <? Z.of_nat (length vInv)) || (Z.of_nat (length vInv) =? 0) then
      Misbehaving 20 >>>
      return_error "message inv size() = %u" [LNum (Z.of_nat (length vInv))]
    else
      let* n := pfrom in
      for_each vInv (inv_entry (inv_fBlocksOnly n)).

(** *** version (main.cpp 1018-1148) *)

Definition UpdatePreferredDownload : M unit :=
  let* w := get in
  match nodestate w !! id (node w) with
  | None => crash
  | Some state =>
      let n := node w in
      let fNew := negb (fOneShot n) && negb (fClient n) in
      modify (fun w =>
        set_nPreferredDownload
          (int32_wrap
             (int32_wrap (nPreferredDownload w - Z.b2z (fPreferredDownload state))
              + Z.b2z fNew))
          (set_nodestate (<[id n := set_fPreferredDownload fNew state]> (nodestate w)) w))
  end.

Definition default_CAddress : CAddress := {| ip := 0; port := 0 |}.

(** The optional fields of the payload, with the values the locals and the
    peer keep when the payload ends early. *)
Definition version_nNonce (v : VersionMsg) : N :=
  match vm_tail1 v with Some t => vm_nNonce t | None => 1%N end.
Definition version_addrFrom (v : VersionMsg) : CAddress :=
  match vm_tail1 v with Some t => vm_addrFrom t | None => default_CAddress end.
Definition version_tail2 (v : VersionMsg) : option VersionTail2 :=
  match vm_tail1 v with Some t => vm_tail2 t | None => None end.
Definition version_tail3 (v : VersionMsg) : option VersionTail3 :=
  match version_tail2 v with Some t => vm_tail3 t | None => None end.
Definition version_fRelayTxes (v : VersionMsg) : bool :=
  match version_tail3 v with
  | Some t => match vm_fRelayTxes t with Some b => b | None => true end
  | None => true
  end.

(** What follows the self-connection test (main.cpp 1070-1147). *)
Definition version_handshake (v : VersionMsg) : M unit :=
  let addrMe := vm_addrMe v in
  let addrFrom := version_addrFrom v in
  modify_node (set_addrLocal addrMe) >>>
  let* n := pfrom in
  when (fInbound n && IsRoutable env addrMe) (emit (EvSeenLocal addrMe)) >>>
  when (fInbound n) (PushMessage MVERSION) >>>
  modify_node (fun n => set_fClient (N.land (nServices n) (NODE_NETWORK env) =? 0)%N n) >>>
  UpdatePreferredDownload >>>
  modify_node (set_fVerackSent true) >>>
  PushMessage MVERACK >>>
  modify_node (fun n => set_nSendVersion (Z.min (nVersion n) (PROTOCOL_VERSION env)) n) >>>
  let* n := pfrom in
  (if negb (fInbound n) then
     when (fListen env && negb (IsInitialBlockDownload env))
       (let a := GetLocalAddress env (addr n) in
        if IsRoutable env a then
          LOG "ProcessMessages: advertising address %s" [LNum (Z.of_N (ip a))] >>>
          emit (EvPushAddress (id n) a)
        else
          when (IsPeerAddrLocalGood env n)
            (let a' := {| ip := ip (addrLocal n); port := port a |} in
             LOG "ProcessMessages: advertising address %s" [LNum (Z.of_N (ip a'))] >>>
             emit (EvPushAddress (id n) a'))) >>>
     when (fOneShot n || (CADDR_TIME_VERSION env <=? nVersion n) || (addrman_size env <? 1000))
       (PushMessage MGETADDR >>> modify_node (set_fGetAddr true)) >>>
     emit (EvAddrmanGood (addr n))
   else
     when (ip (addr n) =? ip addrFrom)%N
       (emit (EvAddrmanAdd addrFrom addrFrom) >>> emit (EvAddrmanGood addrFrom))) >>>
  LOG "receive version message: %s: version %d, blocks=%d, us=%s, peer=%s"
    [LStr (cleanSubVer n); LNum (nVersion n); LNum (nStartingHeight n);
     LNum (Z.of_N (ip addrMe)); LNum (id n)] >>>
  let nTimeOffset := vm_nTime v - GetTime env in
  modify_node (set_nTimeOffset nTimeOffset) >>>
  emit (EvAddTimeData (addr n) nTimeOffset) >>>
  when (fFeeler n)
    (when (fInbound n) (modify_node (set_fFeeler false)) >>>
     when (negb (fInbound n))
       (LOG "Disconnecting feeler to peer %s" [LNum (id n)] >>>
        modify_node (set_fDisconnect true))).

(** The branch up to the read of the user agent (main.cpp 1018-1051). *)
Definition version_head (v : VersionMsg) : M unit :=
  let* n := pfrom in
  if negb (nVersion n =? 0) then
    PushMessage (MREJECT "version" REJECT_DUPLICATE "Duplicate version message") >>>
    modify_node (set_fDisconnect true) >>>
    return_error "Duplicate version message received - disconnecting peer=%s version=%s"
      [LNum (id n); LStr (cleanSubVer n)]
  else
    modify_node (fun n => set_nServices (vm_nServices v) (set_nVersion (vm_nVersion v) n)) >>>
    if vm_nVersion v <? MIN_PEER_PROTO_VERSION env then
      PushMessage (MREJECT "version" REJECT_OBSOLETE "Protocol Version must be %d or greater") >>>
      Misbehaving 100 >>>
      return_error "Using obsolete protocol version %i - banning peer=%s version=%s"
        [LNum (vm_nVersion v); LNum (id n); LStr (cleanSubVer n)]
    else
      when (vm_nVersion v =? 10300) (modify_node (set_nVersion 300)).

(** The branch from the user agent on (main.cpp 1052-1148), once
    LIMITED_STRING has let the user agent pass. *)
Definition version_body (v : VersionMsg) : M unit :=
  let* n := pfrom in
  let nNonce := version_nNonce v in
  match version_tail2 v with
  | Some t =>
      modify_node (fun n =>
        set_cleanSubVer (SanitizeString env (vm_strSubVer t))
          (set_strSubVer (vm_strSubVer t) n))
  | None => ret tt
  end >>>
  match version_tail3 v with
  | Some t => modify_node (set_nStartingHeight (vm_nStartingHeight t))
  | None => ret tt
  end >>>
  modify_node (set_fRelayTxes (version_fRelayTxes v)) >>>
  if (nNonce =? nLocalHostNonce env)%N && (1 <? nNonce)%N then
    LOG "connected to self at %s, disconnecting" [LNum (Z.of_N (ip (addr n)))] >>>
    modify_node (set_fDisconnect true) >>>
    return_ true
  else version_handshake v.

(** LIMITED_STRING(pfrom->strSubVer, MAX_SUBVERSION_LENGTH) at main.cpp
    1052 throws when the user agent is longer than the limit, before
    anything is stored of it. *)
Definition subver_too_long (v : VersionMsg) : bool :=
  match version_tail2 v with
  | Some t => (MAX_SUBVERSION_LENGTH env <? String.length (vm_strSubVer t))%nat
  | None => false
  end.

(** The version branch: it ends with its boolean, or with the exception
    of the over-long user agent, which leaves the branch where the peer's
    version and services are already stored. *)
Definition ProcessVersion (v : VersionMsg) (w : World) : HandlerResult * World :=
  match version_head v w with
  | (Normal _, w1) =>
      if subver_too_long v then (HThrowIos (LimitedString_what env), w1)
      else run (version_body v) w1
  | (Return b, w1) => (HRet b, w1)
  | (Crash, w1) => (HCrash, w1)
  end.

(** *** ProcessGetData (main.cpp 741-949) *)

Definition nOneMonth : Z := 30 * 24 * 60 * 60.
Definition nOneWeek : Z := 7 * 24 * 60 * 60.

Definition is_block_class (inv : CInv) : bool :=
  (type inv =? MSG_BLOCK env) || (type inv =? MSG_FILTERED_BLOCK env) || (type inv =? MSG_THINBLOCK env).

(** The test of main.cpp 775-778 for a block off the active chain. *)
Definition recent_and_valid (mi : CBlockIndex) : bool :=
  IsValid_SCRIPTS env mi &&
  match pindexBestHeader env with
  | None => false
  | Some best =>
      (idx_GetBlockTime best - idx_GetBlockTime mi <? nOneMonth) &&
      (GetBlockProofEquivalentTime env best mi best <? nOneMonth)
  end.

(** fSend as main.cpp 761-796 leaves it. *)
Definition getdata_fSend (inv : CInv) : M bool :=
  let* w := get in
  let* n := pfrom in
  match mapBlockIndex w !! hash inv with
  | None => ret false
  | Some mi =>
      if chainActive_Contains env mi then ret true
      else if negb (recent_and_valid mi) then
        LOG "%s: ignoring request from peer=%s for old block that isn't in the main chain"
          [LStr "ProcessGetData"; LNum (id n)] >>>
        ret false
      else if negb (N.land (nStatus mi) (BLOCK_EXCESSIVE env) =? 0)%N then
        LOG "%s: ignoring request from peer=%s for excessive block of height %d not on the main chain"
          [LStr "ProcessGetData"; LNum (id n); LNum (nHeight mi)] >>>
        ret false
      else ret true
  end.

(** The historical-block limit of main.cpp 797-811. *)
Definition getdata_limit (inv : CInv) (mi : option CBlockIndex) (fSend : bool) : M bool :=
  let* n := pfrom in
  match mi with
  | Some mi =>
      if fSend && OutboundTargetReached env true &&
         (match pindexBestHeader env with
          | Some best => nOneWeek <? idx_GetBlockTime best - idx_GetBlockTime mi
          | None => false
          end || (type inv =? MSG_FILTERED_BLOCK env)) &&
         negb (fWhitelisted n)
      then
        LOG "historical block serving limit reached, disconnect peer %s" [LNum (id n)] >>>
        modify_node (set_fDisconnect true) >>>
        ret false
      else ret fSend
  | None => ret fSend
  end.

Fixpoint push_matched (block : CBlock) (matched : list (nat * uint256)) : M unit :=
  match matched with
  | [] => ret tt
  | p :: rest =>
      modify_node (fun n => set_txsSent (txsSent n + 1) n) >>>
      match vtx block !! p.1 with
      | Some tx => PushMessage (MTX tx) >>> push_matched block rest
      | None => crash
      end
  end.

(** Sending the block once it was read from disk (main.cpp 827-874). *)
Definition getdata_send_block (inv : CInv) (block : CBlock) : M unit :=
  (if type inv =? MSG_BLOCK env then
     modify_node (fun n => set_blocksSent (blocksSent n + 1) n) >>>
     PushMessage (MBLOCK block)
   else if type inv =? MSG_THINBLOCK env then
     LOG "Sending thinblock by INV queue getdata message" [] >>>
     let* n := pfrom in
     emit (EvSendXThinBlock block (id n) inv)
   else
     let* n := pfrom in
     match pfilter n with
     | Some f =>
         let '(merkleBlock, f') := MakeMerkleBlock env block f in
         modify_node (set_pfilter (Some f')) >>>
         PushMessage (MMERKLEBLOCK merkleBlock) >>>
         modify_node (fun n => set_blocksSent (blocksSent n + 1) n) >>>
         push_matched block (vMatchedTxn merkleBlock)
     | None => ret tt
     end) >>>
  let* n := pfrom in
  when (hash inv =? hashContinue n)%N
    (PushMessage (MINV [{| type := MSG_BLOCK env; hash := GetBlockHash (chainActive_Tip env) |}]) >>>
     modify_node (set_hashContinue 0%N)).

(** A block-class item (main.cpp 758-877). *)
Definition getdata_block (inv : CInv) : M unit :=
  let* w := get in
  let mi := mapBlockIndex w !! hash inv in
  let* fSend0 := getdata_fSend inv in
  let* fSend := getdata_limit inv mi fSend0 in
  match mi with
  | Some mi =>
      when (fSend && negb (N.land (nStatus mi) (BLOCK_HAVE_DATA env) =? 0)%N)
        match ReadBlockFromDisk env mi with
        | None => LOG "unable to load block %s from disk" [LNum (Z.of_N (phashBlock mi))]
        | Some block => getdata_send_block inv block
        end
  | None => ret tt
  end.

(** Any other known item (main.cpp 878-923); the result is the item when it
    was not found. *)
Definition getdata_tx (inv : CInv) : M (list CInv) :=
  let* fPushed :=
    match mapRelay env inv with
    | Some ptx =>
        PushMessage (MRELAYED (type inv) ptx) >>>
        modify_node (fun n => set_txsSent (txsSent n + 1) n) >>>
        ret true
    | None => ret false
    end in
  let* fPushed :=
    if negb fPushed && (type inv =? MSG_TX env) then
      match (match CommitQGet env (hash inv) with
             | Some ptx => Some ptx
             | None => mempool_get env (hash inv)
             end) with
      | Some ptx =>
          PushMessage (MTX ptx) >>>
          modify_node (fun n => set_txsSent (txsSent n + 1) n) >>>
          ret true
      | None => ret fPushed
      end
    else ret fPushed in
  ret (if fPushed then [] else [inv]).

(** The while loop: the deque that remains, gotWorkDone and vNotFound. *)
Fixpoint getdata_loop (vInv : list CInv) (gotWorkDone : bool) (vNotFound : list CInv)
  : M (list CInv * bool * list CInv) :=
  match vInv with
  | [] => ret ([], gotWorkDone, vNotFound)
  | inv :: rest =>
      let* n := pfrom in
      if SendBufferSize env <=? nSendSize n then ret (vInv, gotWorkDone, vNotFound)
      else if is_block_class inv then
        getdata_block inv >>>
        emit (EvInventory (hash inv)) >>>
        ret (rest, true, vNotFound)
      else
        let* nf := if IsKnownType env inv then getdata_tx inv else ret [] in
        emit (EvInventory (hash inv)) >>>
        getdata_loop rest true (vNotFound ++ nf)
  end.

(** The deque is passed by reference: the result carries what is left of
    it next to the returned gotWorkDone. *)
Definition ProcessGetData (vInv : list CInv) : M (list CInv * bool) :=
  let* r := getdata_loop vInv false [] in
  match r with
  | (rest, gotWorkDone, vNotFound) =>
      when (negb (Nat.eqb (length vNotFound) 0)) (PushMessage (MNOTFOUND vNotFound)) >>>
      ret (rest, gotWorkDone)
  end.

(** *** headers (main.cpp 1604-1899) *)

(** One turn of the continuity walk (main.cpp 1644-1683) on the locals
    fNewUnconnectedHeaders and hashLastBlock. *)
Definition headers_walk_step (st : bool * uint256) (header : CBlockHeader)
  : M (bool * uint256) :=
  let* w := get in
  let hashLastBlock :=
    if (st.2 =? 0)%N then
      match mapBlockIndex w !! hashPrevBlock header with
      | Some _ => hashPrevBlock header
      | None => st.2
      end
    else st.2 in
  let* fNewUnconnectedHeaders :=
    if negb (hashPrevBlock header =? hashLastBlock)%N then
      if GetBlockTime header <? GetAdjustedTime env - 24 * 60 * 60 then
        modify_node (set_fDisconnect true) >>>
        let* n := pfrom in
        return_error "non-continuous-headers sequence during node sync - disconnecting peer=%s"
          [LNum (id n)]
      else ret true
    else ret st.1 in
  when fNewUnconnectedHeaders
    (let h := GetHash env header in
     let* w := get in
     when (size (mapUnConnectedHeaders w) <? MAX_UNCONNECTED_HEADERS env)%nat
       (modify (set_mapUnConnectedHeaders
                  (<[h := (header, GetTime env)]> (mapUnConnectedHeaders w)))) >>>
     let* n := pfrom in
     emit (EvUpdateBlockAvailability (id n) h)) >>>
  ret (fNewUnconnectedHeaders, GetHash env header).

Fixpoint headers_walk (st : bool * uint256) (headers : list CBlockHeader)
  : M (bool * uint256) :=
  match headers with
  | [] => ret st
  | header :: rest =>
      let* st' := headers_walk_step st header in
      headers_walk st' rest
  end.

(** The entries of mapUnConnectedHeaders in the order a std::map iterator
    visits them. *)
Definition key_le (a b : uint256 * (CBlockHeader * Z)) : Prop := (a.1 <= b.1)%N.

#[local] Instance key_le_dec : RelDecision key_le := fun a b => decide (a.1 <= b.1)%N.

Definition unconnected_entries (m : gmap uint256 (CBlockHeader * Z))
  : list (uint256 * (CBlockHeader * Z)) :=
  merge_sort key_le (map_to_list m).

Definition back_hash (headers : list CBlockHeader) : uint256 :=
  match last headers with
  | Some h => GetHash env h
  | None => 0%N
  end.

(** One run of the iterator from [entries] on (main.cpp 1691-1729): it
    stops at the first entry that connects to headers.back(), which it
    erases and returns; on its way it erases the entries that are too old
    or already in [headers]. *)
Fixpoint scan_pass (headers : list CBlockHeader)
    (entries : list (uint256 * (CBlockHeader * Z)))
    (m : gmap uint256 (CBlockHeader * Z))
  : option CBlockHeader * gmap uint256 (CBlockHeader * Z) :=
  match entries with
  | [] => (None, m)
  | (headerHash, (hdr, nTimeHeaderArrived)) :: rest =>
      if (back_hash headers =? hashPrevBlock hdr)%N then (Some hdr, delete headerHash m)
      else if UNCONNECTED_HEADERS_TIMEOUT env <=? GetTime env - nTimeHeaderArrived then
        scan_pass headers rest (delete headerHash m)
      else if existsb (fun header => (GetHash env header =? headerHash)%N) headers then
        scan_pass headers rest (delete headerHash m)
      else scan_pass headers rest m
  end.

(** The while loop: every connecting entry restarts the iterator at
    begin().  Each restart has erased an entry, so [S (size m)] turns are
    enough. *)
Fixpoint connect_unconnected (fuel : nat) (headers : list CBlockHeader)
    (m : gmap uint256 (CBlockHeader * Z))
  : list CBlockHeader * gmap uint256 (CBlockHeader * Z) :=
  match fuel with
  | O => (headers, m)
  | S fuel' =>
      match scan_pass headers (unconnected_entries m) m with
      | (Some hdr, m') => connect_unconnected fuel' (headers ++ [hdr]) m'
      | (None, m') => (headers, m')
      end
  end.

(** The acceptance loop (main.cpp 1732-1756): the index at which the list
    was cut, if it was, and pindexLast. *)
Fixpoint accept_headers (headers : list CBlockHeader) (i : nat)
    (pindexLast : option CBlockIndex) : M (option nat * option CBlockIndex) :=
  match headers with
  | [] => ret (None, pindexLast)
  | header :: rest =>
      let* w := get in
      let r := AcceptBlockHeader env header (mapBlockIndex w) pindexLast in
      modify (set_mapBlockIndex (ar_mapBlockIndex r)) >>>
      emit (EvAcceptBlockHeader header (ar_ok r)) >>>
      if negb (ar_ok r) then
        match ar_nDoS r with
        | Some nDos => when (0 <? nDos) (Misbehaving nDos)
        | None => ret tt
        end >>>
        ret (Some i, ar_ppindex r)
      else
        emit (EvUpdateMostWorkOurFork header) >>>
        accept_headers rest (S i) (ar_ppindex r)
  end.

(** nodestate.State(pfrom->GetId())->nSyncStartTime = GetTime(), when the
    peer has a state. *)
Definition reset_sync_start_time : M unit :=
  modify (fun w =>
    match nodestate w !! id (node w) with
    | Some state =>
        set_nodestate (<[id (node w) := set_nSyncStartTime (GetTime env) state]> (nodestate w)) w
    | None => w
    end).

(** The request sent to the other full nodes during initial block
    download (main.cpp 1781-1820). *)
Definition headers_broadcast (pindexLast : CBlockIndex) : M unit :=
  for_each (vNodes env) (fun pnode =>
    let* w := get in
    when (negb pnode.2 && negb (pnode.1 =? id (node w)))
      match nodestate w !! id (node w) with
      | None => ret tt
      | Some state =>
          when (match pindexBestKnownBlock state with
                | None => true
                | Some known => (nChainWork known <? nChainWork pindexLast)%N
                end)
            (emit (EvPushMessage pnode.1
                     (MGETHEADERS {| vHave := [] |} (GetBlockHash pindexLast))) >>>
             LOG "Requesting header for blockavailability, peer=%s block=%s height=%d"
               [LNum pnode.1; LNum (Z.of_N (GetBlockHash pindexLast));
                LNum (match pindexBestHeader env with Some b => nHeight b | None => 0 end)])
      end).

(** main.cpp 1761-1821. *)
Definition headers_more (nCount : Z) (pindexLast : option CBlockIndex) : M unit :=
  match pindexLast with
  | Some last =>
      when (nCount =? MAX_HEADERS_RESULTS)
        (let* n := pfrom in
         LOG "more getheaders (%d) to end to peer=%s (startheight:%d)"
           [LNum (nHeight last); LNum (id n); LNum (nStartingHeight n)] >>>
         PushMessage (MGETHEADERS (chainActive_GetLocator env (Some last)) 0%N) >>>
         reset_sync_start_time >>>
         when (IsInitialBlockDownload env) (headers_broadcast last))
  | None => ret tt
  end.

(** The blocks between pindexLast and the active chain, nearest first. *)
Fixpoint blocks_to_fetch (pindexWalk : CBlockIndex) : list CBlockIndex :=
  if chainActive_Contains env pindexWalk then []
  else pindexWalk ::
       match pprev pindexWalk with
       | Some p => blocks_to_fetch p
       | None => []
       end.

Fixpoint direct_fetch (vToFetch : list CBlockIndex) (nAskFor : Z) : M Z :=
  match vToFetch with
  | [] => ret nAskFor
  | pindex :: rest =>
      let inv := {| type := MSG_BLOCK env; hash := GetBlockHash pindex |} in
      let* w := get in
      let* n := pfrom in
      let* nAskFor :=
        if negb (AlreadyHaveBlock w inv) then
          emit (EvAskFor inv (id n)) >>>
          LOG "AskFor block via headers direct fetch %s (%d) peer=%d"
            [LNum (Z.of_N (GetBlockHash pindex)); LNum (nHeight pindex); LNum (id n)] >>>
          ret (nAskFor + 1)
        else ret nAskFor in
      if nMaxBlocksInTransit n <=? nAskFor then
        LOG "Large reorg, could only direct fetch %d blocks" [LNum nAskFor] >>>
        ret nAskFor
      else direct_fetch rest nAskFor
  end.

(** main.cpp 1823-1898. *)
Definition headers_tail (pindexLast : option CBlockIndex) : M unit :=
  let fCanDirectFetch :=
    GetAdjustedTime env - nPowTargetSpacing env * 20 <? idx_GetBlockTime (chainActive_Tip env) in
  let* w := get in
  let* n := pfrom in
  match nodestate w !! id n with
  | None => return_ false
  | Some state =>
      when (negb (fFirstHeadersReceived state))
        (let received :=
           match pindexLast with
           | Some last => nFirstHeadersExpectedHeight state <=? nHeight last
           | None => false
           end in
         when received (LOG "Initial headers received for peer=%s" [LNum (id n)]) >>>
         let permissive :=
           negb (String.eqb (NetworkIDString env) "main") &&
           negb (String.eqb (NetworkIDString env) "regtest") in
         when (received || permissive)
           (modify (fun w =>
              set_nodestate (<[id n := set_fFirstHeadersReceived true state]> (nodestate w)) w))) >>>
      emit EvIsChainNearlySyncdInit >>>
      emit EvIsInitialBlockDownloadInit >>>
      match pindexLast with
      | Some last =>
          when (fCanDirectFetch && IsValid_TREE env last &&
                (nChainWork (chainActive_Tip env) <=? nChainWork last)%N)
            (when (negb (maxBlocksInTransitPerPeer env =? 0))
               (modify_node (set_nMaxBlocksInTransit (maxBlocksInTransitPerPeer env))) >>>
             let* nAskFor := direct_fetch (rev (blocks_to_fetch last)) 0 in
             when (1 <? nAskFor)
               (LOG "Downloading blocks toward %s (%d) via headers direct fetch"
                  [LNum (Z.of_N (GetBlockHash last)); LNum (nHeight last)]))
      | None => ret tt
      end >>>
      emit EvCheckBlockIndex
  end.

Definition ProcessHeaders (headers : list CBlockHeader) : M unit :=
  if fImporting env then
    LOG "skipping processing of HEADERS because importing" [] >>> return_ true
  else if fReindex env then
    LOG "skipping processing of HEADERS because reindexing" [] >>> return_ true
  else
    let nCount := Z.of_nat (length headers) in
    if MAX_HEADERS_RESULTS <? nCount then
      Misbehaving 20 >>> return_error "headers message size = %u" [LNum nCount]
    else if nCount =? 0 then return_ true
    else
      let* st := headers_walk (false, 0%N) headers in
      if st.1 then return_ true
      else
        let* w := get in
        let '(headers, m) :=
          connect_unconnected (S (size (mapUnConnectedHeaders w))) headers
            (mapUnConnectedHeaders w) in
        modify (set_mapUnConnectedHeaders m) >>>
        let* r := accept_headers headers 0 None in
        let nCount := match r.1 with Some i => Z.of_nat i | None => nCount end in
        let pindexLast := r.2 in
        let* n := pfrom in
        match pindexLast with
        | Some last => emit (EvUpdateBlockAvailability (id n) (GetBlockHash last))
        | None => ret tt
        end >>>
        headers_more nCount pindexLast >>>
        headers_tail pindexLast.

(** *** ProcessMessage (main.cpp 986-2409)

    The gates ahead of the dispatch and the order of the branches are those
    of the source; the commands not modelled above are left to
    [ProcessOther]. *)

Definition is_filter_command (c : string) : bool :=
  String.eqb c "filterload" || String.eqb c "filteradd" || String.eqb c "filterclear".

Definition verack_timed_out (n : CNode) : bool :=
  negb (fSuccessfullyConnected n) &&
  (VERACK_TIMEOUT env <? GetTime env - tVersionSent n) &&
  (0 <=? tVersionSent n).

Definition verack_timeout : M unit :=
  modify_node (set_fDisconnect true) >>>
  let* n := pfrom in
  LOG "ERROR: disconnecting - VERACK not received within %d seconds for peer=%s version=%s"
    [LNum (VERACK_TIMEOUT env); LNum (id n); LStr (cleanSubVer n)] >>>
  emit (EvConnectionTrackerEviction (addr n) (GetTime env)) >>>
  return_ true.

Definition dispatch (p : Payload) (nTimeReceived : Z) (w : World)
  : HandlerResult * World :=
  match p with
  | PVersion v => ProcessVersion v w
  | PInv vInv => run (ProcessInv vInv) w
  | PHeaders headers => run (ProcessHeaders headers) w
  | PPong vRecv => run (ProcessPong nTimeReceived vRecv) w
  | PFilterAdd vData => run (ProcessFilterAdd vData) w
  | POther c vRecv => ProcessOther env c vRecv w
  end.

Definition is_version (p : Payload) : bool :=
  match p with PVersion _ => true | _ => false end.

Definition ProcessMessage (p : Payload) (nTimeReceived : Z) (w : World)
  : HandlerResult * World :=
  let strCommand := strCommand_of p in
  let n := node w in
  let w :=
    set_trace
      (EvLog "received: %s (%u bytes) peer=%s" [LStr (SanitizeString env strCommand); LNum (id n)]
       :: EvUpdateRecvStats (id n) strCommand nTimeReceived
       :: EvRandAddSeedPerfmon :: trace w) w in
  if fDropMessagesTest env then
    run (LOG "dropmessagestest DROPPING RECV MESSAGE" [] >>> return_ true) w
  else if (N.land (nLocalServices env) (NODE_BLOOM env) =? 0)%N && is_filter_command strCommand then
    if NO_BLOOM_VERSION env <=? nVersion n then
      run (Misbehaving 100 >>> return_ false) w
    else
      run (LOG "Inconsistent bloom filter settings peer %s" [LNum (id n)] >>>
           modify_node (set_fDisconnect true) >>>
           return_ false) w
  else if is_version p then dispatch p nTimeReceived w
  else if String.eqb strCommand "version" || String.eqb strCommand "verack" then
    dispatch p nTimeReceived w
  else if verack_timed_out n then run verack_timeout w
  else dispatch p nTimeReceived w.

(** *** ProcessMessages (main.cpp 2412-2557)

    One thread works on the peer: the TRY_LOCKs succeed, no message
    arrives during the call and no interruption is requested. *)

(** memcmp(a, b, n) == 0. *)
Fixpoint memcmp_eq (n : nat) (a b : list Byte.byte) : bool :=
  match n with
  | O => true
  | S n' =>
      match a, b with
      | x :: a', y :: b' => Byte.eqb x y && memcmp_eq n' a' b'
      | _, _ => false
      end
  end.

(** Modelled from the spec: MESSAGE_START_SIZE is declared in protocol.h;
    the spec gives it as 4. *)
Definition MESSAGE_START_SIZE : nat := 4.

Inductive LoopResult :=
| PMRet (fOk : bool)
| PMInterrupted
| PMCrash.

Definition log_event (fmt : string) (args : list LogArg) (w : World) : World :=
  set_trace (EvLog fmt args :: trace w) w.

Definition log_failed (p : Payload) (msg : CNetMessage) (w : World) : World :=
  log_event "%s(%s, %u bytes) FAILED peer %s"
    [LStr "ProcessMessages"; LStr (SanitizeString env (strCommand_of p));
     LNum (hdr_nMessageSize msg); LNum (id (node w))] w.

(** strstr(haystack, needle) != NULL. *)
Definition strstr (haystack needle : string) : bool :=
  match String.index 0 needle haystack with
  | Some _ => true
  | None => false
  end.

(** What the body of the while loop does with the outcome of
    ProcessMessage (main.cpp 2508-2550); [None] when the call does not
    come back to the loop. *)
Definition after_ProcessMessage (msg : CNetMessage) (r : HandlerResult * World)
  : option World :=
  let p := msg_payload msg in
  match r with
  | (HRet true, w) => Some w
  | (HRet false, w) => Some (log_failed p msg w)
  | (HThrowIos what, w) =>
      match PushMessage (MREJECT (strCommand_of p) REJECT_MALFORMED "error parsing message") w with
      | (_, w) =>
          let w :=
            if strstr what "end of data" then
              log_event "%s(%s, %u bytes): Exception '%s' caught, normally caused by a message being shorter than its stated length"
                [LStr "ProcessMessages"; LStr (SanitizeString env (strCommand_of p));
                 LNum (hdr_nMessageSize msg); LStr what] w
            else if strstr what "size too large" then
              log_event "%s(%s, %u bytes): Exception '%s' caught"
                [LStr "ProcessMessages"; LStr (SanitizeString env (strCommand_of p));
                 LNum (hdr_nMessageSize msg); LStr what] w
            else set_trace (EvPrintExceptionContinue :: trace w) w in
          Some (log_failed p msg w)
      end
  | (HThrowStd, w) | (HThrowOther, w) =>
      Some (log_failed p msg (set_trace (EvPrintExceptionContinue :: trace w) w))
  | (HInterrupted, _) | (HCrash, _) => None
  end.

(** pfrom->vRecvMsg.pop_front() and the size bookkeeping. *)
Definition pop_message (msg : CNetMessage) (rest : list CNetMessage) (w : World) : World :=
  set_node
    (set_currentRecvMsgSize (currentRecvMsgSize (node w) - msg_size msg)
       (set_vRecvMsg rest (node w))) w.

Fixpoint ProcessMessages_loop (queue : list CNetMessage) (msgsProcessed : Z) (w : World)
  : LoopResult * World :=
  if fDisconnect (node w) || negb (nSendSize (node w) <? SendBufferSize env) then (PMRet true, w)
  else
    match queue with
    | [] => (PMRet true, w)
    | msg :: rest =>
        if negb (msg_complete msg) then (PMRet true, w)
        else
          let w := pop_message msg rest w in
          let msgsProcessed := msgsProcessed + 1 in
          if negb (memcmp_eq MESSAGE_START_SIZE (pchMessageStart msg) (GetMagic env)) then
            let w :=
              log_event "PROCESSMESSAGE: INVALID MESSAGESTART %s peer=%s"
                [LStr (SanitizeString env (strCommand_of (msg_payload msg))); LNum (id (node w))] w in
            let w :=
              if negb (fWhitelisted (node w))
              then set_trace (EvBan (addr (node w)) (4 * 60 * 60) :: trace w) w
              else w in
            (PMRet false, w)
          else if negb (hdr_IsValid msg) then
            ProcessMessages_loop rest msgsProcessed
              (log_event "PROCESSMESSAGE: ERRORS IN HEADER %s peer=%s"
                 [LStr (SanitizeString env (strCommand_of (msg_payload msg))); LNum (id (node w))] w)
          else if negb (vRecv_checksum msg =? hdr_nChecksum msg)%N then
            ProcessMessages_loop rest msgsProcessed
              (log_event "%s(%s, %u bytes): CHECKSUM ERROR nChecksum=%08x hdr.nChecksum=%08x"
                 [LStr "ProcessMessages"; LStr (SanitizeString env (strCommand_of (msg_payload msg)));
                  LNum (hdr_nMessageSize msg); LNum (Z.of_N (vRecv_checksum msg));
                  LNum (Z.of_N (hdr_nChecksum msg))] w)
          else
            let r := ProcessMessage (msg_payload msg) (msg_nTime msg) w in
            match after_ProcessMessage msg r with
            | Some w' =>
                if 2000 <? msgsProcessed then (PMRet true, w')
                else ProcessMessages_loop rest msgsProcessed w'
            | None =>
                match r with
                | (HInterrupted, w') => (PMInterrupted, w')
                | (_, w') => (PMCrash, w')
                end
            end
    end.

Definition ProcessMessages (w : World) : LoopResult * World :=
  let r :=
    if negb (Nat.eqb (length (vRecvGetData (node w))) 0) then
      match ProcessGetData (vRecvGetData (node w)) w with
      | (Normal (rest, _), w') => Some (set_node (set_vRecvGetData rest (node w')) w')
      | (Return _, w') => Some w'
      | (Crash, w') => None
      end
    else Some w in
  match r with
  | Some w' => ProcessMessages_loop (vRecvMsg (node w')) 0 w'
  | None => (PMCrash, w)
  end.

End Handlers.

(** ** FinalizeNode (main.cpp 167-196) *)

(** Modelled from the spec: the request manager calls FinalizeNode makes.
    GetBlocksInFlight lists the hashes of the rows of the peer,
    MapBlocksInFlightErase removes one row, ResetLastBlockRequestTime puts
    the last-request time of a hash back to zero. *)
Definition GetBlocksInFlight (r : CRequestManager) (nodeid : NodeId) : list uint256 :=
  (fun kv => kv.1.1) <$> filter (fun kv => kv.1.2 = nodeid) (map_to_list (mapBlocksInFlight r)).

Definition MapBlocksInFlightErase (h : uint256) (nodeid : NodeId) (r : CRequestManager)
  : CRequestManager :=
  set_mapBlocksInFlight (delete (h, nodeid) (mapBlocksInFlight r)) r.

Definition ResetLastBlockRequestTime (h : uint256) (r : CRequestManager) : CRequestManager :=
  set_mapBlkInfo (alter (fun _ => 0) h (mapBlkInfo r)) r.

Definition requester_RemoveNodeState (nodeid : NodeId) (r : CRequestManager)
  : CRequestManager :=
  set_mapRequestManagerNodeState (mapRequestManagerNodeState r ∖ {[nodeid]}) r.

Definition MapBlocksInFlightEmpty (r : CRequestManager) : bool :=
  bool_decide (mapBlocksInFlight r = ∅).

Definition MapBlocksInFlightClear (r : CRequestManager) : CRequestManager :=
  set_mapBlocksInFlight ∅ r.

(** The body of the loop over vBlocksInFlight. *)
Definition finalize_block (nodeid : NodeId) (w : World) (h : uint256) : World :=
  set_requester
    (ResetLastBlockRequestTime h (MapBlocksInFlightErase h nodeid (requester w))) w.

(** DbgAssert(pred, action) is taken as in a production build: when pred
    fails, action runs. *)
Definition FinalizeNode (nodeid : NodeId) (w : World) : World :=
  match nodestate w !! nodeid with
  | None => w
  | Some state =>
      let w := if fSyncStarted state then set_nSyncStarted (nSyncStarted w - 1) w else w in
      let vBlocksInFlight := GetBlocksInFlight (requester w) nodeid in
      let w := foldl (finalize_block nodeid) w vBlocksInFlight in
      let w :=
        set_nPreferredDownload
          (int32_wrap (nPreferredDownload w - Z.b2z (fPreferredDownload state))) w in
      let w := set_nodestate (delete nodeid (nodestate w)) w in
      let w := set_requester (requester_RemoveNodeState nodeid (requester w)) w in
      if bool_decide (nodestate w = ∅) then
        let w :=
          if MapBlocksInFlightEmpty (requester w) then w
          else set_requester (MapBlocksInFlightClear (requester w)) w in
        if nPreferredDownload w =? 0 then w else set_nPreferredDownload 0 w
      else w
  end.

(** ** Concrete instances

    A small environment and a peer on which the handlers can be run. *)

Definition Env_eta (e : Env) : Env :=
  Build_Env (GetHash e) (GetTime e) (GetAdjustedTime e) (SendBufferSize e)
    (SendSizeAfterPush e) (fImporting e) (fReindex e) (fListen e)
    (fDropMessagesTest e) (fBlocksOnly e) (fWhitelistRelay e) (nLocalServices e)
    (NODE_NETWORK e) (NODE_BLOOM e) (NO_BLOOM_VERSION e) (MIN_PEER_PROTO_VERSION e)
    (PROTOCOL_VERSION e) (CADDR_TIME_VERSION e) (VERACK_TIMEOUT e)
    (MAX_SUBVERSION_LENGTH e) (LimitedString_what e) (nLocalHostNonce e)
    (NetworkIDString e) (IsInitialBlockDownload e) (IsChainNearlySyncd e)
    (MAX_UNCONNECTED_HEADERS e) (UNCONNECTED_HEADERS_TIMEOUT e) (nPowTargetSpacing e)
    (maxBlocksInTransitPerPeer e) (chainActive_Contains e) (chainActive_Tip e)
    (chainActive_GetLocator e) (pindexBestHeader e) (BLOCK_HAVE_DATA e)
    (BLOCK_EXCESSIVE e) (IsValid_SCRIPTS e) (IsValid_TREE e)
    (GetBlockProofEquivalentTime e) (OutboundTargetReached e) (ReadBlockFromDisk e)
    (MakeMerkleBlock e) (mapRelay e) (CommitQGet e) (mempool_get e) (TxAlreadyHave e)
    (AcceptBlockHeader e) (bloom_insert e) (SanitizeString e) (IsRoutable e)
    (GetLocalAddress e) (IsPeerAddrLocalGood e) (addrman_size e) (vNodes e)
    (MSG_TX e) (MSG_BLOCK e) (MSG_FILTERED_BLOCK e) (MSG_THINBLOCK e)
    (IsKnownType e) (GetMagic e) (ProcessOther e).

Definition with_fImporting := ltac:(set_field Env_eta fImporting).
Definition with_nLocalHostNonce := ltac:(set_field Env_eta nLocalHostNonce).
Definition with_MAX_UNCONNECTED_HEADERS := ltac:(set_field Env_eta MAX_UNCONNECTED_HEADERS).

Definition test_header (prev self : uint256) (time : Z) (bits : N) : CBlockHeader :=
  {| hdr_nVersion := 1; hashPrevBlock := prev; hashMerkleRoot := 0%N;
     nTime := time; nBits := bits; nNonce := self |}.

Definition test_index (h : uint256) (height : Z) (status : N) (time : Z)
    (prev : option CBlockIndex) : CBlockIndex :=
  {| phashBlock := h; nHeight := height; nStatus := status; idx_nTime := time;
     nChainWork := Z.to_N height; pprev := prev |}.

Definition test_now : Z := 1700000000.

Definition test_tip : CBlockIndex := test_index 100 0 13 test_now None.

(** A stand-in for AcceptBlockHeader: a header is refused when its nBits
    field is zero or its predecessor is unknown, and *ppindex is left as
    it was; otherwise it enters the index and *ppindex points to it. *)
Definition test_AcceptBlockHeader (h : CBlockHeader) (m : gmap uint256 CBlockIndex)
    (pp : option CBlockIndex) : AcceptResult :=
  match m !! hashPrevBlock h with
  | Some p =>
      if (nBits h =? 0)%N then
        {| ar_ok := false; ar_mapBlockIndex := m; ar_ppindex := pp; ar_nDoS := Some 50 |}
      else
        let i := test_index (nNonce h) (nHeight p + 1) 2 (nTime h) (Some p) in
        {| ar_ok := true; ar_mapBlockIndex := <[nNonce h := i]> m;
           ar_ppindex := Some i; ar_nDoS := None |}
  | None =>
      {| ar_ok := false; ar_mapBlockIndex := m; ar_ppindex := pp; ar_nDoS := Some 10 |}
  end.

Definition test_env : Env :=
  {| GetHash := nNonce;
     GetTime := test_now;
     GetAdjustedTime := test_now;
     SendBufferSize := 1000000;
     SendSizeAfterPush := fun s _ => s + 100;
     fImporting := false;
     fReindex := false;
     fListen := true;
     fDropMessagesTest := false;
     fBlocksOnly := false;
     fWhitelistRelay := true;
     nLocalServices := 5;
     NODE_NETWORK := 1;
     NODE_BLOOM := 4;
     NO_BLOOM_VERSION := 70011;
     MIN_PEER_PROTO_VERSION := 31800;
     PROTOCOL_VERSION := 80003;
     CADDR_TIME_VERSION := 31402;
     VERACK_TIMEOUT := 60;
     MAX_SUBVERSION_LENGTH := 256;
     LimitedString_what := "String length limit exceeded";
     nLocalHostNonce := 12379813738877118345;
     NetworkIDString := "main";
     IsInitialBlockDownload := false;
     IsChainNearlySyncd := true;
     MAX_UNCONNECTED_HEADERS := 144;
     UNCONNECTED_HEADERS_TIMEOUT := 120;
     nPowTargetSpacing := 600;
     maxBlocksInTransitPerPeer := 0;
     chainActive_Contains := fun i => (phashBlock i <=? 100)%N;
     chainActive_Tip := test_tip;
     chainActive_GetLocator :=
       fun p => {| vHave := match p with Some i => [phashBlock i] | None => [] end |};
     pindexBestHeader := Some test_tip;
     BLOCK_HAVE_DATA := 8;
     BLOCK_EXCESSIVE := 128;
     IsValid_SCRIPTS :=
       fun i => (N.land (nStatus i) 96 =? 0)%N && (5 <=? N.land (nStatus i) 7)%N;
     IsValid_TREE :=
       fun i => (N.land (nStatus i) 96 =? 0)%N && (2 <=? N.land (nStatus i) 7)%N;
     GetBlockProofEquivalentTime :=
       fun to from _ => (Z.of_N (nChainWork to) - Z.of_N (nChainWork from)) * 600;
     OutboundTargetReached := fun _ => false;
     ReadBlockFromDisk :=
       fun i => Some {| blk_header := test_header 0 (phashBlock i) (idx_nTime i) 1; vtx := [] |};
     MakeMerkleBlock := fun b f => ({| mb_header := blk_header b; vMatchedTxn := [] |}, f);
     mapRelay := fun _ => None;
     CommitQGet := fun _ => None;
     mempool_get := fun _ => None;
     TxAlreadyHave := fun _ => false;
     AcceptBlockHeader := test_AcceptBlockHeader;
     bloom_insert :=
       fun f d =>
         {| filter_vData := (d ++ filter_vData f)%list; nHashFuncs := nHashFuncs f;
            nTweak := nTweak f; nFlags := nFlags f |};
     SanitizeString := fun s => s;
     IsRoutable := fun _ => true;
     GetLocalAddress := fun a => a;
     IsPeerAddrLocalGood := fun _ => false;
     addrman_size := 0;
     vNodes := [];
     MSG_TX := 1;
     MSG_BLOCK := 2;
     MSG_FILTERED_BLOCK := 3;
     MSG_THINBLOCK := 4;
     IsKnownType := fun inv => (1 <=? type inv) && (type inv <=? 5);
     GetMagic := [Byte.xe3; Byte.xe1; Byte.xf3; Byte.xe8];
     ProcessOther := fun _ _ w => (HRet true, w) |}.

Definition test_node : CNode :=
  {| id := 7;
     addr := {| ip := 167772161; port := 8333 |};
     addrLocal := default_CAddress;
     fInbound := true;
     fWhitelisted := false;
     fOneShot := false;
     fClient := false;
     fFeeler := false;
     nVersion := 80003;
     nServices := 1;
     strSubVer := "/peer:1.0/";
     cleanSubVer := "/peer:1.0/";
     nStartingHeight := 0;
     fRelayTxes := true;
     nSendVersion := 80003;
     fVerackSent := true;
     fSuccessfullyConnected := true;
     fGetAddr := false;
     fDisconnect := false;
     tVersionSent := test_now - 1000;
     nTimeOffset := 0;
     nSendSize := 0;
     nPingNonceSent := 0;
     nPingUsecStart := 0;
     nPingUsecTime := 0;
     nMinPingUsecTime := 9223372036854775807;
     pfilter := None;
     hashContinue := 0;
     blocksSent := 0;
     txsSent := 0;
     vRecvGetData := [];
     vRecvMsg := [];
     currentRecvMsgSize := 0;
     nMaxBlocksInTransit := 16 |}.

Definition test_state : CNodeState :=
  {| fSyncStarted := true;
     fPreferredDownload := true;
     fPreferHeaders := false;
     fFirstHeadersReceived := true;
     nFirstHeadersExpectedHeight := 0;
     nSyncStartTime := 0;
     pindexBestKnownBlock := None;
     pindexBestHeaderSent := None |}.

Definition test_requester : CRequestManager :=
  {| mapBlocksInFlight := ∅; mapBlkInfo := ∅; mapRequestManagerNodeState := {[ 7 ]} |}.

Definition test_world : World :=
  {| node := test_node;
     mapBlockIndex := {[ 100%N := test_tip ]};
     mapUnConnectedHeaders := ∅;
     nodestate := {[ 7 := test_state ]};
     nSyncStarted := 1;
     nPreferredDownload := 1;
     requester := test_requester;
     trace := [] |}.

(** A peer with a ping outstanding. *)
Definition pong_world (sent : N) (start last : Z) : World :=
  set_node
    (set_nPingUsecTime last
       (set_nPingUsecStart start (set_nPingNonceSent sent test_node))) test_world.

Definition pong_payload (b : Byte.byte) : list Byte.byte :=
  [b; Byte.x00; Byte.x00; Byte.x00; Byte.x00; Byte.x00; Byte.x00; Byte.x00].

(** A framed message with the right start bytes and checksum. *)
Definition test_msg (p : Payload) : CNetMessage :=
  {| pchMessageStart := [Byte.xe3; Byte.xe1; Byte.xf3; Byte.xe8];
     hdr_IsValid := true;
     hdr_nMessageSize := 1;
     hdr_nChecksum := 3806393949;
     vRecv_checksum := 3806393949;
     msg_complete := true;
     msg_size := 25;
     msg_payload := p;
     msg_nTime := test_now |}.

(** A peer with one message waiting. *)
Definition queue_world (p : Payload) : World :=
  set_node (set_currentRecvMsgSize 25 (set_vRecvMsg [test_msg p] test_node)) test_world.

(** A run of [n] headers that chain from the block with hash [first - 1]. *)
Definition header_chain (first : uint256) (n : nat) : list CBlockHeader :=
  map (fun i => test_header (first + N.of_nat i - 1) (first + N.of_nat i) test_now 1) (seq 0 n).

(** Two headers waiting in the unconnected-header cache: 2100, which
    connects to 2099, and its child 2101, which AcceptBlockHeader refuses. *)
Definition cached_world : World :=
  set_mapUnConnectedHeaders
    (<[2100%N := (test_header 2099 2100 test_now 1, test_now)]>
       (<[2101%N := (test_header 2100 2101 test_now 0, test_now)]> ∅)) test_world.

(** Two peers, 7 and 8; blocks 500 and 501 are in flight from peer 7,
    block 500 from peer 8 as well. *)
Definition finalize_world : World :=
  set_requester
    {| mapBlocksInFlight :=
         <[(500%N, 7) := (test_now, 0%nat)]>
           (<[(501%N, 7) := (test_now, 1%nat)]>
              (<[(500%N, 8) := (test_now, 0%nat)]> ∅));
       mapBlkInfo := <[500%N := test_now]> (<[501%N := test_now]> ∅);
       mapRequestManagerNodeState := {[ 7; 8 ]} |}
    (set_nPreferredDownload 2
       (set_nodestate (<[8 := test_state]> (nodestate test_world)) test_world)).

(** Peer 7 alone, with block 500 in flight. *)
Definition last_peer_world : World :=
  set_requester
    {| mapBlocksInFlight := {[ (500%N, 7) := (test_now, 0%nat) ]};
       mapBlkInfo := {[ 500%N := test_now ]};
       mapRequestManagerNodeState := {[ 7 ]} |} test_world.

(** A block index with block 200 off the active chain: valid, with data,
    as recent as the tip, and with the status bits [extra] on top. *)
Definition side_block_world (extra : N) : World :=
  set_mapBlockIndex
    (<[200%N := test_index 200 0 (13 + extra) test_now None]> (mapBlockIndex test_world))
    test_world.

(** A peer that has not sent its version yet. *)
Definition fresh_world : World :=
  set_node (set_fVerackSent false (set_fSuccessfullyConnected false
             (set_nVersion 0 test_node))) test_world.

Definition test_version (version : Z) (nonce : N) : VersionMsg :=
  {| vm_nVersion := version;
     vm_nServices := 1;
     vm_nTime := test_now;
     vm_addrMe := {| ip := 167772162; port := 8333 |};
     vm_tail1 :=
       Some {| vm_addrFrom := {| ip := 167772161; port := 8333 |};
               vm_nNonce := nonce;
               vm_tail2 :=
                 Some {| vm_strSubVer := "/peer:1.0/";
                         vm_tail3 := Some {| vm_nStartingHeight := 0;
                                             vm_fRelayTxes := Some true |} |} |} |}.

(** The same message with a user agent of 300 characters. *)
Definition test_version_long_agent (version : Z) (nonce : N) : VersionMsg :=
  {| vm_nVersion := version;
     vm_nServices := 1;
     vm_nTime := test_now;
     vm_addrMe := {| ip := 167772162; port := 8333 |};
     vm_tail1 :=
       Some {| vm_addrFrom := {| ip := 167772161; port := 8333 |};
               vm_nNonce := nonce;
               vm_tail2 :=
                 Some {| vm_strSubVer := String.concat EmptyString (repeat "/peer:1.0/" 30);
                         vm_tail3 := Some {| vm_nStartingHeight := 0;
                                             vm_fRelayTxes := Some true |} |} |} |}.

(** ** Statements

    Predicates in which the properties below are phrased. *)

(** The claim as the specification words it, at one input: with a ping
    outstanding, a pong that carries the sent nonce records the round-trip
    time and clears the nonce; one that carries another, non-zero nonce is
    logged as a mismatch and leaves the nonce. *)
Definition pong_as_specified (w : World) (nTimeReceived : Z)
    (vRecv : list Byte.byte) : Prop :=
  let n := node w in
  let nonce := ReadLE 8 vRecv in
  let w' := (run (ProcessPong nTimeReceived vRecv) w).2 in
  (8 <= length vRecv)%nat ->
  nPingNonceSent n <> 0%N ->
  (nonce = nPingNonceSent n ->
   nPingUsecTime (node w') = nTimeReceived - nPingUsecStart n /\
   nMinPingUsecTime (node w') = Z.min (nMinPingUsecTime n) (nTimeReceived - nPingUsecStart n) /\
   nPingNonceSent (node w') = 0%N) /\
  (nonce <> nPingNonceSent n -> nonce <> 0%N ->
   trace w' = pong_log n "Nonce mismatch" nonce (length vRecv) :: trace w /\
   nPingNonceSent (node w') = nPingNonceSent n).

(** The claim as the specification words it, at one input. *)
Definition inv_size_gate_as_specified (env : Env) (w : World) (vInv : list CInv) : Prop :=
  let len := Z.of_nat (length vInv) in
  let r := run (ProcessInv env vInv) w in
  len = 0 \/ MAX_INV_SZ < len ->
  r.1 = HRet false /\ In (EvMisbehaving (id (node w)) 20) (trace r.2).

Definition inv_50000 : list CInv := repeat {| type := MSG_TX test_env; hash := 9%N |} (Z.to_nat 50000).

Definition flood_world : World := set_node (set_nSendSize 1999950 test_node) test_world.

Definition flood_pre : list CInv := [{| type := MSG_TX test_env; hash := 21%N |}].

Definition flood_inv : CInv := {| type := MSG_BLOCK test_env; hash := 22%N |}.

Definition flood_rest : list CInv := [{| type := MSG_TX test_env; hash := 23%N |}].

(** Calls that would make the disconnection of a peer audible: points, a
    ban, or a reject message. *)
Definition silent (e : Event) : Prop :=
  match e with
  | EvMisbehaving _ _ | EvBan _ _ | EvPushMessage _ (MREJECT _ _ _) => False
  | _ => True
  end.

(** The claim as the specification words it, at one input. *)
Definition self_connect_as_specified (env : Env) (w : World) (v : VersionMsg) : Prop :=
  let r := ProcessVersion env v w in
  version_nNonce v = nLocalHostNonce env ->
  nLocalHostNonce env <> 0%N ->
  r.1 = HRet true /\
  fDisconnect (node r.2) = true /\
  forall e, In e (trace r.2) -> In e (trace w) \/ silent e.

(** The claim as the specification words it, at one input: when
    ProcessMessage returns false for the message at the head of the queue,
    the loop drops the peer and bans it. *)
Definition failure_bans_as_specified (env : Env) (w : World) : Prop :=
  forall msg rest,
    vRecvMsg (node w) = msg :: rest ->
    (ProcessMessage env (msg_payload msg) (msg_nTime msg) (pop_message msg rest w)).1
    = HRet false ->
    let r := ProcessMessages env w in
    (r.1 = PMRet false \/ fDisconnect (node r.2) = true) /\
    exists a seconds, In (EvBan a seconds) (trace r.2).

(** The events by which a block leaves the node in answer to a getdata. *)
Definition is_block_serve (e : Event) : bool :=
  match e with
  | EvPushMessage _ (MBLOCK _) => true
  | EvPushMessage _ (MMERKLEBLOCK _) => true
  | EvSendXThinBlock _ _ _ => true
  | _ => false
  end.

(** The condition under which the code lets a block go: it is in the
    block index and on the active chain, or it is off the chain, valid,
    less than a month behind the best header by block time and by
    equivalent proof-of-work time, and not marked excessive. *)
Definition may_serve (env : Env) (mbi : gmap uint256 CBlockIndex) (inv : CInv) : Prop :=
  exists mi,
    mbi !! hash inv = Some mi /\
    (chainActive_Contains env mi = true \/
     (IsValid_SCRIPTS env mi = true /\
      (exists best,
         pindexBestHeader env = Some best /\
         idx_GetBlockTime best - idx_GetBlockTime mi < nOneMonth /\
         GetBlockProofEquivalentTime env best mi best < nOneMonth) /\
      N.land (nStatus mi) (BLOCK_EXCESSIVE env) = 0%N)).

(** [emits mbi P m Q]: started with block index [mbi], the computation [m]
    leaves the block index alone, extends the trace by events that satisfy
    [P], and a normal result satisfies [Q]. *)
Definition emits {A} (mbi : gmap uint256 CBlockIndex) (P : Event -> Prop)
    (m : M A) (Q : A -> Prop) : Prop :=
  forall w, mapBlockIndex w = mbi ->
    (exists new, trace (m w).2 = new ++ trace w /\ Forall P new) /\
    mapBlockIndex (m w).2 = mbi /\
    forall a, (m w).1 = Normal a -> Q a.

(** The event hands out [block]: as a block message, as the merkle block
    made of it for some filter, or as a thin block. *)
Definition carries (env : Env) (block : CBlock) (e : Event) : Prop :=
  match e with
  | EvPushMessage _ (MBLOCK b) => b = block
  | EvPushMessage _ (MMERKLEBLOCK mb) => exists f, mb = (MakeMerkleBlock env block f).1
  | EvSendXThinBlock b _ _ => b = block
  | _ => False
  end.

(** An event that serves a block is allowed only when [Q] holds of it. *)
Definition serve_needs (Q : Event -> Prop) (e : Event) : Prop :=
  is_block_serve e = true -> Q e.

(** The value hashLastBlock has when a header is compared with it
    (main.cpp 1647-1652): the hash of the header before it, or, while that
    is null, the header's own predecessor if the block index knows it. *)
Definition expected_prev (mbi : gmap uint256 CBlockIndex) (hashLastBlock : uint256)
    (header : CBlockHeader) : uint256 :=
  if (hashLastBlock =? 0)%N then
    match mbi !! hashPrevBlock header with
    | Some _ => hashPrevBlock header
    | None => hashLastBlock
    end
  else hashLastBlock.

(** A discontinuity: the header does not name the expected predecessor. *)
Definition out_of_order (mbi : gmap uint256 CBlockIndex) (hashLastBlock : uint256)
    (header : CBlockHeader) : bool :=
  negb (hashPrevBlock header =? expected_prev mbi hashLastBlock header)%N.

(** The header is more than a day older than the adjusted time. *)
Definition too_old (env : Env) (header : CBlockHeader) : bool :=
  GetBlockTime header <? GetAdjustedTime env - 24 * 60 * 60.



(** What the walk does with a header once a discontinuity was seen: it
    enters the cache while the cache has room, and the peer's block
    availability is updated. *)
Definition cache_and_announce (env : Env) (w : World) (header : CBlockHeader) : World :=
  let h := GetHash env header in
  let w1 :=
    if (size (mapUnConnectedHeaders w) <? MAX_UNCONNECTED_HEADERS env)%nat then
      set_mapUnConnectedHeaders (<[h := (header, GetTime env)]> (mapUnConnectedHeaders w)) w
    else w in
  set_trace (EvUpdateBlockAvailability (id (node w1)) h :: trace w1) w1.




(** The getheaders requests among the calls. *)
Definition is_getheaders (e : Event) : bool :=
  match e with
  | EvPushMessage _ (MGETHEADERS _ _) => true
  | _ => false
  end.

(** ** Further functions of main.cpp

    The branches of [ProcessMessage] for getdata, getblocks, getheaders,
    mempool, filterload and filterclear, with the helper
    [FindForkInGlobalIndex].  The inventory queue of the peer
    (vInventoryToSend) is not part of [CNode]: the getblocks branch gives
    what it hands to PushInventory as its result. *)

(** FindForkInGlobalIndex (main.cpp 266-280).  [Contains] and [Genesis]
    are the answers of the chain it is given, [mbi] is mapBlockIndex. *)
Fixpoint FindForkInGlobalIndex (Contains : CBlockIndex -> bool)
    (Genesis : option CBlockIndex) (mbi : gmap uint256 CBlockIndex)
    (vHave : list uint256) : option CBlockIndex :=
  match vHave with
  | [] => Genesis
  | hash :: rest =>
      match mbi !! hash with
      | Some pindex =>
          if Contains pindex then Some pindex
          else FindForkInGlobalIndex Contains Genesis mbi rest
      | None => FindForkInGlobalIndex Contains Genesis mbi rest
      end
  end.

Definition set_pindexBestHeaderSent := ltac:(set_field CNodeState_eta pindexBestHeaderSent).

Section MoreHandlers.

Context (env : Env).

(** chainActive.Next and chainActive.Genesis (chain.h), next to the
    chain queries of [Env]. *)
Context (chainActive_Next : CBlockIndex -> option CBlockIndex).
Context (chainActive_Genesis : option CBlockIndex).

(** *** getblocks (main.cpp 1478-1526) *)

(** fPruneMode is a global of main.cpp set at start-up; MIN_BLOCKS_TO_KEEP
    is declared in main.h. *)
Context (fPruneMode : bool) (MIN_BLOCKS_TO_KEEP : Z).

(** The for loop (main.cpp 1498-1525) with [nLimit] turns left.  The
    result lists the items handed to pfrom->PushInventory, first to last.
    The quotient 3600 / nPowTargetSpacing is taken in each turn; a zero
    divisor stops the program. *)
Fixpoint getblocks_walk (hashStop : uint256) (nLimit : nat) (pindex : option CBlockIndex)
  : M (list CInv) :=
  match pindex with
  | None => ret []
  | Some p =>
      if (GetBlockHash p =? hashStop)%N then
        LOG "  getblocks stopping at %d %s"
          [LNum (nHeight p); LNum (Z.of_N (GetBlockHash p))] >>>
        ret []
      else if nPowTargetSpacing env =? 0 then crash
      else
        let nPrunedBlocksLikelyToHave :=
          MIN_BLOCKS_TO_KEEP - Z.quot 3600 (nPowTargetSpacing env) in
        if fPruneMode &&
           ((N.land (nStatus p) (BLOCK_HAVE_DATA env) =? 0)%N ||
            (nHeight p <=? nHeight (chainActive_Tip env) - nPrunedBlocksLikelyToHave))
        then
          LOG " getblocks stopping, pruned or too old block at %d %s"
            [LNum (nHeight p); LNum (Z.of_N (GetBlockHash p))] >>>
          ret []
        else
          let inv := {| type := MSG_BLOCK env; hash := GetBlockHash p |} in
          match nLimit with
          | S ((S _) as nLimit') =>
              let* l := getblocks_walk hashStop nLimit' (chainActive_Next p) in
              ret (inv :: l)
          | _ =>
              LOG "  getblocks stopping at limit %d %s"
                [LNum (nHeight p); LNum (Z.of_N (GetBlockHash p))] >>>
              modify_node (set_hashContinue (GetBlockHash p)) >>>
              ret [inv]
          end
  end.

Definition ProcessGetBlocks (locator : CBlockLocator) (hashStop : uint256) : M (list CInv) :=
  if fImporting env || fReindex env then return_ true
  else
    let* w := get in
    let pindex :=
      match FindForkInGlobalIndex (chainActive_Contains env) chainActive_Genesis
              (mapBlockIndex w) (vHave locator) with
      | Some p => chainActive_Next p
      | None => None
      end in
    let* n := pfrom in
    LOG "getblocks %d to %s limit %d from peer=%d"
      [LNum (match pindex with Some p => nHeight p | None => -1 end);
       (if (hashStop =? 0)%N then LStr "end" else LNum (Z.of_N hashStop));
       LNum 500; LNum (id n)] >>>
    getblocks_walk hashStop 500 pindex.

(** *** getheaders (main.cpp 1529-1571) *)

(** The for loop (main.cpp 1559-1564) with [nLimit] turns left: the
    blocks whose headers enter vHeaders, and pindex as the loop leaves
    it. *)
Fixpoint getheaders_walk (hashStop : uint256) (nLimit : nat) (pindex : option CBlockIndex)
  : list CBlockIndex * option CBlockIndex :=
  match pindex with
  | None => ([], None)
  | Some p =>
      match nLimit with
      | S ((S _) as nLimit') =>
          if (GetBlockHash p =? hashStop)%N then ([p], Some p)
          else
            let r := getheaders_walk hashStop nLimit' (chainActive_Next p) in
            (p :: r.1, r.2)
      | _ => ([p], Some p)
      end
  end.

(** Where the loop starts (main.cpp 1537-1552); the outer [None] is the
    early `return true`. *)
Definition getheaders_start (mbi : gmap uint256 CBlockIndex) (locator : CBlockLocator)
    (hashStop : uint256) : option (option CBlockIndex) :=
  match vHave locator with
  | [] =>
      match mbi !! hashStop with
      | None => None
      | Some p => Some (Some p)
      end
  | _ =>
      Some match FindForkInGlobalIndex (chainActive_Contains env) chainActive_Genesis
                   mbi (vHave locator) with
           | Some p => chainActive_Next p
           | None => None
           end
  end.

(** The branch.  Its result repeats vHeaders, the message it pushes
    last: the blocks whose headers the message holds. *)
Definition ProcessGetHeaders (locator : CBlockLocator) (hashStop : uint256)
  : M (list CBlockIndex) :=
  let* w := get in
  let* n := pfrom in
  match getheaders_start (mapBlockIndex w) locator hashStop with
  | None => return_ true
  | Some pindex =>
      LOG "getheaders height %d for block %s from peer %s"
        [LNum (match pindex with Some p => nHeight p | None => -1 end);
         LNum (Z.of_N hashStop); LNum (id n)] >>>
      let r := getheaders_walk hashStop (Z.to_nat MAX_HEADERS_RESULTS) pindex in
      match nodestate w !! id n with
      | None => crash
      | Some state =>
          let sent := match r.2 with Some p => p | None => chainActive_Tip env end in
          modify (set_nodestate
                    (<[id n := set_pindexBestHeaderSent (Some sent) state]> (nodestate w))) >>>
          PushMessage env (MHEADERS r.1) >>>
          ret r.1
      end
  end.

(** *** getdata (main.cpp 1426-1475) *)

(** fDebug is a global of util.cpp.  BasicThinblockChecks (main.cpp
    952-984) keeps a request rate of the peer as a double that it decays
    with std::pow; floating-point arithmetic has no exact counterpart
    here, so the function is taken as an arbitrary computation, and what
    is proved of the branch holds whatever it does. *)
Context (fDebug : bool) (BasicThinblockChecks : M bool).

(** The loop that fills invDeque (main.cpp 1445-1462). *)
Fixpoint getdata_validate (vInv : list CInv) : M unit :=
  match vInv with
  | [] => ret tt
  | inv :: rest =>
      if negb ((type inv =? MSG_TX env) || (type inv =? MSG_BLOCK env) ||
               (type inv =? MSG_FILTERED_BLOCK env) || (type inv =? MSG_THINBLOCK env))
      then
        Misbehaving 20 >>>
        return_error "message inv invalid type = %u" [LNum (type inv)]
      else
        when (type inv =? MSG_THINBLOCK env)
          (let* ok := BasicThinblockChecks in
           if ok then ret tt else return_ false) >>>
        getdata_validate rest
  end.

Definition ProcessGetDataMessage (vInv : list CInv) : M unit :=
  if fImporting env || fReindex env then
    let* n := pfrom in
    LOG "received getdata from %s but importing" [LNum (id n)] >>>
    return_ true
  else
    let size := Z.of_nat (length vInv) in
    if (MAX_INV_SZ <? size) || (size =? 0) then
      Misbehaving 20 >>>
      return_error "message getdata size() = %u" [LNum size]
    else
      getdata_validate vInv >>>
      let* n := pfrom in
      when (fDebug || negb (size =? 1))
        (LOG "received getdata (%u invsz) peer=%s" [LNum size; LNum (id n)]) >>>
      when ((fDebug && (0 <? size)) || (size =? 1))
        match vInv with
        | inv :: _ =>
            LOG "received getdata for: %s peer=%s" [LNum (Z.of_N (hash inv)); LNum (id n)]
        | [] => crash
        end >>>
      let* r := ProcessGetData env vInv in
      modify_node (fun n => set_vRecvGetData (vRecvGetData n ++ r.1) n).

(** *** mempool (main.cpp 2134-2177) *)

(** mempool.queryHashes and CBloomFilter::IsRelevantAndUpdate, which
    answers and may extend the filter. *)
Context (mempool_queryHashes : list uint256).
Context (IsRelevantAndUpdate : CBloomFilter -> CTransaction -> bool * CBloomFilter).

(** The loop over vtxid (main.cpp 2154-2174) on the local vInv. *)
Fixpoint mempool_loop (fHaveFilter : bool) (vtxid : list uint256) (vInv : list CInv)
  : M (list CInv) :=
  match vtxid with
  | [] => ret vInv
  | h :: rest =>
      let inv := {| type := MSG_TX env; hash := h |} in
      let* keep :=
        if fHaveFilter then
          match mempool_get env h with
          | None => ret false
          | Some ptx =>
              let* n := pfrom in
              match pfilter n with
              | None => crash
              | Some f =>
                  let '(relevant, f') := IsRelevantAndUpdate f ptx in
                  modify_node (set_pfilter (Some f')) >>> ret relevant
              end
          end
        else ret true in
      if keep then
        let vInv := vInv ++ [inv] in
        if Z.of_nat (length vInv) =? MAX_INV_SZ then
          PushMessage env (MINV vInv) >>> mempool_loop fHaveFilter rest []
        else mempool_loop fHaveFilter rest vInv
      else mempool_loop fHaveFilter rest vInv
  end.

Definition ProcessMempool : M unit :=
  let* n := pfrom in
  if OutboundTargetReached env false && negb (fWhitelisted n) then
    LOG "mempool request with bandwidth limit reached, disconnect peer %s" [LNum (id n)] >>>
    modify_node (set_fDisconnect true) >>>
    return_ true
  else
    let fHaveFilter := match pfilter n with Some _ => true | None => false end in
    let* vInv := mempool_loop fHaveFilter mempool_queryHashes [] in
    when (0 <? Z.of_nat (length vInv)) (PushMessage env (MINV vInv)).

(** *** filterload and filterclear (main.cpp 2275-2293, 2318-2324) *)

(** CBloomFilter::IsWithinSizeConstraints and the filter the default
    constructor makes (bloom.h). *)
Context (IsWithinSizeConstraints : CBloomFilter -> bool).
Context (default_CBloomFilter : CBloomFilter).

Definition ProcessFilterLoad (filter : CBloomFilter) : M unit :=
  if negb (IsWithinSizeConstraints filter) then
    Misbehaving 100 >>> return_ false
  else
    modify_node (set_pfilter (Some filter)) >>>
    modify_node (set_fRelayTxes true).

Definition ProcessFilterClear : M unit :=
  modify_node (set_pfilter (Some default_CBloomFilter)) >>>
  modify_node (set_fRelayTxes true).

End MoreHandlers.

(** ** Further instances *)

Definition with_nLocalServices := ltac:(set_field Env_eta nLocalServices).
Definition with_OutboundTargetReached := ltac:(set_field Env_eta OutboundTargetReached).

(** A node that offers NODE_NETWORK only. *)
Definition no_bloom_env : Env := with_nLocalServices 1%N test_env.

(** A peer that was sent our version 1000 s ago and has not answered
    with verack. *)
Definition silent_peer_world : World :=
  set_node (set_fSuccessfullyConnected false test_node) test_world.

(** ** Further statements *)

Definition is_log (e : Event) : Prop :=
  match e with
  | EvLog _ _ => True
  | _ => False
  end.

(** A complete message with the right start bytes whose header is invalid
    or whose payload does not match the checksum of the header. *)
Definition corrupt (env : Env) (msg : CNetMessage) : Prop :=
  msg_complete msg = true /\
  memcmp_eq MESSAGE_START_SIZE (pchMessageStart msg) (GetMagic env) = true /\
  (hdr_IsValid msg = false \/ vRecv_checksum msg <> hdr_nChecksum msg).

(** [w'] is [w] but for the peer and the trace. *)
Definition same_shared_state (w w' : World) : Prop :=
  mapBlockIndex w' = mapBlockIndex w /\
  mapUnConnectedHeaders w' = mapUnConnectedHeaders w /\
  nodestate w' = nodestate w /\
  nSyncStarted w' = nSyncStarted w /\
  nPreferredDownload w' = nPreferredDownload w /\
  requester w' = requester w.

(** A message in which everything but the start bytes is as in
    [test_msg]. *)
Definition test_msg_with_start (start : list Byte.byte) (p : Payload) : CNetMessage :=
  {| pchMessageStart := start;
     hdr_IsValid := true;
     hdr_nMessageSize := 1;
     hdr_nChecksum := 3806393949;
     vRecv_checksum := 3806393949;
     msg_complete := true;
     msg_size := 25;
     msg_payload := p;
     msg_nTime := test_now |}.

(** A message with a wrong checksum. *)
Definition test_msg_bad_checksum (p : Payload) : CNetMessage :=
  {| pchMessageStart := [Byte.xe3; Byte.xe1; Byte.xf3; Byte.xe8];
     hdr_IsValid := true;
     hdr_nMessageSize := 1;
     hdr_nChecksum := 3806393949;
     vRecv_checksum := 1;
     msg_complete := true;
     msg_size := 25;
     msg_payload := p;
     msg_nTime := test_now |}.

(** A peer with a bloom filter of three bytes loaded. *)
Definition test_filter : CBloomFilter :=
  {| filter_vData := [Byte.x00; Byte.x00; Byte.x00]; nHashFuncs := 2; nTweak := 0; nFlags := 0 |}.

Definition filter_world : World := set_node (set_pfilter (Some test_filter) test_node) test_world.

(** The filter a default-constructed CBloomFilter is taken to be in the
    instances. *)
Definition test_default_filter : CBloomFilter :=
  {| filter_vData := []; nHashFuncs := 0; nTweak := 0; nFlags := 0 |}.

(** What an AskFor among the calls of the inv branch says about the
    entry it names: it is a transaction entry of the message, not known
    to the node, received outside initial block download from a peer for
    which blocks-only mode is not in force. *)
Definition ask_for_justified (env : Env) (fBlocksOnly : bool) (vInv : list CInv)
    (e : Event) : Prop :=
  match e with
  | EvAskFor inv _ =>
      In inv vInv /\
      type inv = MSG_TX env /\
      type inv <> MSG_BLOCK env /\
      TxAlreadyHave env inv = false /\
      IsInitialBlockDownload env = false /\
      fBlocksOnly = false
  | _ => True
  end.

(** [keeps f m w]: run from [w], the computation [m] ends in a world on
    which [f] reads as on [w]. *)
Definition keeps {X A} (f : World -> X) (m : M A) (w : World) : Prop :=
  f (m w).2 = f w.

(** [m] has no `return` on any of its paths. *)
Definition never_returns {A} (m : M A) : Prop :=
  forall w b w', m w <> (Return b, w').

(** The peer with the fields reset that serving a getdata may change. *)
Definition getdata_mask (n : CNode) : CNode :=
  set_nSendSize 0
    (set_pfilter None
       (set_blocksSent 0
          (set_txsSent 0
             (set_hashContinue 0%N
                (set_fDisconnect false n))))).

(** Everything of the world that serving a getdata leaves alone. *)
Definition getdata_frame (w : World) : World :=
  set_trace [] (set_node (getdata_mask (node w)) w).

(** The whitelisting of the peer and, for a whitelisted peer, its
    disconnect flag. *)
Definition whitelisted_disconnect (w : World) : bool * bool :=
  (fWhitelisted (node w), fWhitelisted (node w) && fDisconnect (node w)).

Definition set_fWhitelisted := ltac:(set_field CNode_eta fWhitelisted).

(** The outbound target is reached and a whitelisted peer asks. *)
Definition limit_env : Env := with_OutboundTargetReached (fun _ => true) test_env.

Definition whitelisted_world : World := set_node (set_fWhitelisted true test_node) test_world.

(** An item of a getdata that is of one of the three types served
    without the thin-block checks. *)
Definition plain_getdata_type (env : Env) (inv : CInv) : Prop :=
  (type inv = MSG_TX env \/ type inv = MSG_BLOCK env \/ type inv = MSG_FILTERED_BLOCK env) /\
  type inv <> MSG_THINBLOCK env.

(** An item that is not of block class and that neither the relay map nor,
    for a transaction, the admission queue or the mempool can answer. *)
Definition not_to_be_found (env : Env) (inv : CInv) : Prop :=
  is_block_class env inv = false /\
  mapRelay env inv = None /\
  (type inv = MSG_TX env ->
   CommitQGet env (hash inv) = None /\ mempool_get env (hash inv) = None).

(** [ext] chains on from the block with hash [prev]: each header names
    the hash of the one before it as its predecessor. *)
Fixpoint chains_from (env : Env) (prev : uint256) (ext : list CBlockHeader) : Prop :=
  match ext with
  | [] => True
  | header :: rest => hashPrevBlock header = prev /\ chains_from env (GetHash env header) rest
  end.

(** The header is the value of some entry of the cache. *)
Definition cached (m : gmap uint256 (CBlockHeader * Z)) (header : CBlockHeader) : Prop :=
  exists k t, m !! k = Some (header, t).

(** The number of AskFor calls in a trace. *)
Fixpoint count_AskFor (tr : list Event) : Z :=
  match tr with
  | [] => 0
  | EvAskFor _ _ :: rest => 1 + count_AskFor rest
  | _ :: rest => count_AskFor rest
  end.

(** The number of node states with the preferred-download flag, and with
    the sync-started flag. *)
Definition preferred_count (ns : gmap NodeId CNodeState) : Z :=
  Z.of_nat (size (filter (fun kv => fPreferredDownload kv.2 = true) ns)).

Definition sync_count (ns : gmap NodeId CNodeState) : Z :=
  Z.of_nat (size (filter (fun kv => fSyncStarted kv.2 = true) ns)).

(** No hash of the list is that of an indexed block on the chain. *)
Definition none_on_chain (Contains : CBlockIndex -> bool) (mbi : gmap uint256 CBlockIndex)
    (l : list uint256) : Prop :=
  Forall (fun h => forall pindex, mbi !! h = Some pindex -> Contains pindex = false) l.

(** Each block of the list is followed by its successor on the chain. *)
Fixpoint consecutive (Next : CBlockIndex -> option CBlockIndex) (l : list CBlockIndex) : Prop :=
  match l with
  | p :: (q :: _) as rest => Next p = Some q /\ consecutive Next rest
  | _ => True
  end.

(** A chain interface over the blocks 100, 101, ... of height 0, 1, ...:
    every block is followed by the next one up to hash [tip]. *)
Definition test_Next (tip : N) (p : CBlockIndex) : option CBlockIndex :=
  if (phashBlock p <? tip)%N
  then Some (test_index (phashBlock p + 1) (nHeight p + 1) 13 test_now None)
  else None.

(** * Properties *)

Ltac monad_unfold :=
  unfold run, bind, ret, return_, return_error, LOG, Misbehaving, PushMessage,
    emit, modify_node, modify, pfrom, get, when, crash in *.

(** ** filteradd *)

(** A filteradd that passes the size limit is answered through the
    oracle when a filter is loaded. *)
Lemma filteradd_with_filter (env : Env) (w : World) (vData : list Byte.byte) (f : CBloomFilter) :
  Z.of_nat (length vData) <= MAX_SCRIPT_ELEMENT_SIZE ->
  pfilter (node w) = Some f ->
  run (ProcessFilterAdd env vData) w
  = (HRet true, set_node (set_pfilter (Some (bloom_insert env f vData)) (node w)) w).
Proof.
  intros Hlen Hf. unfold ProcessFilterAdd.
  destruct (MAX_SCRIPT_ELEMENT_SIZE <? Z.of_nat (length vData)) eqn:E.
  - apply Z.ltb_lt in E. lia.
  - monad_unfold. cbn. rewrite Hf. reflexivity.
Qed.

(** Without a filter the branch makes one call, Misbehaving(100). *)
Lemma ProcessFilterAdd_no_filter (env : Env) (w : World) (vData : list Byte.byte) :
  Z.of_nat (length vData) <= MAX_SCRIPT_ELEMENT_SIZE ->
  pfilter (node w) = None ->
  run (ProcessFilterAdd env vData) w
  = (HRet true, set_trace (EvMisbehaving (id (node w)) 100 :: trace w) w).
Proof.
  intros Hlen Hnone. unfold ProcessFilterAdd.
  destruct (MAX_SCRIPT_ELEMENT_SIZE <? Z.of_nat (length vData)) eqn:E.
  - apply Z.ltb_lt in E. lia.
  - monad_unfold. cbn. rewrite Hnone. reflexivity.
Qed.

(** C10: a filteradd whose element is within the 520-byte limit, sent by a
    peer that has no bloom filter loaded, earns the peer 100 misbehaviour
    points (one call of dosMan.Misbehaving) and changes nothing else: the
    peer, and with it the absent filter, is as before. *)
Theorem filteradd_without_filter (env : Env) (w : World) (vData : list Byte.byte) :
  Z.of_nat (length vData) <= MAX_SCRIPT_ELEMENT_SIZE ->
  pfilter (node w) = None ->
  let r := run (ProcessFilterAdd env vData) w in
  r.1 = HRet true /\
  trace r.2 = EvMisbehaving (id (node w)) 100 :: trace w /\
  node r.2 = node w /\
  pfilter (node r.2) = None.
Proof.
  intros Hlen Hnone r. subst r.
  rewrite ProcessFilterAdd_no_filter by assumption. cbn. auto.
Qed.

Lemma filteradd_without_filter_witness :
  Z.of_nat (length (repeat Byte.x2a 520)) <= MAX_SCRIPT_ELEMENT_SIZE /\
  pfilter (node test_world) = None /\
  let r := run (ProcessFilterAdd test_env (repeat Byte.x2a 520)) test_world in
  r.1 = HRet true /\
  trace r.2 = EvMisbehaving (id (node test_world)) 100 :: trace test_world /\
  node r.2 = node test_world /\
  pfilter (node r.2) = None.
Proof.
  split; [vm_compute; discriminate | split; [reflexivity |]].
  apply (filteradd_without_filter test_env test_world (repeat Byte.x2a 520)).
  - vm_compute; discriminate.
  - reflexivity.
Defined.

(** ** pong *)

(** C8, counterexample: ping nonce 7 sent at 2000000 us, matching pong
    stamped 1999000 us (the clock stepped back): the nonce is cleared but
    no round-trip time is recorded, the last ping time stays 55. *)
Lemma pong_as_specified_fails :
  ~ pong_as_specified (pong_world 7 2000000 55) 1999000 (pong_payload Byte.x07).
Proof.
  unfold pong_as_specified. intros H.
  destruct H as [H _]; [vm_compute; lia | discriminate |].
  destruct (H eq_refl) as [Htime _]. vm_compute in Htime. discriminate Htime.
Qed.

(** C8, amended: with a ping outstanding, a pong that carries the sent
    nonce clears the outstanding nonce, and records the round-trip time
    (last and minimum) when that time is positive; otherwise it logs
    "Timing mishap" and leaves both times.  A pong that carries another,
    non-zero nonce is logged as "Nonce mismatch" and leaves the sent nonce
    in place. *)
Theorem pong_outstanding (w : World) (nTimeReceived : Z) (vRecv : list Byte.byte) :
  (8 <= length vRecv)%nat ->
  nPingNonceSent (node w) <> 0%N ->
  let n := node w in
  let nonce := ReadLE 8 vRecv in
  let rtt := nTimeReceived - nPingUsecStart n in
  let r := run (ProcessPong nTimeReceived vRecv) w in
  r.1 = HRet true /\
  (nonce = nPingNonceSent n ->
   nPingNonceSent (node r.2) = 0%N /\
   (0 < rtt ->
    nPingUsecTime (node r.2) = rtt /\
    nMinPingUsecTime (node r.2) = Z.min (nMinPingUsecTime n) rtt /\
    trace r.2 = trace w) /\
   (rtt <= 0 ->
    nPingUsecTime (node r.2) = nPingUsecTime n /\
    nMinPingUsecTime (node r.2) = nMinPingUsecTime n /\
    trace r.2 = pong_log n "Timing mishap" nonce (length vRecv) :: trace w)) /\
  (nonce <> nPingNonceSent n -> nonce <> 0%N ->
   trace r.2 = pong_log n "Nonce mismatch" nonce (length vRecv) :: trace w /\
   node r.2 = n).
Proof.
  intros Hlen Hsent n nonce rtt r.
  assert (Hav : (8 <=? length vRecv)%nat = true) by (apply Nat.leb_le; exact Hlen).
  assert (Hout : negb (nPingNonceSent n =? 0)%N = true).
  { apply negb_true_iff, N.eqb_neq. exact Hsent. }
  subst r. unfold ProcessPong. monad_unfold. cbv beta zeta.
  rewrite Hav. unfold pong_check. rewrite Hav. fold n. rewrite Hout. fold nonce.
  fold rtt. clearbody nonce rtt.
  destruct (nonce =? nPingNonceSent n)%N eqn:Heq.
  - apply N.eqb_eq in Heq.
    destruct (0 <? rtt) eqn:Hrtt; cbn.
    + apply Z.ltb_lt in Hrtt. repeat split; try reflexivity; try lia; congruence.
    + apply Z.ltb_ge in Hrtt. repeat split; try reflexivity; try lia; congruence.
  - apply N.eqb_neq in Heq.
    destruct (nonce =? 0)%N eqn:Hz; cbn.
    + apply N.eqb_eq in Hz. repeat split; try reflexivity; congruence.
    + split; [reflexivity |]. split; [congruence |]. intros _ _.
      split; [reflexivity |]. destruct w; reflexivity.
Qed.

Lemma pong_outstanding_witness :
  (8 <= length (pong_payload Byte.x08))%nat /\
  nPingNonceSent (node (pong_world 7 2000000 55)) <> 0%N /\
  let w := pong_world 7 2000000 55 in
  let r := run (ProcessPong 2000400 (pong_payload Byte.x08)) w in
  trace r.2 = pong_log (node w) "Nonce mismatch" 8%N 8 :: trace w /\
  nPingNonceSent (node r.2) = 7%N.
Proof.
  split; [vm_compute; lia | split; [discriminate |]].
  destruct (pong_outstanding (pong_world 7 2000000 55) 2000400 (pong_payload Byte.x08))
    as (_ & _ & Hmis).
  - vm_compute; lia.
  - discriminate.
  - destruct Hmis as [Ht Hn]; [discriminate | discriminate |].
    split; [exact Ht | rewrite Hn; reflexivity].
Defined.

(** ** inv *)

Lemma for_each_app {A} (body : A -> M unit) (l1 l2 : list A) (w : World) :
  for_each (l1 ++ l2) body w
  = match for_each l1 body w with
    | (Normal _, w1) => for_each l2 body w1
    | other => other
    end.
Proof.
  revert w. induction l1 as [| x l1 IH]; intros w; cbn [for_each app].
  - reflexivity.
  - unfold bind. destruct (body x w) as [[[] | b |] w1]; [apply IH | reflexivity | reflexivity].
Qed.

(** Past its two gates the branch is the loop over the entries. *)
Lemma ProcessInv_loop (env : Env) (w : World) (vInv : list CInv) :
  fImporting env = false ->
  fReindex env = false ->
  0 < Z.of_nat (length vInv) <= MAX_INV_SZ ->
  ProcessInv env vInv w
  = for_each vInv (inv_entry env (inv_fBlocksOnly env (node w)))
      (log_event "Received INV list of size %d" [LNum (Z.of_nat (length vInv))] w).
Proof.
  intros Himp Hre [Hpos Hmax]. unfold ProcessInv. rewrite Himp, Hre. cbn [orb].
  monad_unfold. cbv beta.
  destruct (MAX_INV_SZ <? Z.of_nat (length vInv)) eqn:E1; [apply Z.ltb_lt in E1; lia |].
  destruct (Z.of_nat (length vInv) =? 0) eqn:E2; [apply Z.eqb_eq in E2; lia |].
  reflexivity.
Qed.

(** C7, counterexample: while the node imports blocks an empty inv is
    dropped; the branch returns true and calls nothing. *)
Lemma inv_size_gate_as_specified_fails :
  ~ inv_size_gate_as_specified (with_fImporting true test_env) test_world [].
Proof.
  unfold inv_size_gate_as_specified. intros H.
  destruct H as [Hret _]; [left; reflexivity |].
  vm_compute in Hret. discriminate Hret.
Qed.

(** C7, amended: for every inv received while the node is neither
    importing nor reindexing, an entry count of 0 or above 50000 earns the
    peer 20 misbehaviour points and the branch returns false, the peer
    being otherwise untouched; with exactly 50000 entries the message passes
    the size gate and its entries are handled by the loop of the branch. *)
Theorem inv_size_gate (env : Env) (w : World) (vInv : list CInv) :
  fImporting env = false ->
  fReindex env = false ->
  let len := Z.of_nat (length vInv) in
  let r := run (ProcessInv env vInv) w in
  (len = 0 \/ MAX_INV_SZ < len ->
   r.1 = HRet false /\
   node r.2 = node w /\
   trace r.2 = EvLog "message inv size() = %u" [LNum len]
               :: EvMisbehaving (id (node w)) 20
               :: EvLog "Received INV list of size %d" [LNum len] :: trace w) /\
  (len = MAX_INV_SZ ->
   r = run (for_each vInv (inv_entry env (inv_fBlocksOnly env (node w))))
         (log_event "Received INV list of size %d" [LNum len] w)).
Proof.
  intros Himp Hre len r. split.
  - intros Hbad. subst r. unfold ProcessInv. rewrite Himp, Hre. cbn [orb].
    monad_unfold. cbv beta. fold len.
    assert (E : ((MAX_INV_SZ <? len) || (len =? 0)) = true).
    { apply orb_true_iff. destruct Hbad as [H0 | Hbig].
      - right. apply Z.eqb_eq. exact H0.
      - left. apply Z.ltb_lt. exact Hbig. }
    rewrite E. cbn. auto.
  - intros Hlen. subst r. unfold run at 1.
    unfold len in *. rewrite ProcessInv_loop; [reflexivity | assumption | assumption |].
    rewrite Hlen. unfold MAX_INV_SZ. lia.
Qed.

Lemma inv_size_gate_witness :
  fImporting test_env = false /\
  fReindex test_env = false /\
  Z.of_nat (length inv_50000) = MAX_INV_SZ /\
  (run (ProcessInv test_env inv_50000) test_world).1 = HRet true /\
  (run (ProcessInv test_env []) test_world).1 = HRet false.
Proof.
  split; [reflexivity | split; [reflexivity |]].
  assert (Hlen : Z.of_nat (length inv_50000) = MAX_INV_SZ) by (vm_compute; reflexivity).
  split; [exact Hlen |].
  destruct (inv_size_gate test_env test_world inv_50000 eq_refl eq_refl) as [_ Hfull].
  destruct (inv_size_gate test_env test_world [] eq_refl eq_refl) as [Hempty _].
  split.
  - rewrite (Hfull Hlen). vm_compute. reflexivity.
  - apply Hempty. left. reflexivity.
Defined.

(** C9: while the entries of an inv are processed, if the peer's send
    buffer size after an entry was handled is above twice SendBufferSize(),
    the peer earns 50 misbehaviour points and the branch returns false;
    the entries that follow play no part in the result. *)
Theorem inv_send_buffer_flood (env : Env) (w w1 w2 : World) (pre rest : list CInv) (inv : CInv) :
  let vInv := pre ++ inv :: rest in
  let fBlocksOnly := inv_fBlocksOnly env (node w) in
  fImporting env = false ->
  fReindex env = false ->
  Z.of_nat (length vInv) <= MAX_INV_SZ ->
  for_each pre (inv_entry env fBlocksOnly)
    (log_event "Received INV list of size %d" [LNum (Z.of_nat (length vInv))] w)
  = (Normal tt, w1) ->
  inv_handle env fBlocksOnly inv w1 = (Normal tt, w2) ->
  SendBufferSize env * 2 < nSendSize (node w2) ->
  run (ProcessInv env vInv) w
  = (HRet false,
     set_trace (EvLog "send buffer size() = %u" [LNum (nSendSize (node w2))]
                :: EvMisbehaving (id (node w2)) 50 :: trace w2) w2).
Proof.
  intros vInv fBlocksOnly Himp Hre Hmax Hpre Hinv Hsend.
  unfold vInv, fBlocksOnly in *. clear vInv fBlocksOnly.
  unfold run. rewrite ProcessInv_loop; try assumption.
  - rewrite for_each_app, Hpre. cbn [for_each].
    unfold inv_entry at 1. unfold bind at 1. unfold bind at 1. rewrite Hinv.
    unfold inv_check_send_size. monad_unfold. cbv beta.
    apply Z.ltb_lt in Hsend. rewrite Hsend. reflexivity.
  - split; [| exact Hmax]. rewrite length_app. cbn [length]. lia.
Qed.

Lemma inv_send_buffer_flood_witness :
  let l := log_event "Received INV list of size %d" [LNum 3] flood_world in
  let w1 := (for_each flood_pre (inv_entry test_env false) l).2 in
  let w2 := (inv_handle test_env false flood_inv w1).2 in
  let r := run (ProcessInv test_env (flood_pre ++ flood_inv :: flood_rest)) flood_world in
  SendBufferSize test_env * 2 < nSendSize (node w2) /\
  r.1 = HRet false /\
  In (EvMisbehaving 7 50) (trace r.2) /\
  ~ In (EvInventory 23%N) (trace r.2).
Proof.
  intros l w1 w2 r. split; [vm_compute; reflexivity |]. subst r.
  rewrite (inv_send_buffer_flood test_env flood_world w1 w2 flood_pre flood_rest flood_inv).
  - split; [reflexivity |]. split.
    + vm_compute. tauto.
    + vm_compute. intros H.
      repeat (destruct H as [H | H]; [discriminate H |]). exact H.
  - reflexivity.
  - reflexivity.
  - vm_compute. discriminate.
  - vm_compute. reflexivity.
  - vm_compute. reflexivity.
  - vm_compute. reflexivity.
Defined.

(** ** version *)

(** C6, counterexample: with local nonce 1 a version carrying nonce 1 goes
    through the handshake and the peer stays connected; and a version that
    carries our nonce 0xABCDEF0123456789 but an obsolete protocol version
    is rejected with 100 points and a false result. *)
Lemma self_connect_as_specified_fails :
  ~ self_connect_as_specified (with_nLocalHostNonce 1%N test_env) fresh_world
      (test_version 80003 1%N)
  /\ ~ self_connect_as_specified test_env fresh_world
         (test_version 209 12379813738877118345%N).
Proof.
  split; unfold self_connect_as_specified; intros H.
  - destruct H as (_ & Hdis & _); [reflexivity | discriminate |].
    vm_compute in Hdis. discriminate Hdis.
  - destruct H as (Hret & _); [reflexivity | discriminate |].
    vm_compute in Hret. discriminate Hret.
Qed.

(** The head of the branch for a first version message of an acceptable
    protocol version: the version (10300 counting as 300) and the services
    are stored, and nothing else happens. *)
Lemma version_head_first (env : Env) (w : World) (v : VersionMsg) :
  nVersion (node w) = 0 ->
  MIN_PEER_PROTO_VERSION env <= vm_nVersion v ->
  version_head env v w
  = (Normal tt,
     set_node
       (set_nVersion (if vm_nVersion v =? 10300 then 300 else vm_nVersion v)
          (set_nServices (vm_nServices v) (node w))) w).
Proof.
  intros Hfirst Hproto.
  unfold version_head. monad_unfold. cbv beta zeta.
  rewrite Hfirst. cbn [Z.eqb negb].
  assert (E1 : (vm_nVersion v <? MIN_PEER_PROTO_VERSION env) = false) by (apply Z.ltb_ge; lia).
  rewrite E1.
  destruct w as [n ? ? ? ? ? ? ?]; destruct n.
  destruct (vm_nVersion v =? 10300) eqn:E; cbn; [reflexivity |].
  reflexivity.
Qed.

(** C6, amended: for the first version message of a peer (its nVersion is
    still 0) whose protocol version is at least MIN_PEER_PROTO_VERSION,
    whose user agent is not longer than MAX_SUBVERSION_LENGTH and whose
    nonce equals our local nonce, that nonce being greater than 1, the
    peer is disconnected silently: fDisconnect is set, the branch returns
    true, and the only call made is the log line; no points, no ban, no
    reject, no reply.  With a longer user agent the branch throws before
    it compares the nonce: the peer is not marked for disconnection and
    no call is made by the branch. *)
Theorem version_self_connect (env : Env) (w : World) (v : VersionMsg) :
  nVersion (node w) = 0 ->
  MIN_PEER_PROTO_VERSION env <= vm_nVersion v ->
  version_nNonce v = nLocalHostNonce env ->
  (1 < nLocalHostNonce env)%N ->
  let r := ProcessVersion env v w in
  (subver_too_long env v = false ->
   r.1 = HRet true /\
   fDisconnect (node r.2) = true /\
   trace r.2
   = EvLog "connected to self at %s, disconnecting" [LNum (Z.of_N (ip (addr (node w))))]
     :: trace w) /\
  (subver_too_long env v = true ->
   r.1 = HThrowIos (LimitedString_what env) /\
   fDisconnect (node r.2) = fDisconnect (node w) /\
   trace r.2 = trace w).
Proof.
  intros Hfirst Hproto Hnonce Hgt r. subst r.
  unfold ProcessVersion. rewrite (version_head_first env w v Hfirst Hproto).
  split; intros Hlen; rewrite Hlen.
  - unfold version_body. monad_unfold. cbv beta zeta.
    assert (E2 : ((version_nNonce v =? nLocalHostNonce env)%N && (1 <? version_nNonce v)%N)
                 = true).
    { rewrite Hnonce, N.eqb_refl. apply N.ltb_lt. exact Hgt. }
    rewrite E2.
    destruct w as [n ? ? ? ? ? ? ?]; destruct n.
    destruct (version_tail2 v); destruct (version_tail3 v); cbn; auto.
  - destruct w as [n ? ? ? ? ? ? ?]; destruct n. cbn. auto.
Qed.

Lemma version_self_connect_witness :
  nVersion (node fresh_world) = 0 /\
  MIN_PEER_PROTO_VERSION test_env <= 80003 /\
  (1 < nLocalHostNonce test_env)%N /\
  (let r := ProcessVersion test_env (test_version 80003 12379813738877118345%N) fresh_world in
   r.1 = HRet true /\
   fDisconnect (node r.2) = true /\
   trace r.2 = [EvLog "connected to self at %s, disconnecting" [LNum 167772161]]) /\
  (let r := ProcessVersion test_env (test_version_long_agent 80003 12379813738877118345%N)
              fresh_world in
   r.1 = HThrowIos "String length limit exceeded" /\
   fDisconnect (node r.2) = false /\
   trace r.2 = []).
Proof.
  split; [reflexivity | split; [vm_compute; discriminate | split; [reflexivity |]]].
  split.
  - apply (version_self_connect test_env fresh_world
             (test_version 80003 12379813738877118345%N)).
    + reflexivity.
    + vm_compute; discriminate.
    + reflexivity.
    + reflexivity.
    + reflexivity.
  - apply (version_self_connect test_env fresh_world
             (test_version_long_agent 80003 12379813738877118345%N)).
    + reflexivity.
    + vm_compute; discriminate.
    + reflexivity.
    + reflexivity.
    + reflexivity.
Defined.

(** ** ProcessMessage and ProcessMessages *)

(** With the gates ahead of the dispatch open, a message reaches the
    branch of its command. *)
Lemma ProcessMessage_dispatch (env : Env) (p : Payload) (nTimeReceived : Z) (w : World) :
  fDropMessagesTest env = false ->
  (N.land (nLocalServices env) (NODE_BLOOM env) <> 0%N \/
   is_filter_command (strCommand_of p) = false) ->
  (is_version p = true \/ verack_timed_out env (node w) = false) ->
  ProcessMessage env p nTimeReceived w
  = dispatch env p nTimeReceived
      (set_trace
         (EvLog "received: %s (%u bytes) peer=%s"
            [LStr (SanitizeString env (strCommand_of p)); LNum (id (node w))]
          :: EvUpdateRecvStats (id (node w)) (strCommand_of p) nTimeReceived
          :: EvRandAddSeedPerfmon :: trace w) w).
Proof.
  intros Hdrop Hbloom Hverack. unfold ProcessMessage. rewrite Hdrop.
  assert (Hgate : (N.land (nLocalServices env) (NODE_BLOOM env) =? 0)%N
                  && is_filter_command (strCommand_of p) = false).
  { apply andb_false_iff. destruct Hbloom as [H | H].
    - left. apply N.eqb_neq. exact H.
    - right. exact H. }
  rewrite Hgate.
  destruct (is_version p) eqn:Hv; [reflexivity |].
  destruct (String.eqb (strCommand_of p) "version" || String.eqb (strCommand_of p) "verack");
    [reflexivity |].
  destruct Hverack as [H | H]; [discriminate H |]. rewrite H. reflexivity.
Qed.

(** Seen from ProcessMessage: on a node that advertises NODE_BLOOM, a
    filteradd within the size limit from a connected peer without filter
    costs the peer 100 points. *)
Lemma ProcessMessage_filteradd_without_filter (env : Env) (w : World)
    (vData : list Byte.byte) (nTimeReceived : Z) :
  fDropMessagesTest env = false ->
  N.land (nLocalServices env) (NODE_BLOOM env) <> 0%N ->
  verack_timed_out env (node w) = false ->
  Z.of_nat (length vData) <= MAX_SCRIPT_ELEMENT_SIZE ->
  pfilter (node w) = None ->
  let r := ProcessMessage env (PFilterAdd vData) nTimeReceived w in
  r.1 = HRet true /\
  node r.2 = node w /\
  exists received, trace r.2 = EvMisbehaving (id (node w)) 100 :: received ++ trace w.
Proof.
  intros Hdrop Hbloom Hverack Hlen Hnone r. subst r.
  rewrite ProcessMessage_dispatch by auto. cbn [dispatch].
  rewrite ProcessFilterAdd_no_filter by assumption. cbn [fst snd].
  split; [reflexivity |]. split; [reflexivity |].
  eexists [_; _; _]. reflexivity.
Qed.

(** C3, counterexample: an empty inv makes ProcessMessage return false
    (20 points); ProcessMessages then returns true, the peer is not marked
    for disconnection and no ban is requested. *)
Lemma failure_bans_as_specified_fails :
  ~ failure_bans_as_specified test_env (queue_world (PInv [])).
Proof.
  intros H.
  destruct (H (test_msg (PInv [])) [] eq_refl) as [Hdrop _].
  - vm_compute. reflexivity.
  - vm_compute in Hdrop. destruct Hdrop as [Hd | Hd]; discriminate Hd.
Qed.

(** C3, amended: when ProcessMessage returns false for a well-framed
    message, the loop of ProcessMessages writes the FAILED log line and
    goes on with the next message (or ends its turn after 2000 messages);
    it requests no ban, leaves the peer as the handler left it and keeps
    fOk true. *)
Theorem failed_message_is_logged (env : Env) (w w' : World) (msg : CNetMessage)
    (rest : list CNetMessage) (msgsProcessed : Z) :
  fDisconnect (node w) = false ->
  nSendSize (node w) < SendBufferSize env ->
  msg_complete msg = true ->
  memcmp_eq MESSAGE_START_SIZE (pchMessageStart msg) (GetMagic env) = true ->
  hdr_IsValid msg = true ->
  vRecv_checksum msg = hdr_nChecksum msg ->
  ProcessMessage env (msg_payload msg) (msg_nTime msg) (pop_message msg rest w)
  = (HRet false, w') ->
  let logged := log_failed env (msg_payload msg) msg w' in
  ProcessMessages_loop env (msg :: rest) msgsProcessed w
  = (if 2000 <? msgsProcessed + 1 then (PMRet true, logged)
     else ProcessMessages_loop env rest (msgsProcessed + 1) logged)
  /\ node logged = node w'
  /\ trace logged
     = EvLog "%s(%s, %u bytes) FAILED peer %s"
         [LStr "ProcessMessages"; LStr (SanitizeString env (strCommand_of (msg_payload msg)));
          LNum (hdr_nMessageSize msg); LNum (id (node w'))]
       :: trace w'.
Proof.
  intros Hdis Hsend Hcomplete Hmagic Hvalid Hsum Hret logged.
  split; [| split; reflexivity].
  cbn [ProcessMessages_loop].
  rewrite Hdis. apply Z.ltb_lt in Hsend. rewrite Hsend. cbn [negb orb].
  rewrite Hcomplete, Hmagic, Hvalid, Hsum, N.eqb_refl. cbn [negb].
  rewrite Hret. cbn [after_ProcessMessage]. reflexivity.
Qed.

Lemma failed_message_is_logged_witness :
  let w := queue_world (PInv []) in
  let r := ProcessMessages_loop test_env [test_msg (PInv [])] 0 w in
  r.1 = PMRet true /\
  fDisconnect (node r.2) = false /\
  trace r.2
  = [EvLog "%s(%s, %u bytes) FAILED peer %s"
       [LStr "ProcessMessages"; LStr "inv"; LNum 1; LNum 7];
     EvLog "message inv size() = %u" [LNum 0];
     EvMisbehaving 7 20;
     EvLog "Received INV list of size %d" [LNum 0];
     EvLog "received: %s (%u bytes) peer=%s" [LStr "inv"; LNum 7];
     EvUpdateRecvStats 7 "inv" test_now;
     EvRandAddSeedPerfmon].
Proof.
  intros w r. subst r.
  pose (w' := (ProcessMessage test_env (PInv []) test_now (pop_message (test_msg (PInv [])) [] w)).2).
  destruct (failed_message_is_logged test_env w w' (test_msg (PInv [])) [] 0) as (Hstep & _ & _).
  - reflexivity.
  - vm_compute. reflexivity.
  - reflexivity.
  - reflexivity.
  - reflexivity.
  - reflexivity.
  - vm_compute. reflexivity.
  - rewrite Hstep. vm_compute. auto.
Defined.

(** The loop gives up its fOk only on a message with a wrong start. *)
Lemma ProcessMessages_loop_false (env : Env) (queue : list CNetMessage) (k : Z) (w : World) :
  (ProcessMessages_loop env queue k w).1 = PMRet false ->
  exists msg, In msg queue /\
    memcmp_eq MESSAGE_START_SIZE (pchMessageStart msg) (GetMagic env) = false.
Proof.
  revert k w. induction queue as [| msg rest IH]; intros k w; cbn [ProcessMessages_loop].
  - destruct (fDisconnect (node w) || negb (nSendSize (node w) <? SendBufferSize env));
      cbn; discriminate.
  - destruct (fDisconnect (node w) || negb (nSendSize (node w) <? SendBufferSize env));
      [cbn; discriminate |].
    destruct (msg_complete msg); cbn [negb]; [| cbn; discriminate].
    destruct (memcmp_eq MESSAGE_START_SIZE (pchMessageStart msg) (GetMagic env)) eqn:Hmagic;
      cbn [negb].
    + assert (Hrest : forall k' w', (ProcessMessages_loop env rest k' w').1 = PMRet false ->
                exists m, In m (msg :: rest) /\
                  memcmp_eq MESSAGE_START_SIZE (pchMessageStart m) (GetMagic env) = false).
      { intros k' w' H. destruct (IH k' w' H) as (m & Hin & Hm).
        exists m. split; [right; exact Hin | exact Hm]. }
      destruct (hdr_IsValid msg); cbn [negb]; [| apply Hrest].
      destruct (vRecv_checksum msg =? hdr_nChecksum msg)%N; cbn [negb]; [| apply Hrest].
      destruct (ProcessMessage env (msg_payload msg) (msg_nTime msg) (pop_message msg rest w))
        as [[[] | what | | | |] w1]; cbn [after_ProcessMessage];
        try (destruct (2000 <? k + 1); [cbn; discriminate | apply Hrest]);
        try (cbn; discriminate).
    + intros _. exists msg. split; [left; reflexivity | exact Hmagic].
Qed.

(** ** FinalizeNode *)

Lemma elem_of_GetBlocksInFlight (r : CRequestManager) (p : NodeId) (h : uint256) :
  h ∈ GetBlocksInFlight r p <-> is_Some (mapBlocksInFlight r !! (h, p)).
Proof.
  unfold GetBlocksInFlight. rewrite list_elem_of_fmap. split.
  - intros ([[h' q] v] & Hh & Hin). cbn in Hh. subst h'.
    apply list_elem_of_filter in Hin as [Hq Hin]. cbn in Hq. subst q.
    apply elem_of_map_to_list in Hin. rewrite Hin. eauto.
  - intros [v Hv]. exists ((h, p), v). split; [reflexivity |].
    apply list_elem_of_filter. split; [reflexivity |].
    apply elem_of_map_to_list. exact Hv.
Qed.

(** The loop over vBlocksInFlight touches the request manager only. *)
Lemma foldl_finalize_block (p : NodeId) (l : list uint256) (w : World) :
  let w' := foldl (finalize_block p) w l in
  nodestate w' = nodestate w /\
  nPreferredDownload w' = nPreferredDownload w /\
  nSyncStarted w' = nSyncStarted w /\
  mapBlocksInFlight (requester w')
  = foldl (fun m h => delete (h, p) m) (mapBlocksInFlight (requester w)) l /\
  mapBlkInfo (requester w')
  = foldl (fun m h => alter (fun _ => 0) h m) (mapBlkInfo (requester w)) l.
Proof.
  revert w. induction l as [| h l IH]; intros w; cbn [foldl].
  - auto.
  - destruct (IH (finalize_block p w h)) as (H1 & H2 & H3 & H4 & H5).
    cbn zeta. rewrite H1, H2, H3, H4, H5. auto.
Qed.

Lemma lookup_foldl_delete (p : NodeId) (l : list uint256)
    (m : gmap (uint256 * NodeId) (Z * nat)) (h : uint256) :
  h ∈ l -> foldl (fun m h => delete (h, p) m) m l !! (h, p) = None.
Proof.
  revert m. induction l as [| x l IH]; intros m Hin; cbn [foldl].
  - inversion Hin.
  - destruct (decide (h ∈ l)) as [Hl | Hl]; [apply IH; exact Hl |].
    apply elem_of_cons in Hin as [-> | Hin]; [| contradiction].
    clear IH Hl. generalize (delete (x, p) m) (lookup_delete_eq m (x, p)).
    induction l as [| y l IH]; intros m' Hm'; cbn [foldl]; [exact Hm' |].
    apply IH. destruct (decide ((y, p) = (x, p))) as [-> | Hne].
    + apply lookup_delete_eq.
    + rewrite lookup_delete_ne by exact Hne. exact Hm'.
Qed.

Lemma lookup_foldl_delete_None (p : NodeId) (l : list uint256)
    (m : gmap (uint256 * NodeId) (Z * nat)) (k : uint256 * NodeId) :
  m !! k = None -> foldl (fun m h => delete (h, p) m) m l !! k = None.
Proof.
  revert m. induction l as [| x l IH]; intros m Hm; cbn [foldl]; [exact Hm |].
  apply IH. destruct (decide ((x, p) = k)) as [<- | Hne].
  - apply lookup_delete_eq.
  - rewrite lookup_delete_ne by exact Hne. exact Hm.
Qed.

Lemma lookup_foldl_reset (l : list uint256) (m : gmap uint256 Z) (h : uint256) :
  h ∈ l ->
  foldl (fun m h => alter (fun _ => 0) h m) m l !! h = (fun _ => 0) <$> m !! h.
Proof.
  assert (Hkeep : forall l (m : gmap uint256 Z),
             (exists v : option Z, m !! h = (fun _ : Z => 0) <$> v) ->
             foldl (fun m h => alter (fun _ => 0) h m) m l !! h = m !! h).
  { clear. induction l as [| y l IH]; intros m [v Hv]; cbn [foldl]; [reflexivity |].
    rewrite IH.
    - destruct (decide (y = h)) as [-> | Hne].
      + rewrite lookup_alter_eq, Hv. destruct v; reflexivity.
      + apply lookup_alter_ne. exact Hne.
    - destruct (decide (y = h)) as [-> | Hne].
      + exists v. rewrite lookup_alter_eq, Hv. destruct v; reflexivity.
      + exists v. rewrite lookup_alter_ne by exact Hne. exact Hv. }
  revert m. induction l as [| x l IH]; intros m Hin; cbn [foldl].
  - inversion Hin.
  - destruct (decide (x = h)) as [-> | Hne].
    + rewrite Hkeep.
      * apply lookup_alter_eq.
      * exists (m !! h). apply lookup_alter_eq.
    + apply elem_of_cons in Hin as [-> | Hin]; [contradiction |].
      rewrite IH by exact Hin. rewrite lookup_alter_ne by exact Hne. reflexivity.
Qed.

(** C2: after FinalizeNode(p) for a peer p that has a node state, no row
    of the in-flight map names p; for every block that was in flight from
    p the last-request time is back at zero; and when p was the last peer
    the in-flight map is empty and the preferred-download counter is 0. *)
Theorem FinalizeNode_flushes (w : World) (p : NodeId) (state : CNodeState) :
  nodestate w !! p = Some state ->
  let w' := FinalizeNode p w in
  (forall h, mapBlocksInFlight (requester w') !! (h, p) = None) /\
  (forall h, is_Some (mapBlocksInFlight (requester w) !! (h, p)) ->
             mapBlkInfo (requester w') !! h = (fun _ => 0) <$> mapBlkInfo (requester w) !! h) /\
  ((forall q, q <> p -> nodestate w !! q = None) ->
   nodestate w' = ∅ /\
   mapBlocksInFlight (requester w') = ∅ /\
   nPreferredDownload w' = 0).
Proof.
  intros Hstate. unfold FinalizeNode. rewrite Hstate.
  set (w1 := if fSyncStarted state then set_nSyncStarted (nSyncStarted w - 1) w else w).
  assert (Hr1 : requester w1 = requester w) by (subst w1; destruct (fSyncStarted state); reflexivity).
  assert (Hn1 : nodestate w1 = nodestate w) by (subst w1; destruct (fSyncStarted state); reflexivity).
  set (l := GetBlocksInFlight (requester w1) p).
  destruct (foldl_finalize_block p l w1) as (Hn2 & _ & _ & Hfl & Hinfo).
  set (w2 := foldl (finalize_block p) w1 l) in *.
  assert (Hrows : forall h, mapBlocksInFlight (requester w2) !! (h, p) = None).
  { intros h. rewrite Hfl.
    destruct (mapBlocksInFlight (requester w1) !! (h, p)) eqn:E.
    - apply lookup_foldl_delete. apply elem_of_GetBlocksInFlight. rewrite E. eauto.
    - apply lookup_foldl_delete_None. exact E. }
  assert (Htimes : forall h, is_Some (mapBlocksInFlight (requester w) !! (h, p)) ->
             mapBlkInfo (requester w2) !! h = (fun _ => 0) <$> mapBlkInfo (requester w) !! h).
  { intros h Hh. rewrite Hinfo, Hr1. apply lookup_foldl_reset.
    apply elem_of_GetBlocksInFlight. rewrite Hr1. exact Hh. }
  assert (Hlast : (forall q, q <> p -> nodestate w !! q = None) ->
                  delete p (nodestate w) = ∅).
  { intros Hall. apply map_eq. intros q.
    rewrite lookup_empty. destruct (decide (q = p)) as [-> | Hne].
    - apply lookup_delete_eq.
    - rewrite lookup_delete_ne by congruence. apply Hall. exact Hne. }
  cbv zeta. unfold MapBlocksInFlightEmpty, requester_RemoveNodeState, MapBlocksInFlightClear.
  repeat match goal with
         | |- context [if ?c then _ else _] => destruct c eqn:?
         end;
    repeat match goal with
           | H : bool_decide _ = true |- _ => apply bool_decide_eq_true in H
           | H : bool_decide _ = false |- _ => apply bool_decide_eq_false in H
           | H : (_ =? _) = true |- _ => apply Z.eqb_eq in H
           end;
    cbn in *;
    (split; [intros h; first [apply Hrows | apply lookup_empty] |]);
    (split; [exact Htimes |]);
    intros Hall; rewrite ?Hn2, ?Hn1 in *;
    first [ exfalso; auto; fail | auto ].
Qed.

Lemma FinalizeNode_flushes_witness :
  nodestate finalize_world !! 7 = Some test_state /\
  (let w' := FinalizeNode 7 finalize_world in
   (forall h, mapBlocksInFlight (requester w') !! (h, 7) = None) /\
   mapBlkInfo (requester w') !! 500%N = Some 0 /\
   mapBlkInfo (requester w') !! 501%N = Some 0 /\
   mapBlocksInFlight (requester w') !! (500%N, 8) = Some (test_now, 0%nat)) /\
  (let w' := FinalizeNode 7 last_peer_world in
   nodestate w' = ∅ /\
   mapBlocksInFlight (requester w') = ∅ /\
   nPreferredDownload w' = 0).
Proof.
  split; [reflexivity |]. split.
  - destruct (FinalizeNode_flushes finalize_world 7 test_state eq_refl) as (Hrows & Htimes & _).
    split; [exact Hrows |].
    split; [rewrite Htimes; [reflexivity | vm_compute; eauto] |].
    split; [rewrite Htimes; [reflexivity | vm_compute; eauto] |].
    vm_compute. reflexivity.
  - destruct (FinalizeNode_flushes last_peer_world 7 test_state eq_refl) as (_ & _ & Hlast).
    apply Hlast. intros q Hq. apply lookup_singleton_ne. congruence.
Defined.

(** ** What a computation adds to the trace *)

Section Emits.

Context (mbi : gmap uint256 CBlockIndex) (P : Event -> Prop).

#[local] Abbreviation emits := (emits mbi P).

Lemma emits_ret {A} (a : A) (Q : A -> Prop) : Q a -> emits (ret a) Q.
Proof.
  intros Ha w Hw. cbn. split; [exists []; split; [reflexivity | constructor] |].
  split; [exact Hw |]. intros a' [= <-]. exact Ha.
Qed.

Lemma emits_return {A} (b : bool) (Q : A -> Prop) : emits (return_ b) Q.
Proof.
  intros w Hw. cbn. split; [exists []; split; [reflexivity | constructor] |].
  split; [exact Hw |]. intros a' [=].
Qed.

Lemma emits_crash {A} (Q : A -> Prop) : emits crash Q.
Proof.
  intros w Hw. cbn. split; [exists []; split; [reflexivity | constructor] |].
  split; [exact Hw |]. intros a' [=].
Qed.

Lemma emits_bind {A B} (m : M A) (k : A -> M B) (Q1 : A -> Prop) (Q2 : B -> Prop) :
  emits m Q1 -> (forall a, Q1 a -> emits (k a) Q2) -> emits (bind m k) Q2.
Proof.
  intros Hm Hk w Hw. unfold bind.
  destruct (Hm w Hw) as ((new1 & Ht1 & HP1) & Hi1 & HQ1).
  destruct (m w) as [[a | b |] w1]; cbn in *.
  - destruct (Hk a (HQ1 a eq_refl) w1 Hi1) as ((new2 & Ht2 & HP2) & Hi2 & HQ2).
    split; [| split; assumption].
    exists (new2 ++ new1). split.
    + rewrite Ht2, Ht1. apply app_assoc.
    + apply Forall_app. split; assumption.
  - split; [exists new1; split; assumption |]. split; [exact Hi1 |]. intros b' [=].
  - split; [exists new1; split; assumption |]. split; [exact Hi1 |]. intros b' [=].
Qed.

Lemma emits_weaken {A} (m : M A) (Q1 Q2 : A -> Prop) :
  emits m Q1 -> (forall a, Q1 a -> Q2 a) -> emits m Q2.
Proof.
  intros Hm HQ w Hw. destruct (Hm w Hw) as (Ht & Hi & Ha).
  split; [exact Ht |]. split; [exact Hi |]. intros a E. apply HQ, Ha, E.
Qed.

Lemma emits_get : emits get (fun w => mapBlockIndex w = mbi).
Proof.
  intros w Hw. cbn. split; [exists []; split; [reflexivity | constructor] |].
  split; [exact Hw |]. intros a [= <-]. exact Hw.
Qed.

Lemma emits_pfrom : emits pfrom (fun _ => True).
Proof.
  intros w Hw. cbn. split; [exists []; split; [reflexivity | constructor] |].
  split; [exact Hw |]. auto.
Qed.

Lemma emits_modify_node (f : CNode -> CNode) : emits (modify_node f) (fun _ => True).
Proof.
  intros w Hw. cbn. split; [exists []; split; [reflexivity | constructor] |].
  split; [exact Hw |]. auto.
Qed.

Lemma emits_emit (e : Event) : P e -> emits (emit e) (fun _ => True).
Proof.
  intros He w Hw. cbn. split; [exists [e]; split; [reflexivity | repeat constructor; exact He] |].
  split; [exact Hw |]. auto.
Qed.

Lemma emits_when (c : bool) (m : M unit) :
  (c = true -> emits m (fun _ => True)) -> emits (when c m) (fun _ => True).
Proof.
  intros Hm. unfold when. destruct c; [apply Hm; reflexivity | apply emits_ret; exact I].
Qed.

Lemma emits_seq {A B} (m : M A) (k : M B) (Q : B -> Prop) :
  emits m (fun _ => True) -> emits k Q -> emits (bind m (fun _ => k)) Q.
Proof. intros Hm Hk. eapply emits_bind; [exact Hm | intros _ _; exact Hk]. Qed.

End Emits.

(** ** ProcessGetData *)

Lemma recent_and_valid_true (env : Env) (mi : CBlockIndex) :
  recent_and_valid env mi = true ->
  IsValid_SCRIPTS env mi = true /\
  exists best,
    pindexBestHeader env = Some best /\
    idx_GetBlockTime best - idx_GetBlockTime mi < nOneMonth /\
    GetBlockProofEquivalentTime env best mi best < nOneMonth.
Proof.
  unfold recent_and_valid. intros H.
  apply andb_true_iff in H as [Hvalid H]. split; [exact Hvalid |].
  destruct (pindexBestHeader env) as [best |]; [| discriminate].
  apply andb_true_iff in H as [Ht Hw]. exists best.
  split; [reflexivity |]. split; apply Z.ltb_lt; assumption.
Qed.

Section GetData.

Context (env : Env) (mbi : gmap uint256 CBlockIndex) (Q : Event -> Prop).

#[local] Abbreviation P := (serve_needs Q).

Ltac quiet := intros Hserve; discriminate Hserve.

Lemma emits_LOG (fmt : string) (args : list LogArg) : emits mbi P (LOG fmt args) (fun _ => True).
Proof. apply emits_emit. quiet. Qed.

Lemma emits_PushMessage (m : OutMsg) :
  (forall to, P (EvPushMessage to m)) -> emits mbi P (PushMessage env m) (fun _ => True).
Proof.
  intros Hm. unfold PushMessage.
  eapply emits_bind; [apply emits_pfrom | intros n _].
  apply emits_seq; [apply emits_emit, Hm | apply emits_modify_node].
Qed.

Lemma emits_getdata_fSend (inv : CInv) :
  emits mbi P (getdata_fSend env inv) (fun b => b = true -> may_serve env mbi inv).
Proof.
  unfold getdata_fSend.
  eapply emits_bind; [apply emits_get | intros w Hw].
  eapply emits_bind; [apply emits_pfrom | intros n _].
  rewrite Hw. destruct (mbi !! hash inv) as [mi |] eqn:Hmi.
  - destruct (chainActive_Contains env mi) eqn:Hchain.
    + apply emits_ret. intros _. exists mi. auto.
    + destruct (recent_and_valid env mi) eqn:Hrecent; cbn [negb].
      * destruct (N.land (nStatus mi) (BLOCK_EXCESSIVE env) =? 0)%N eqn:Hex; cbn [negb].
        -- apply emits_ret. intros _. exists mi. split; [exact Hmi |]. right.
           apply recent_and_valid_true in Hrecent as [Hv Hb].
           apply N.eqb_eq in Hex. auto.
        -- apply emits_seq; [apply emits_LOG | apply emits_ret; discriminate].
      * apply emits_seq; [apply emits_LOG | apply emits_ret; discriminate].
  - apply emits_ret. discriminate.
Qed.

Lemma emits_getdata_limit (inv : CInv) (mi : option CBlockIndex) (fSend : bool) :
  emits mbi P (getdata_limit env inv mi fSend) (fun b => b = true -> fSend = true).
Proof.
  unfold getdata_limit.
  eapply emits_bind; [apply emits_pfrom | intros n _].
  destruct mi as [mi |]; [| apply emits_ret; auto].
  match goal with |- context [if ?c then _ else _] => destruct c end.
  - apply emits_seq; [apply emits_LOG |].
    apply emits_seq; [apply emits_modify_node | apply emits_ret; discriminate].
  - apply emits_ret. auto.
Qed.

Lemma emits_push_matched (block : CBlock) (matched : list (nat * uint256)) :
  emits mbi P (push_matched env block matched) (fun _ => True).
Proof.
  induction matched as [| p rest IH]; cbn [push_matched].
  - apply emits_ret. exact I.
  - apply emits_seq; [apply emits_modify_node |].
    destruct (vtx block !! p.1); [| apply emits_crash].
    apply emits_seq; [apply emits_PushMessage; intros to; quiet | exact IH].
Qed.

(** Once read from disk, the block goes out in events that carry it. *)
Lemma emits_getdata_send_block (inv : CInv) (block : CBlock) :
  (forall e, carries env block e -> Q e) ->
  emits mbi P (getdata_send_block env inv block) (fun _ => True).
Proof.
  intros HQ. unfold getdata_send_block.
  apply emits_seq.
  - destruct (type inv =? MSG_BLOCK env).
    + apply emits_seq; [apply emits_modify_node |].
      apply emits_PushMessage. intros to _. apply HQ. reflexivity.
    + destruct (type inv =? MSG_THINBLOCK env).
      * apply emits_seq; [apply emits_LOG |].
        eapply emits_bind; [apply emits_pfrom | intros n _].
        apply emits_emit. intros _. apply HQ. reflexivity.
      * eapply emits_bind; [apply emits_pfrom | intros n _].
        destruct (pfilter n) as [f |]; [| apply emits_ret; exact I].
        destruct (MakeMerkleBlock env block f) as [merkleBlock f'] eqn:Hmb.
        apply emits_seq; [apply emits_modify_node |].
        apply emits_seq.
        { apply emits_PushMessage. intros to _. apply HQ. exists f. rewrite Hmb. reflexivity. }
        apply emits_seq; [apply emits_modify_node | apply emits_push_matched].
  - eapply emits_bind; [apply emits_pfrom | intros n _].
    apply emits_when. intros _.
    apply emits_seq; [apply emits_PushMessage; intros to; quiet | apply emits_modify_node].
Qed.

Lemma emits_getdata_block (inv : CInv) :
  (forall mi block e,
     mbi !! hash inv = Some mi ->
     N.land (nStatus mi) (BLOCK_HAVE_DATA env) <> 0%N ->
     ReadBlockFromDisk env mi = Some block ->
     may_serve env mbi inv ->
     carries env block e -> Q e) ->
  emits mbi P (getdata_block env inv) (fun _ => True).
Proof.
  intros HQ. unfold getdata_block.
  eapply emits_bind; [apply emits_get | intros w Hw].
  eapply emits_bind; [apply emits_getdata_fSend | intros fSend0 H0].
  eapply emits_bind; [apply emits_getdata_limit | intros fSend H1].
  rewrite Hw. destruct (mbi !! hash inv) as [mi |] eqn:Hmi; [| apply emits_ret; exact I].
  apply emits_when. intros Hsend. apply andb_true_iff in Hsend as [Hsend Hdata].
  apply negb_true_iff, N.eqb_neq in Hdata.
  destruct (ReadBlockFromDisk env mi) as [block |] eqn:Hread; [| apply emits_LOG].
  apply emits_getdata_send_block. intros e He.
  apply (HQ mi block e); auto.
Qed.

Lemma emits_getdata_tx (inv : CInv) :
  emits mbi P (getdata_tx env inv) (fun _ => True).
Proof.
  unfold getdata_tx.
  eapply emits_bind with (Q1 := fun _ => True).
  - destruct (mapRelay env inv).
    + apply emits_seq; [apply emits_PushMessage; intros to; quiet |].
      apply emits_seq; [apply emits_modify_node | apply emits_ret; exact I].
    + apply emits_ret. exact I.
  - intros fPushed _. eapply emits_bind with (Q1 := fun _ => True).
    + destruct (negb fPushed && (type inv =? MSG_TX env)); [| apply emits_ret; exact I].
      destruct (match CommitQGet env (hash inv) with
                | Some ptx => Some ptx
                | None => mempool_get env (hash inv)
                end).
      * apply emits_seq; [apply emits_PushMessage; intros to; quiet |].
        apply emits_seq; [apply emits_modify_node | apply emits_ret; exact I].
      * apply emits_ret. exact I.
    + intros fPushed' _. apply emits_ret. exact I.
Qed.

Lemma emits_getdata_loop (vInv : list CInv) (gotWorkDone : bool) (vNotFound : list CInv) :
  (forall inv mi block e,
     In inv vInv -> is_block_class env inv = true ->
     mbi !! hash inv = Some mi ->
     N.land (nStatus mi) (BLOCK_HAVE_DATA env) <> 0%N ->
     ReadBlockFromDisk env mi = Some block ->
     may_serve env mbi inv ->
     carries env block e -> Q e) ->
  emits mbi P (getdata_loop env vInv gotWorkDone vNotFound) (fun _ => True).
Proof.
  revert gotWorkDone vNotFound.
  induction vInv as [| inv rest IH]; intros gotWorkDone vNotFound HQ; cbn [getdata_loop].
  - apply emits_ret. exact I.
  - eapply emits_bind; [apply emits_pfrom | intros n _].
    destruct (SendBufferSize env <=? nSendSize n); [apply emits_ret; exact I |].
    destruct (is_block_class env inv) eqn:Hclass.
    + apply emits_seq.
      * apply emits_getdata_block. intros mi block e. apply HQ; [left; reflexivity | exact Hclass].
      * apply emits_seq; [apply emits_emit; quiet | apply emits_ret; exact I].
    + eapply emits_bind with (Q1 := fun _ => True).
      * destruct (IsKnownType env inv); [apply emits_getdata_tx | apply emits_ret; exact I].
      * intros nf _. apply emits_seq; [apply emits_emit; quiet |].
        apply IH. intros inv' mi block e Hin. apply HQ. right. exact Hin.
Qed.

Lemma emits_ProcessGetData (vInv : list CInv) :
  (forall inv mi block e,
     In inv vInv -> is_block_class env inv = true ->
     mbi !! hash inv = Some mi ->
     N.land (nStatus mi) (BLOCK_HAVE_DATA env) <> 0%N ->
     ReadBlockFromDisk env mi = Some block ->
     may_serve env mbi inv ->
     carries env block e -> Q e) ->
  emits mbi P (ProcessGetData env vInv) (fun _ => True).
Proof.
  intros HQ. unfold ProcessGetData.
  eapply emits_bind; [apply emits_getdata_loop; exact HQ | intros [[rest g] nf] _].
  apply emits_seq; [| apply emits_ret; exact I].
  apply emits_when. intros _. apply emits_PushMessage. intros to. quiet.
Qed.

End GetData.

(** C4: whatever ProcessGetData adds to the trace, every event by which a
    block goes out (as block, merkleblock or thin block) carries the
    block stored for a block-class item of the request, and the block of
    that very item is on the active chain, or is valid and within one
    month of the best header both by block time and by equivalent
    proof-of-work time; it is never marked excessive while off the active
    chain. *)
Theorem getdata_serves_only_eligible_blocks (env : Env) (w : World) (vInv : list CInv) :
  let w' := (ProcessGetData env vInv w).2 in
  exists new,
    trace w' = new ++ trace w /\
    forall e, In e new -> is_block_serve e = true ->
      exists inv mi block,
        In inv vInv /\ is_block_class env inv = true /\
        mapBlockIndex w !! hash inv = Some mi /\
        ReadBlockFromDisk env mi = Some block /\
        carries env block e /\
        (chainActive_Contains env mi = true \/
         (IsValid_SCRIPTS env mi = true /\
          exists best,
            pindexBestHeader env = Some best /\
            idx_GetBlockTime best - idx_GetBlockTime mi < nOneMonth /\
            GetBlockProofEquivalentTime env best mi best < nOneMonth)) /\
        ~ (N.land (nStatus mi) (BLOCK_EXCESSIVE env) <> 0%N /\
           chainActive_Contains env mi = false).
Proof.
  intros w'. subst w'.
  set (Q := fun e : Event => exists inv mi block,
        In inv vInv /\ is_block_class env inv = true /\
        mapBlockIndex w !! hash inv = Some mi /\
        ReadBlockFromDisk env mi = Some block /\
        carries env block e /\
        (chainActive_Contains env mi = true \/
         (IsValid_SCRIPTS env mi = true /\
          exists best,
            pindexBestHeader env = Some best /\
            idx_GetBlockTime best - idx_GetBlockTime mi < nOneMonth /\
            GetBlockProofEquivalentTime env best mi best < nOneMonth)) /\
        ~ (N.land (nStatus mi) (BLOCK_EXCESSIVE env) <> 0%N /\
           chainActive_Contains env mi = false)).
  destruct (emits_ProcessGetData env (mapBlockIndex w) Q vInv) with (w := w)
    as ((new & Htrace & Hnew) & _).
  - intros inv mi block e Hin Hclass Hmi _ Hread (mi' & Hmi' & Hok) He.
    rewrite Hmi in Hmi'. injection Hmi' as <-.
    exists inv, mi, block.
    repeat split; try assumption.
    + destruct Hok as [Hchain | (Hv & Hb & _)]; [left; exact Hchain | right; auto].
    + intros [Hex Hoff]. destruct Hok as [Hchain | (_ & _ & Hz)]; congruence.
  - reflexivity.
  - exists new. split; [exact Htrace |].
    intros e He Hserve. rewrite Forall_forall in Hnew.
    apply (Hnew e); [apply list_elem_of_In; exact He | exact Hserve].
Qed.

(** The block at the tip of the active chain is served. *)
Example getdata_serves_chain_block :
  filter is_block_serve
    (trace (ProcessGetData test_env [{| type := MSG_BLOCK test_env; hash := 100%N |}] test_world).2)
  = [EvPushMessage 7
       (MBLOCK {| blk_header := test_header 0 100 test_now 1; vtx := [] |})].
Proof. vm_compute. reflexivity. Qed.

(** A recent, valid block off the active chain is served, unless it is
    marked excessive. *)
Example getdata_serves_side_block :
  filter is_block_serve
    (trace (ProcessGetData test_env [{| type := MSG_BLOCK test_env; hash := 200%N |}]
              (side_block_world 0)).2)
  = [EvPushMessage 7
       (MBLOCK {| blk_header := test_header 0 200 test_now 1; vtx := [] |})]
  /\
  filter is_block_serve
    (trace (ProcessGetData test_env [{| type := MSG_BLOCK test_env; hash := 200%N |}]
              (side_block_world 128)).2)
  = [].
Proof. vm_compute. auto. Qed.

(** ** headers: the continuity walk *)




(** One turn of the walk, case by case. *)
Lemma headers_walk_step_spec (env : Env) (st : bool * uint256) (header : CBlockHeader)
    (w : World) :
  headers_walk_step env st header w
  = if out_of_order (mapBlockIndex w) st.2 header then
      if too_old env header then
        (Return false,
         log_event "non-continuous-headers sequence during node sync - disconnecting peer=%s"
           [LNum (id (node w))] (set_node (set_fDisconnect true (node w)) w))
      else (Normal (true, GetHash env header), cache_and_announce env w header)
    else if st.1 then (Normal (true, GetHash env header), cache_and_announce env w header)
    else (Normal (false, GetHash env header), w).
Proof.
  unfold headers_walk_step, out_of_order, expected_prev, too_old. monad_unfold. cbv beta zeta.
  destruct st as [fNew last]. cbn [fst snd].
  set (expected := if (last =? 0)%N then _ else _).
  destruct (hashPrevBlock header =? expected)%N; cbn [negb].
  - destruct fNew.
    + unfold cache_and_announce.
      destruct (size (mapUnConnectedHeaders w) <? MAX_UNCONNECTED_HEADERS env)%nat; reflexivity.
    + destruct w; reflexivity.
  - destruct (GetBlockTime header <? GetAdjustedTime env - 24 * 60 * 60).
    + reflexivity.
    + unfold cache_and_announce.
      destruct (size (mapUnConnectedHeaders w) <? MAX_UNCONNECTED_HEADERS env)%nat; reflexivity.
Qed.





Lemma size_insert_le (m : gmap uint256 (CBlockHeader * Z)) (k : uint256) (v : CBlockHeader * Z) :
  (size (<[k := v]> m) <= S (size m))%nat.
Proof.
  destruct (m !! k) eqn:E.
  - rewrite map_size_insert_Some by eauto. lia.
  - rewrite map_size_insert_None by exact E. lia.
Qed.


Lemma run_bind {A} (m : M A) (k : A -> M unit) (w : World) :
  run (bind m k) w
  = match m w with
    | (Normal a, w') => run (k a) w'
    | (Return b, w') => (HRet b, w')
    | (Crash, w') => (HCrash, w')
    end.
Proof. unfold run, bind. destruct (m w) as [[a | b |] w']; reflexivity. Qed.





(** With room for one entry only, the first of two unconnected headers is
    cached and the second is left out. *)
Example unconnected_headers_one_slot :
  let env := with_MAX_UNCONNECTED_HEADERS 1%nat test_env in
  let r := run (ProcessHeaders env (header_chain 556 2)) test_world in
  r.1 = HRet true /\
  map fst (map_to_list (mapUnConnectedHeaders r.2)) = [556%N].
Proof. vm_compute. split; reflexivity. Qed.

(** ** headers: the follow-up getheaders (main.cpp 1761-1775) *)

Lemma set_trace_idem (t1 t2 : list Event) (w : World) :
  set_trace t1 (set_trace t2 w) = set_trace t1 w.
Proof. reflexivity. Qed.

(** The requests to the other nodes only add to the trace. *)
Lemma headers_broadcast_spec (env : Env) (last : CBlockIndex) (w : World) :
  exists new, headers_broadcast env last w = (Normal tt, set_trace (new ++ trace w) w).
Proof.
  unfold headers_broadcast. generalize (vNodes env) as l.
  intros l. revert w. induction l as [| pnode l IH]; intros w; cbn [for_each].
  - exists []. unfold ret. destruct w; reflexivity.
  - assert (Hbody : exists new1,
               forall k : unit -> M unit,
                 bind (bind get (fun w0 =>
                   when (negb pnode.2 && negb (pnode.1 =? id (node w0)))
                     match nodestate w0 !! id (node w0) with
                     | Some state =>
                         when match pindexBestKnownBlock state with
                              | Some known => (nChainWork known <? nChainWork last)%N
                              | None => true
                              end
                           (bind (emit (EvPushMessage pnode.1
                                          (MGETHEADERS {| vHave := [] |} (GetBlockHash last))))
                              (fun _ =>
                                 LOG "Requesting header for blockavailability, peer=%s block=%s height=%d"
                                   [LNum pnode.1; LNum (Z.of_N (GetBlockHash last));
                                    LNum match pindexBestHeader env with
                                         | Some b => nHeight b
                                         | None => 0
                                         end]))
                     | None => ret tt
                     end)) k w
                 = k tt (set_trace (new1 ++ trace w) w)).
    { monad_unfold. cbv beta.
      destruct (negb pnode.2 && negb (pnode.1 =? id (node w))).
      - destruct (nodestate w !! id (node w)) as [state |].
        + destruct (match pindexBestKnownBlock state with
                    | Some known => (nChainWork known <? nChainWork last)%N
                    | None => true
                    end).
          * eexists [_; _]. intros k. reflexivity.
          * exists []. intros k. destruct w; reflexivity.
        + exists []. intros k. destruct w; reflexivity.
      - exists []. intros k. destruct w; reflexivity. }
    destruct Hbody as [new1 Hbody]. rewrite Hbody.
    destruct (IH (set_trace (new1 ++ trace w) w)) as [new2 Hrest].
    rewrite Hrest. exists (new2 ++ new1). cbn [trace set_trace].
    rewrite set_trace_idem, app_assoc. reflexivity.
Qed.

(** The test of main.cpp 1761 with both conditions met: the getheaders
    from the new tail goes to the peer and its sync-start time is set to
    the current time; the requests of main.cpp 1781-1820 may follow. *)
Lemma headers_more_full (env : Env) (last : CBlockIndex) (w : World) :
  exists new,
    headers_more env MAX_HEADERS_RESULTS (Some last) w
    = (Normal tt,
       set_trace
         (new ++ EvPushMessage (id (node w))
                   (MGETHEADERS (chainActive_GetLocator env (Some last)) 0%N)
              :: EvLog "more getheaders (%d) to end to peer=%s (startheight:%d)"
                   [LNum (nHeight last); LNum (id (node w)); LNum (nStartingHeight (node w))]
              :: trace w)
         (set_nodestate
            match nodestate w !! id (node w) with
            | Some state =>
                <[id (node w) := set_nSyncStartTime (GetTime env) state]> (nodestate w)
            | None => nodestate w
            end
            (set_node
               (set_nSendSize
                  (SendSizeAfterPush env (nSendSize (node w))
                     (MGETHEADERS (chainActive_GetLocator env (Some last)) 0%N))
                  (node w)) w))).
Proof.
  unfold headers_more. rewrite Z.eqb_refl. unfold when at 1.
  unfold reset_sync_start_time. monad_unfold. monad_unfold. cbv beta iota zeta.
  cbn [node set_trace set_node trace].
  destruct (IsInitialBlockDownload env).
  - match goal with |- context [headers_broadcast env last ?w1] =>
      destruct (headers_broadcast_spec env last w1) as [new Hb]; rewrite Hb
    end.
    exists new. cbn [id node set_node set_trace set_nSendSize nodestate trace].
    destruct (nodestate w !! id (node w)); reflexivity.
  - exists []. cbn [id node set_node set_trace set_nSendSize nodestate trace app].
    destruct (nodestate w !! id (node w)); [reflexivity |]. destruct w; reflexivity.
Qed.

(** With any other count, or without pindexLast, nothing is sent. *)
Lemma headers_more_short (env : Env) (nCount : Z) (pindexLast : option CBlockIndex) (w : World) :
  nCount <> MAX_HEADERS_RESULTS \/ pindexLast = None ->
  headers_more env nCount pindexLast w = (Normal tt, w).
Proof.
  intros H. unfold headers_more. destruct pindexLast as [last |]; [| reflexivity].
  destruct H as [H | H]; [| discriminate H].
  apply Z.eqb_neq in H. rewrite H. reflexivity.
Qed.

(** A message of 2000 headers that are all accepted gets the follow-up. *)
Lemma headers_2000_follow_up :
  let r := run (ProcessHeaders test_env (header_chain 101 2000)) test_world in
  r.1 = HRet true /\
  filter is_getheaders (trace r.2)
  = [EvPushMessage 7 (MGETHEADERS {| vHave := [2100%N] |} 0%N)] /\
  nSyncStartTime <$> nodestate r.2 !! 7 = Some (GetTime test_env).
Proof. vm_compute. auto. Qed.

(** A message of 1999 headers gets none while the cache is empty. *)
Lemma headers_1999_no_follow_up :
  let r := run (ProcessHeaders test_env (header_chain 101 1999)) test_world in
  r.1 = HRet true /\
  filter is_getheaders (trace r.2) = [] /\
  nSyncStartTime <$> nodestate r.2 !! 7 = nSyncStartTime <$> nodestate test_world !! 7.
Proof. vm_compute. auto. Qed.

(** C5, the code at the failing input: a message of 1999 headers that
    connect to the index, while the cache holds header 2100, which
    connects to the last of them, and its child 2101, which
    AcceptBlockHeader refuses.  The list grows to 2001 headers, acceptance
    stops at index 2000, nCount becomes 2000 and the follow-up getheaders
    is sent and the sync-start time reset, although the message had 1999
    entries. *)
Theorem headers_1999_follow_up :
  let headers := header_chain 101 1999 in
  let r := run (ProcessHeaders test_env headers) cached_world in
  length headers = 1999%nat /\
  r.1 = HRet true /\
  filter is_getheaders (trace r.2)
  = [EvPushMessage 7 (MGETHEADERS {| vHave := [2100%N] |} 0%N)] /\
  nSyncStartTime <$> nodestate r.2 !! 7 = Some (GetTime test_env).
Proof. vm_compute. auto. Qed.

(** ** headers: the scan of the unconnected-header cache terminates *)

Lemma scan_pass_size (env : Env) (headers : list CBlockHeader) :
  forall (entries : list (uint256 * (CBlockHeader * Z))) (m : gmap uint256 (CBlockHeader * Z)),
    NoDup entries.*1 ->
    (forall k, k ∈ entries.*1 -> is_Some (m !! k)) ->
    (size (scan_pass env headers entries m).2 <= size m)%nat /\
    (is_Some (scan_pass env headers entries m).1 ->
     (size (scan_pass env headers entries m).2 < size m)%nat).
Proof.
  induction entries as [| [k [hdr t]] rest IH]; intros m Hnd Hin; cbn [scan_pass].
  - cbn. split; [lia | intros [? [=]]].
  - cbn [fmap list_fmap fst] in Hnd, Hin. apply NoDup_cons in Hnd as [Hk Hnd].
    assert (Hpresent : is_Some (m !! k)) by (apply Hin; left).
    assert (Hdel : size (delete k m) = pred (size m)).
    { destruct Hpresent as [v Hv]. apply map_size_delete_Some. eauto. }
    assert (Hpos : (0 < size m)%nat).
    { destruct Hpresent as [v Hv]. destruct (size m) eqn:E; [| lia].
      apply map_size_empty_inv in E. subst m. rewrite lookup_empty in Hv. discriminate. }
    assert (Hrest : forall k', k' ∈ rest.*1 -> is_Some (delete k m !! k')).
    { intros k' Hk'. rewrite lookup_delete_ne by (intros ->; contradiction).
      apply Hin. right. exact Hk'. }
    destruct (back_hash env headers =? hashPrevBlock hdr)%N.
    + cbn. split; [lia | intros _; lia].
    + destruct (UNCONNECTED_HEADERS_TIMEOUT env <=? GetTime env - t).
      * destruct (IH (delete k m) Hnd Hrest) as [Hle Hlt]. split; [lia |].
        intros Hs. specialize (Hlt Hs). lia.
      * destruct (existsb (fun header => (GetHash env header =? k)%N) headers).
        -- destruct (IH (delete k m) Hnd Hrest) as [Hle Hlt]. split; [lia |].
           intros Hs. specialize (Hlt Hs). lia.
        -- apply IH; [exact Hnd |]. intros k' Hk'. apply Hin. right. exact Hk'.
Qed.

Lemma unconnected_entries_keys (m : gmap uint256 (CBlockHeader * Z)) :
  NoDup (unconnected_entries m).*1 /\
  forall k, k ∈ (unconnected_entries m).*1 -> is_Some (m !! k).
Proof.
  assert (Hperm : unconnected_entries m ≡ₚ map_to_list m).
  { unfold unconnected_entries. apply merge_sort_Permutation. }
  split.
  - rewrite Hperm. apply NoDup_fst_map_to_list.
  - intros k Hk. rewrite Hperm in Hk.
    apply list_elem_of_fmap in Hk as ([k' v] & -> & Hkv).
    apply elem_of_map_to_list in Hkv. cbn. rewrite Hkv. eauto.
Qed.

(** The entries come in increasing order of their keys. *)
Lemma unconnected_entries_sorted (m : gmap uint256 (CBlockHeader * Z)) :
  Sorted key_le (unconnected_entries m).
Proof.
  unfold unconnected_entries. apply Sorted_merge_sort.
  intros a b. unfold key_le. lia.
Qed.

(** More turns than the cache has entries change nothing: the loop of
    main.cpp 1691-1729 has ended by then. *)
Lemma connect_unconnected_fuel (env : Env) :
  forall (fuel1 fuel2 : nat) (headers : list CBlockHeader)
         (m : gmap uint256 (CBlockHeader * Z)),
    (size m < fuel1)%nat -> (size m < fuel2)%nat ->
    connect_unconnected env fuel1 headers m = connect_unconnected env fuel2 headers m.
Proof.
  induction fuel1 as [| fuel1 IH]; intros fuel2 headers m H1 H2; [lia |].
  destruct fuel2 as [| fuel2]; [lia |]. cbn [connect_unconnected].
  destruct (unconnected_entries_keys m) as [Hnd Hin].
  destruct (scan_pass_size env headers (unconnected_entries m) m Hnd Hin) as [_ Hlt].
  destruct (scan_pass env headers (unconnected_entries m) m) as [[hdr |] m']; [| reflexivity].
  cbn [fst snd] in Hlt. assert (size m' < size m)%nat by (apply Hlt; eauto).
  apply IH; lia.
Qed.

(** ** version: the other ways out of the branch (main.cpp 1018-1148) *)

(** A version message from a peer whose version is already known. *)
Lemma ProcessVersion_duplicate (env : Env) (w : World) (v : VersionMsg) :
  nVersion (node w) <> 0 ->
  ProcessVersion env v w
  = (HRet false,
     set_trace
       (EvLog "Duplicate version message received - disconnecting peer=%s version=%s"
          [LNum (id (node w)); LStr (cleanSubVer (node w))]
        :: EvPushMessage (id (node w))
             (MREJECT "version" REJECT_DUPLICATE "Duplicate version message")
        :: trace w)
       (set_node
          (set_fDisconnect true
             (set_nSendSize
                (SendSizeAfterPush env (nSendSize (node w))
                   (MREJECT "version" REJECT_DUPLICATE "Duplicate version message"))
                (node w))) w)).
Proof.
  intros Hdup. unfold ProcessVersion, version_head. monad_unfold. cbv beta zeta.
  apply Z.eqb_neq in Hdup. rewrite Hdup. reflexivity.
Qed.

(** The loop of ProcessMessages does nothing for a peer that is marked
    for disconnection or whose send buffer is full. *)
Lemma ProcessMessages_loop_stop (env : Env) (queue : list CNetMessage) (k : Z) (w : World) :
  fDisconnect (node w) || negb (nSendSize (node w) <? SendBufferSize env) = true ->
  ProcessMessages_loop env queue k w = (PMRet true, w).
Proof.
  intros H. destruct queue; cbn [ProcessMessages_loop]; rewrite H; reflexivity.
Qed.

(** What the loop does with a well-framed message at the head of the
    queue, in terms of the outcome of ProcessMessage. *)
Lemma ProcessMessages_loop_step (env : Env) (msg : CNetMessage) (rest : list CNetMessage)
    (k : Z) (w : World) :
  fDisconnect (node w) = false ->
  nSendSize (node w) < SendBufferSize env ->
  msg_complete msg = true ->
  memcmp_eq MESSAGE_START_SIZE (pchMessageStart msg) (GetMagic env) = true ->
  hdr_IsValid msg = true ->
  vRecv_checksum msg = hdr_nChecksum msg ->
  ProcessMessages_loop env (msg :: rest) k w
  = let r := ProcessMessage env (msg_payload msg) (msg_nTime msg) (pop_message msg rest w) in
    match after_ProcessMessage env msg r with
    | Some w' =>
        if 2000 <? k + 1 then (PMRet true, w')
        else ProcessMessages_loop env rest (k + 1) w'
    | None =>
        match r with
        | (HInterrupted, w') => (PMInterrupted, w')
        | (_, w') => (PMCrash, w')
        end
    end.
Proof.
  intros Hdis Hsend Hcomplete Hmagic Hvalid Hsum.
  cbn [ProcessMessages_loop].
  rewrite Hdis. apply Z.ltb_lt in Hsend. rewrite Hsend. cbn [negb orb].
  rewrite Hcomplete, Hmagic, Hvalid, Hsum, N.eqb_refl. cbn [negb]. reflexivity.
Qed.

(** X1: a second version message ends the peer's turn.  When a
    well-framed version message reaches the head of the queue of a peer
    whose version is already known, the peer is sent a reject with code
    REJECT_DUPLICATE and is marked for disconnection, its recorded version
    stays, and ProcessMessages returns true with every message behind it
    still in the queue. *)
Theorem duplicate_version_ends_turn (env : Env) (w : World) (msg : CNetMessage)
    (rest : list CNetMessage) (k : Z) (v : VersionMsg) :
  fDisconnect (node w) = false ->
  nSendSize (node w) < SendBufferSize env ->
  msg_complete msg = true ->
  memcmp_eq MESSAGE_START_SIZE (pchMessageStart msg) (GetMagic env) = true ->
  hdr_IsValid msg = true ->
  vRecv_checksum msg = hdr_nChecksum msg ->
  msg_payload msg = PVersion v ->
  fDropMessagesTest env = false ->
  nVersion (node w) <> 0 ->
  let r := ProcessMessages_loop env (msg :: rest) k w in
  r.1 = PMRet true /\
  fDisconnect (node r.2) = true /\
  nVersion (node r.2) = nVersion (node w) /\
  vRecvMsg (node r.2) = rest /\
  In (EvPushMessage (id (node w))
        (MREJECT "version" REJECT_DUPLICATE "Duplicate version message")) (trace r.2).
Proof.
  intros Hdis Hsend Hcomplete Hmagic Hvalid Hsum Hpayload Hdrop Hdup r. subst r.
  rewrite ProcessMessages_loop_step by assumption.
  rewrite Hpayload. cbv zeta.
  rewrite ProcessMessage_dispatch;
    [| exact Hdrop | right; reflexivity | left; reflexivity].
  cbn [dispatch]. rewrite ProcessVersion_duplicate by exact Hdup.
  cbn [after_ProcessMessage].
  destruct (2000 <? k + 1).
  - cbn. repeat split; auto 6.
  - rewrite ProcessMessages_loop_stop by reflexivity.
    cbn. repeat split; auto 6.
Qed.

Lemma duplicate_version_ends_turn_witness :
  let second := test_msg (PVersion (test_version 80003 5%N)) in
  let w := set_node (set_vRecvMsg [second; test_msg (PPong [])] test_node) test_world in
  let r := ProcessMessages_loop test_env (vRecvMsg (node w)) 0 w in
  r.1 = PMRet true /\
  fDisconnect (node r.2) = true /\
  nVersion (node r.2) = 80003 /\
  vRecvMsg (node r.2) = [test_msg (PPong [])].
Proof.
  intros second w r.
  destruct (duplicate_version_ends_turn test_env w second [test_msg (PPong [])] 0
              (test_version 80003 5%N))
    as (H1 & H2 & H3 & H4 & _);
    try reflexivity; try (vm_compute; congruence).
  repeat split; assumption.
Defined.

(** X2: a first version message below MIN_PEER_PROTO_VERSION is answered
    with a reject of code REJECT_OBSOLETE and 100 misbehaviour points, and
    the branch returns false.  The branch itself does not mark the peer
    for disconnection, and the obsolete version and the services stay
    recorded on the peer. *)
Theorem version_obsolete (env : Env) (w : World) (v : VersionMsg) :
  nVersion (node w) = 0 ->
  vm_nVersion v < MIN_PEER_PROTO_VERSION env ->
  let r := ProcessVersion env v w in
  r.1 = HRet false /\
  trace r.2
  = EvLog "Using obsolete protocol version %i - banning peer=%s version=%s"
      [LNum (vm_nVersion v); LNum (id (node w)); LStr (cleanSubVer (node w))]
    :: EvMisbehaving (id (node w)) 100
    :: EvPushMessage (id (node w))
         (MREJECT "version" REJECT_OBSOLETE "Protocol Version must be %d or greater")
    :: trace w /\
  fDisconnect (node r.2) = fDisconnect (node w) /\
  nVersion (node r.2) = vm_nVersion v /\
  nServices (node r.2) = vm_nServices v.
Proof.
  intros Hfirst Hold r. subst r.
  unfold ProcessVersion, version_head. monad_unfold. cbv beta zeta.
  rewrite Hfirst. cbn [Z.eqb negb].
  apply Z.ltb_lt in Hold. rewrite Hold. cbn. auto.
Qed.

Lemma version_obsolete_witness :
  let r := ProcessVersion test_env (test_version 209 5%N) fresh_world in
  r.1 = HRet false /\
  In (EvMisbehaving 7 100) (trace r.2) /\
  fDisconnect (node r.2) = false /\
  nVersion (node r.2) = 209.
Proof.
  intros r.
  destruct (version_obsolete test_env fresh_world (test_version 209 5%N))
    as (H1 & H2 & H3 & H4 & _); [reflexivity | reflexivity |].
  split; [exact H1 |]. split; [| split; [exact H3 | exact H4]].
  fold r in H2 |- *. rewrite H2. right. left. reflexivity.
Defined.




(** A version message with a user agent over the limit: the branch
    throws, ProcessMessages answers with a reject of code
    REJECT_MALFORMED and goes on; the peer stays connected with the
    version of the message stored and no verack sent. *)
Example version_long_user_agent :
  let r := ProcessMessages_loop test_env
             [test_msg (PVersion (test_version_long_agent 80003 5%N))] 0 fresh_world in
  r.1 = PMRet true /\
  fDisconnect (node r.2) = false /\
  nVersion (node r.2) = 80003 /\
  fVerackSent (node r.2) = false /\
  List.filter (fun e => match e with EvPushMessage _ _ => true | _ => false end) (trace r.2)
  = [EvPushMessage 7 (MREJECT "version" REJECT_MALFORMED "error parsing message")].
Proof. vm_compute. repeat split; reflexivity. Qed.

(** ** ProcessMessage: the gates ahead of the dispatch (main.cpp 994-1015, 1216-1234) *)

(** X4: on a node that does not advertise NODE_BLOOM, a filterload,
    filteradd or filterclear never reaches its branch: ProcessMessage
    returns false and the peer's filter is as before.  A peer whose
    version is at least NO_BLOOM_VERSION earns 100 points and is not
    marked for disconnection by this code; an older peer is marked for
    disconnection and earns no points. *)
Theorem bloom_commands_refused (env : Env) (p : Payload) (nTimeReceived : Z) (w : World) :
  fDropMessagesTest env = false ->
  N.land (nLocalServices env) (NODE_BLOOM env) = 0%N ->
  is_filter_command (strCommand_of p) = true ->
  let r := ProcessMessage env p nTimeReceived w in
  let received :=
    [EvLog "received: %s (%u bytes) peer=%s"
       [LStr (SanitizeString env (strCommand_of p)); LNum (id (node w))];
     EvUpdateRecvStats (id (node w)) (strCommand_of p) nTimeReceived;
     EvRandAddSeedPerfmon] in
  r.1 = HRet false /\
  pfilter (node r.2) = pfilter (node w) /\
  (NO_BLOOM_VERSION env <= nVersion (node w) ->
   node r.2 = node w /\
   trace r.2 = EvMisbehaving (id (node w)) 100 :: received ++ trace w) /\
  (nVersion (node w) < NO_BLOOM_VERSION env ->
   node r.2 = set_fDisconnect true (node w) /\
   trace r.2
   = EvLog "Inconsistent bloom filter settings peer %s" [LNum (id (node w))]
     :: received ++ trace w).
Proof.
  intros Hdrop Hbloom Hcmd r received. subst r received.
  unfold ProcessMessage. rewrite Hdrop, Hbloom, Hcmd. cbn [N.eqb andb].
  destruct (NO_BLOOM_VERSION env <=? nVersion (node w)) eqn:E.
  - apply Z.leb_le in E. monad_unfold. cbn.
    repeat split; auto; intros; lia.
  - apply Z.leb_gt in E. monad_unfold. cbn.
    repeat split; auto; intros; lia.
Qed.

Lemma bloom_commands_refused_witness :
  let r := ProcessMessage no_bloom_env (PFilterAdd [Byte.x01]) test_now test_world in
  r.1 = HRet false /\
  pfilter (node r.2) = None /\
  In (EvMisbehaving 7 100) (trace r.2).
Proof.
  intros r.
  destruct (bloom_commands_refused no_bloom_env (PFilterAdd [Byte.x01]) test_now test_world)
    as (H1 & H2 & Hnew & _); [reflexivity | reflexivity | reflexivity |].
  destruct Hnew as [_ Ht]; [vm_compute; discriminate |].
  split; [exact H1 |]. split; [exact H2 |].
  fold r in Ht. rewrite Ht. left. reflexivity.
Defined.

(** X5: a peer that has not answered our version with verack within
    VERACK_TIMEOUT seconds gets none of its messages handled, version and
    verack apart: ProcessMessage marks it for disconnection, records an
    eviction against its address and returns true; block index, header
    cache, node states and request manager are untouched. *)
Theorem verack_timeout_gate (env : Env) (p : Payload) (nTimeReceived : Z) (w : World) :
  fDropMessagesTest env = false ->
  (N.land (nLocalServices env) (NODE_BLOOM env) <> 0%N \/
   is_filter_command (strCommand_of p) = false) ->
  is_version p = false ->
  strCommand_of p <> "version" ->
  strCommand_of p <> "verack" ->
  fSuccessfullyConnected (node w) = false ->
  0 <= tVersionSent (node w) ->
  VERACK_TIMEOUT env < GetTime env - tVersionSent (node w) ->
  ProcessMessage env p nTimeReceived w
  = (HRet true,
     set_trace
       (EvConnectionTrackerEviction (addr (node w)) (GetTime env)
        :: EvLog "ERROR: disconnecting - VERACK not received within %d seconds for peer=%s version=%s"
             [LNum (VERACK_TIMEOUT env); LNum (id (node w)); LStr (cleanSubVer (node w))]
        :: EvLog "received: %s (%u bytes) peer=%s"
             [LStr (SanitizeString env (strCommand_of p)); LNum (id (node w))]
        :: EvUpdateRecvStats (id (node w)) (strCommand_of p) nTimeReceived
        :: EvRandAddSeedPerfmon :: trace w)
       (set_node (set_fDisconnect true (node w)) w)).
Proof.
  intros Hdrop Hbloom Hv Hc1 Hc2 Hconn Hsent Hlate.
  unfold ProcessMessage. rewrite Hdrop.
  assert (Hgate : (N.land (nLocalServices env) (NODE_BLOOM env) =? 0)%N
                  && is_filter_command (strCommand_of p) = false).
  { apply andb_false_iff. destruct Hbloom as [H | H].
    - left. apply N.eqb_neq. exact H.
    - right. exact H. }
  rewrite Hgate, Hv.
  apply String.eqb_neq in Hc1, Hc2. rewrite Hc1, Hc2. cbn [orb].
  unfold verack_timed_out. rewrite Hconn.
  apply Z.ltb_lt in Hlate. apply Z.leb_le in Hsent. rewrite Hlate, Hsent. cbn [negb andb].
  unfold verack_timeout. monad_unfold. reflexivity.
Qed.

Lemma verack_timeout_gate_witness :
  let r := ProcessMessage test_env (PInv []) test_now silent_peer_world in
  r.1 = HRet true /\
  fDisconnect (node r.2) = true /\
  In (EvConnectionTrackerEviction (addr test_node) test_now) (trace r.2).
Proof.
  intros r. subst r.
  rewrite (verack_timeout_gate test_env (PInv []) test_now silent_peer_world);
    try reflexivity; try (vm_compute; congruence).
  - split; [reflexivity |]. split; [reflexivity |]. left. reflexivity.
  - right. reflexivity.
Defined.

(** ** ProcessMessages: the checks on the frame (main.cpp 2470-2505) *)

(** X6: a complete message whose start bytes are not the magic of the
    network ends the loop with fOk false.  The message is taken off the
    queue and accounted for, the messages behind it stay queued, and the
    address of the peer is banned for four hours unless the peer is
    whitelisted; no other call is made beside the log line. *)
Theorem bad_message_start_bans (env : Env) (w : World) (msg : CNetMessage)
    (rest : list CNetMessage) (k : Z) :
  fDisconnect (node w) = false ->
  nSendSize (node w) < SendBufferSize env ->
  msg_complete msg = true ->
  memcmp_eq MESSAGE_START_SIZE (pchMessageStart msg) (GetMagic env) = false ->
  let r := ProcessMessages_loop env (msg :: rest) k w in
  let line :=
    EvLog "PROCESSMESSAGE: INVALID MESSAGESTART %s peer=%s"
      [LStr (SanitizeString env (strCommand_of (msg_payload msg))); LNum (id (node w))] in
  r.1 = PMRet false /\
  vRecvMsg (node r.2) = rest /\
  currentRecvMsgSize (node r.2) = currentRecvMsgSize (node w) - msg_size msg /\
  same_shared_state w r.2 /\
  trace r.2
  = (if fWhitelisted (node w) then [line]
     else [EvBan (addr (node w)) (4 * 60 * 60); line]) ++ trace w.
Proof.
  intros Hdis Hsend Hcomplete Hmagic r line. subst r line.
  cbn [ProcessMessages_loop].
  rewrite Hdis. apply Z.ltb_lt in Hsend. rewrite Hsend. cbn [negb orb].
  rewrite Hcomplete, Hmagic. cbn [negb].
  unfold same_shared_state.
  destruct (fWhitelisted (node w)) eqn:Hw; cbn; rewrite Hw; cbn; auto 10.
Qed.

Lemma bad_message_start_bans_witness :
  let msg := test_msg_with_start [Byte.xf9; Byte.xbe; Byte.xb4; Byte.xd9] (PPong []) in
  let r := ProcessMessages_loop test_env [msg; test_msg (PPong [])] 0 test_world in
  r.1 = PMRet false /\
  vRecvMsg (node r.2) = [test_msg (PPong [])] /\
  In (EvBan (addr test_node) 14400) (trace r.2).
Proof.
  intros msg r.
  destruct (bad_message_start_bans test_env test_world msg [test_msg (PPong [])] 0)
    as (H1 & H2 & _ & _ & H5); try reflexivity.
  split; [exact H1 |]. split; [exact H2 |].
  fold r in H5. rewrite H5. left. reflexivity.
Defined.

Lemma ProcessMessages_loop_stop_empty (env : Env) (k : Z) (w : World) :
  ProcessMessages_loop env [] k w = (PMRet true, w).
Proof.
  cbn [ProcessMessages_loop].
  destruct (fDisconnect (node w) || negb (nSendSize (node w) <? SendBufferSize env));
    reflexivity.
Qed.

(** A queue of messages with an invalid header or a wrong checksum is
    worked off in one call. *)
Lemma corrupt_queue_emptied (env : Env) (queue : list CNetMessage) (k : Z)
    (w : World) :
  fDisconnect (node w) = false ->
  nSendSize (node w) < SendBufferSize env ->
  Forall (corrupt env) queue ->
  let r := ProcessMessages_loop env queue k w in
  r.1 = PMRet true /\
  fDisconnect (node r.2) = false /\
  nSendSize (node r.2) = nSendSize (node w) /\
  (queue <> [] -> vRecvMsg (node r.2) = []) /\
  currentRecvMsgSize (node r.2)
  = currentRecvMsgSize (node w) - foldr (fun msg s => msg_size msg + s) 0 queue /\
  same_shared_state w r.2 /\
  exists new,
    trace r.2 = new ++ trace w /\ length new = length queue /\ Forall is_log new.
Proof.
  intros Hdis Hsend Hall. revert k w Hdis Hsend.
  induction Hall as [| msg rest (Hcomplete & Hmagic & Hbad) _ IH];
    intros k w Hdis Hsend r; subst r.
  - rewrite ProcessMessages_loop_stop_empty. cbn.
    unfold same_shared_state. repeat split; auto; try lia; try congruence.
    exists []. auto.
  - cbn [ProcessMessages_loop].
    rewrite Hdis. pose proof Hsend as Hsend'. apply Z.ltb_lt in Hsend'.
    rewrite Hsend'. cbn [negb orb].
    rewrite Hcomplete, Hmagic. cbn [negb].
    assert (Hskip : forall line,
              let w1 := log_event line.1 line.2 (pop_message msg rest w) in
              let r := ProcessMessages_loop env rest (k + 1) w1 in
              r.1 = PMRet true /\
              fDisconnect (node r.2) = false /\
              nSendSize (node r.2) = nSendSize (node w) /\
              (msg :: rest <> [] -> vRecvMsg (node r.2) = []) /\
              currentRecvMsgSize (node r.2)
              = currentRecvMsgSize (node w)
                - foldr (fun msg s => msg_size msg + s) 0 (msg :: rest) /\
              same_shared_state w r.2 /\
              exists new,
                trace r.2 = new ++ trace w /\ length new = length (msg :: rest) /\
                Forall is_log new).
    { intros line w1 r.
      destruct (IH (k + 1) w1) as (H1 & H2 & H3 & H4 & H5 & H6 & new & H7 & H8 & H9);
        [exact Hdis | exact Hsend |].
      fold r in H1, H2, H3, H4, H5, H6, H7.
      split; [exact H1 |]. split; [exact H2 |]. split; [exact H3 |].
      split.
      { intros _. destruct rest as [| m rest'].
        - subst r. rewrite ProcessMessages_loop_stop_empty. reflexivity.
        - apply H4. discriminate. }
      split; [rewrite H5; cbn; lia |].
      split; [exact H6 |].
      exists (new ++ [EvLog line.1 line.2]). split; [| split].
      - rewrite H7. cbn. rewrite <- app_assoc. reflexivity.
      - rewrite length_app, H8. cbn. lia.
      - apply Forall_app. split; [exact H9 | repeat constructor]. }
    destruct (hdr_IsValid msg) eqn:Hvalid; cbn [negb].
    + destruct Hbad as [Hbad | Hbad]; [discriminate Hbad |].
      apply N.eqb_neq in Hbad. rewrite Hbad. cbn [negb].
      apply (Hskip (_, _)).
    + apply (Hskip (_, _)).
Qed.

(** Behind messages with an invalid header or a wrong checksum the loop
    goes on with its counter advanced by their number. *)
Lemma corrupt_prefix_counted (env : Env) (queue : list CNetMessage) :
  Forall (corrupt env) queue ->
  forall (rest : list CNetMessage) (k : Z) (w : World),
    fDisconnect (node w) = false ->
    nSendSize (node w) < SendBufferSize env ->
    exists w1 new,
      ProcessMessages_loop env (queue ++ rest) k w
      = ProcessMessages_loop env rest (k + Z.of_nat (length queue)) w1 /\
      fDisconnect (node w1) = false /\
      nSendSize (node w1) = nSendSize (node w) /\
      vRecvMsg (node w1) = match queue with [] => vRecvMsg (node w) | _ => rest end /\
      same_shared_state w w1 /\
      trace w1 = new ++ trace w /\ length new = length queue /\ Forall is_log new.
Proof.
  induction 1 as [| msg queue (Hcomplete & Hmagic & Hbad) _ IH]; intros rest k w Hdis Hsend.
  - exists w, []. cbn [app length]. rewrite Z.add_0_r.
    unfold same_shared_state. repeat split; auto.
  - cbn [app ProcessMessages_loop].
    rewrite Hdis. pose proof Hsend as Hsend'. apply Z.ltb_lt in Hsend'.
    rewrite Hsend'. cbn [negb orb].
    rewrite Hcomplete, Hmagic. cbn [negb].
    assert (Hskip : forall line,
              let w0 := log_event line.1 line.2 (pop_message msg (queue ++ rest) w) in
              exists w1 new,
                ProcessMessages_loop env (queue ++ rest) (k + 1) w0
                = ProcessMessages_loop env rest (k + Z.of_nat (length (msg :: queue))) w1 /\
                fDisconnect (node w1) = false /\
                nSendSize (node w1) = nSendSize (node w) /\
                vRecvMsg (node w1) = rest /\
                same_shared_state w w1 /\
                trace w1 = new ++ trace w /\ length new = length (msg :: queue) /\
                Forall is_log new).
    { intros line w0.
      destruct (IH rest (k + 1) w0) as (w1 & new & H1 & H2 & H3 & H4 & H5 & H6 & H7 & H8);
        [exact Hdis | exact Hsend |].
      exists w1, (new ++ [EvLog line.1 line.2]).
      split.
      { rewrite H1. f_equal. cbn [length]. lia. }
      split; [exact H2 |]. split; [exact H3 |].
      split.
      { rewrite H4. destruct queue; reflexivity. }
      split; [exact H5 |].
      split; [rewrite H6; cbn; rewrite <- app_assoc; reflexivity |].
      split; [rewrite length_app, H7; cbn; lia |].
      apply Forall_app. split; [exact H8 | repeat constructor]. }
    destruct (hdr_IsValid msg) eqn:Hvalid; cbn [negb].
    + destruct Hbad as [Hbad | Hbad]; [discriminate Hbad |].
      apply N.eqb_neq in Hbad. rewrite Hbad. cbn [negb].
      apply (Hskip (_, _)).
    + apply (Hskip (_, _)).
Qed.

(** X7: messages with an invalid header or a wrong checksum are dropped
    one by one without being handed to ProcessMessage, but they are
    counted among the messages processed.  A queue made of such messages
    only is worked off in one call, however long it is, since the limit
    of messages per call is tested only behind the call of
    ProcessMessage: the result is true, each message leaves one log line
    and nothing else in the trace, the peer is not marked for
    disconnection, and the state shared between the peers is untouched.
    With further messages behind them the loop goes on with its counter
    advanced by the number of the dropped messages. *)
Theorem corrupt_messages_are_skipped (env : Env) (queue : list CNetMessage) (k : Z)
    (w : World) :
  fDisconnect (node w) = false ->
  nSendSize (node w) < SendBufferSize env ->
  Forall (corrupt env) queue ->
  let r := ProcessMessages_loop env queue k w in
  (r.1 = PMRet true /\
   fDisconnect (node r.2) = false /\
   nSendSize (node r.2) = nSendSize (node w) /\
   (queue <> [] -> vRecvMsg (node r.2) = []) /\
   currentRecvMsgSize (node r.2)
   = currentRecvMsgSize (node w) - foldr (fun msg s => msg_size msg + s) 0 queue /\
   same_shared_state w r.2 /\
   exists new,
     trace r.2 = new ++ trace w /\ length new = length queue /\ Forall is_log new) /\
  forall rest, exists w1 new,
    ProcessMessages_loop env (queue ++ rest) k w
    = ProcessMessages_loop env rest (k + Z.of_nat (length queue)) w1 /\
    fDisconnect (node w1) = false /\
    nSendSize (node w1) = nSendSize (node w) /\
    (queue <> [] -> vRecvMsg (node w1) = rest) /\
    same_shared_state w w1 /\
    trace w1 = new ++ trace w /\ length new = length queue /\ Forall is_log new.
Proof.
  intros Hdis Hsend Hall r. split.
  - exact (corrupt_queue_emptied env queue k w Hdis Hsend Hall).
  - intros rest.
    destruct (corrupt_prefix_counted env queue Hall rest k w Hdis Hsend)
      as (w1 & new & H1 & H2 & H3 & H4 & H5 & H6 & H7 & H8).
    exists w1, new. repeat split; try assumption; try apply H5.
    intros Hne. rewrite H4. destruct queue; [contradiction | reflexivity].
Qed.

Lemma corrupt_messages_are_skipped_witness :
  let queue := [test_msg_bad_checksum (PInv []); test_msg_bad_checksum (PPong [])] in
  let r := ProcessMessages_loop test_env queue 0 test_world in
  r.1 = PMRet true /\
  fDisconnect (node r.2) = false /\
  vRecvMsg (node r.2) = [] /\
  currentRecvMsgSize (node r.2) = -50 /\
  length (trace r.2) = 2%nat.
Proof.
  intros queue r.
  destruct (corrupt_messages_are_skipped test_env queue 0 test_world)
    as ((H1 & H2 & _ & H4 & H5 & _ & new & H7 & H8 & _) & _).
  - reflexivity.
  - reflexivity.
  - repeat (constructor; [repeat split; try reflexivity; right; discriminate |]).
    constructor.
  - fold r in H1, H2, H4, H5, H7.
    split; [exact H1 |]. split; [exact H2 |].
    split; [apply H4; discriminate |]. split; [exact H5 |].
    rewrite H7, length_app, H8. reflexivity.
Defined.

(** ** pong: the other outcomes (main.cpp 2207-2272) *)

(** A pong for which no ping is outstanding only leaves a log line. *)
Lemma ProcessPong_unsolicited (w : World) (nTimeReceived : Z) (vRecv : list Byte.byte) :
  (8 <= length vRecv)%nat ->
  nPingNonceSent (node w) = 0%N ->
  run (ProcessPong nTimeReceived vRecv) w
  = (HRet true,
     set_trace
       (pong_log (node w) "Unsolicited pong without ping" (ReadLE 8 vRecv) (length vRecv)
        :: trace w) w).
Proof.
  intros Hlen Hnone.
  assert (Hav : (8 <=? length vRecv)%nat = true) by (apply Nat.leb_le; exact Hlen).
  unfold ProcessPong. monad_unfold. cbv beta zeta.
  rewrite Hav. unfold pong_check. rewrite Hav, Hnone. cbn.
  destruct w as [n ? ? ? ? ? ? ?]. cbn. destruct n; reflexivity.
Qed.

(** X8: a pong with fewer than 8 bytes cancels the outstanding ping
    whatever nonce was sent: the nonce is cleared, "Short payload" is
    logged with a received nonce of zero, no round-trip time is recorded,
    and the branch returns true. *)
Theorem pong_short_payload (w : World) (nTimeReceived : Z) (vRecv : list Byte.byte) :
  (length vRecv < 8)%nat ->
  let r := run (ProcessPong nTimeReceived vRecv) w in
  r.1 = HRet true /\
  node r.2 = set_nPingNonceSent 0%N (node w) /\
  trace r.2 = pong_log (node w) "Short payload" 0%N (length vRecv) :: trace w /\
  same_shared_state w r.2.
Proof.
  intros Hlen r. subst r.
  assert (Hav : (8 <=? length vRecv)%nat = false) by (apply Nat.leb_gt; exact Hlen).
  unfold ProcessPong. monad_unfold. cbv beta zeta.
  rewrite Hav. unfold pong_check. rewrite Hav. cbn.
  unfold same_shared_state. cbn. auto 10.
Qed.

Lemma pong_short_payload_witness :
  let r := run (ProcessPong 2000400 [Byte.x07]) (pong_world 7 2000000 55) in
  r.1 = HRet true /\
  nPingNonceSent (node r.2) = 0%N /\
  nPingUsecTime (node r.2) = 55.
Proof.
  intros r.
  destruct (pong_short_payload (pong_world 7 2000000 55) 2000400 [Byte.x07])
    as (H1 & H2 & _); [vm_compute; lia |].
  fold r in H1, H2. rewrite H2. split; [exact H1 |]. split; reflexivity.
Defined.

(** A pong that carries the outstanding nonce clears it. *)
Lemma ProcessPong_match_clears (w : World) (nTimeReceived : Z) (vRecv : list Byte.byte) :
  (8 <= length vRecv)%nat ->
  nPingNonceSent (node w) <> 0%N ->
  ReadLE 8 vRecv = nPingNonceSent (node w) ->
  nPingNonceSent (node (run (ProcessPong nTimeReceived vRecv) w).2) = 0%N.
Proof.
  intros Hlen Hsent Hmatch.
  assert (Hav : (8 <=? length vRecv)%nat = true) by (apply Nat.leb_le; exact Hlen).
  apply N.eqb_neq in Hsent.
  unfold ProcessPong. monad_unfold. cbv beta zeta.
  rewrite Hav. unfold pong_check. rewrite Hav, Hsent, Hmatch, N.eqb_refl. cbn [negb].
  destruct (0 <? nTimeReceived - nPingUsecStart (node w)); reflexivity.
Qed.

(** X9: a duplicate pong is ignored.  When a pong that carries the
    outstanding nonce has been handled and its round-trip time recorded,
    a second pong, whatever its nonce and time stamp, leaves the peer as
    the first left it, ping times included, and adds the log line
    "Unsolicited pong without ping". *)
Theorem pong_duplicate_ignored (w : World) (t1 t2 : Z) (vRecv1 vRecv2 : list Byte.byte) :
  (8 <= length vRecv1)%nat ->
  (8 <= length vRecv2)%nat ->
  nPingNonceSent (node w) <> 0%N ->
  ReadLE 8 vRecv1 = nPingNonceSent (node w) ->
  let w1 := (run (ProcessPong t1 vRecv1) w).2 in
  let r := run (ProcessPong t2 vRecv2) w1 in
  r.1 = HRet true /\
  node r.2 = node w1 /\
  trace r.2
  = pong_log (node w1) "Unsolicited pong without ping" (ReadLE 8 vRecv2) (length vRecv2)
    :: trace w1.
Proof.
  intros Hlen1 Hlen2 Hsent Hmatch w1 r.
  assert (Hclear : nPingNonceSent (node w1) = 0%N).
  { apply ProcessPong_match_clears; assumption. }
  subst r. rewrite ProcessPong_unsolicited by assumption. cbn. auto.
Qed.

Lemma pong_duplicate_ignored_witness :
  let w1 := (run (ProcessPong 2000400 (pong_payload Byte.x07)) (pong_world 7 2000000 55)).2 in
  let r := run (ProcessPong 2000900 (pong_payload Byte.x07)) w1 in
  nPingUsecTime (node w1) = 400 /\
  r.1 = HRet true /\
  nPingUsecTime (node r.2) = 400 /\
  length (trace r.2) = 1%nat.
Proof.
  intros w1 r.
  destruct (pong_duplicate_ignored (pong_world 7 2000000 55) 2000400 2000900
              (pong_payload Byte.x07) (pong_payload Byte.x07))
    as (H1 & H2 & H3); try (vm_compute; lia); try reflexivity; try discriminate.
  fold w1 in H1, H2, H3. fold r in H1, H2, H3.
  split; [reflexivity |]. split; [exact H1 |].
  rewrite H2, H3. split; reflexivity.
Defined.

(** ** The bloom filter commands (main.cpp 2275-2324) *)

(** X10: the element limit of filteradd for a peer with a filter.  An
    element of up to 520 bytes goes into the filter and costs nothing; a
    longer one costs 100 points and leaves the filter alone.  In both
    cases the branch returns true and touches nothing but the filter or
    the trace. *)
Theorem filteradd_element_limit (env : Env) (w : World) (vData : list Byte.byte)
    (f : CBloomFilter) :
  pfilter (node w) = Some f ->
  let r := run (ProcessFilterAdd env vData) w in
  r.1 = HRet true /\
  same_shared_state w r.2 /\
  (Z.of_nat (length vData) <= 520 ->
   node r.2 = set_pfilter (Some (bloom_insert env f vData)) (node w) /\
   trace r.2 = trace w) /\
  (520 < Z.of_nat (length vData) ->
   node r.2 = node w /\
   trace r.2 = EvMisbehaving (id (node w)) 100 :: trace w).
Proof.
  intros Hf r. subst r. unfold ProcessFilterAdd, MAX_SCRIPT_ELEMENT_SIZE, same_shared_state.
  destruct (520 <? Z.of_nat (length vData)) eqn:E.
  - apply Z.ltb_lt in E. monad_unfold. cbn.
    repeat split; auto; intros; lia.
  - apply Z.ltb_ge in E. monad_unfold. cbn. rewrite Hf. cbn.
    repeat split; auto; intros; lia.
Qed.

Lemma filteradd_element_limit_witness :
  let ok := run (ProcessFilterAdd test_env (repeat Byte.x2a 520)) filter_world in
  let big := run (ProcessFilterAdd test_env (repeat Byte.x2a 521)) filter_world in
  trace ok.2 = [] /\
  trace big.2 = [EvMisbehaving 7 100] /\
  pfilter (node big.2) = Some test_filter.
Proof.
  intros ok big.
  destruct (filteradd_element_limit test_env filter_world (repeat Byte.x2a 520) test_filter eq_refl)
    as (_ & _ & Hok & _).
  destruct (filteradd_element_limit test_env filter_world (repeat Byte.x2a 521) test_filter eq_refl)
    as (_ & _ & _ & Hbig).
  destruct Hok as [_ Hok]; [vm_compute; discriminate |].
  destruct Hbig as [Hnode Hbig]; [vm_compute; reflexivity |].
  fold ok in Hok. fold big in Hnode, Hbig.
  split; [exact Hok |]. split; [exact Hbig |]. rewrite Hnode. reflexivity.
Defined.

(** X11: filterload and filterclear leave the peer with a filter, so a
    filteradd that follows is never punished for a missing filter.  After
    a filterload that is within the size constraints the filter is the
    one received, whatever filter was there before; after a filterclear it
    is the default-constructed filter, not the null pointer.  Transaction
    relay is switched on, and a following filteradd of at most 520 bytes
    inserts its element and makes no call. *)
Theorem filter_commands_compose (env : Env) (IsWithinSizeConstraints : CBloomFilter -> bool)
    (default_CBloomFilter filter : CBloomFilter) (vData : list Byte.byte) (w : World) :
  IsWithinSizeConstraints filter = true ->
  Z.of_nat (length vData) <= MAX_SCRIPT_ELEMENT_SIZE ->
  let loaded := run (ProcessFilterLoad IsWithinSizeConstraints filter) w in
  let cleared := run (ProcessFilterClear default_CBloomFilter) w in
  let add1 := run (ProcessFilterAdd env vData) loaded.2 in
  let add2 := run (ProcessFilterAdd env vData) cleared.2 in
  (loaded.1 = HRet true /\
   pfilter (node loaded.2) = Some filter /\
   fRelayTxes (node loaded.2) = true /\
   trace loaded.2 = trace w) /\
  (cleared.1 = HRet true /\
   pfilter (node cleared.2) = Some default_CBloomFilter /\
   fRelayTxes (node cleared.2) = true /\
   trace cleared.2 = trace w) /\
  (add1.1 = HRet true /\
   pfilter (node add1.2) = Some (bloom_insert env filter vData) /\
   trace add1.2 = trace w) /\
  (add2.1 = HRet true /\
   pfilter (node add2.2) = Some (bloom_insert env default_CBloomFilter vData) /\
   trace add2.2 = trace w).
Proof.
  intros Hsize Hlen loaded cleared add1 add2.
  assert (Hl : loaded
               = (HRet true, set_node (set_fRelayTxes true (set_pfilter (Some filter) (node w))) w)).
  { subst loaded. unfold ProcessFilterLoad. rewrite Hsize. reflexivity. }
  assert (Hc : cleared
               = (HRet true,
                  set_node (set_fRelayTxes true (set_pfilter (Some default_CBloomFilter) (node w))) w)).
  { reflexivity. }
  subst add1 add2. rewrite Hl, Hc. cbn [fst snd].
  rewrite (filteradd_with_filter env _ vData filter) by (auto; reflexivity).
  rewrite (filteradd_with_filter env _ vData default_CBloomFilter) by (auto; reflexivity).
  cbn. auto 20.
Qed.

Lemma filter_commands_compose_witness :
  let cleared := run (ProcessFilterClear test_default_filter) test_world in
  let add := run (ProcessFilterAdd test_env [Byte.x01; Byte.x02]) cleared.2 in
  pfilter (node test_world) = None /\
  add.1 = HRet true /\
  pfilter (node add.2) = Some (bloom_insert test_env test_default_filter [Byte.x01; Byte.x02]) /\
  trace add.2 = [].
Proof.
  intros cleared add. split; [reflexivity |].
  destruct (filter_commands_compose test_env (fun _ => true) test_default_filter test_filter
              [Byte.x01; Byte.x02] test_world)
    as (_ & _ & _ & H); [reflexivity | vm_compute; discriminate |].
  exact H.
Defined.

(** ** inv: the entries (main.cpp 1346-1422) *)

Section EmitsMore.

Context (env : Env) (mbi : gmap uint256 CBlockIndex) (P : Event -> Prop).

Lemma emits_LOG_gen (fmt : string) (args : list LogArg) :
  P (EvLog fmt args) -> emits mbi P (LOG fmt args) (fun _ => True).
Proof. intros H. apply emits_emit. exact H. Qed.

Lemma emits_Misbehaving_gen (howmuch : Z) :
  (forall nodeid, P (EvMisbehaving nodeid howmuch)) ->
  emits mbi P (Misbehaving howmuch) (fun _ => True).
Proof.
  intros H. unfold Misbehaving.
  eapply emits_bind; [apply emits_pfrom | intros n _]. apply emits_emit, H.
Qed.

Lemma emits_PushMessage_gen (m : OutMsg) :
  (forall to, P (EvPushMessage to m)) -> emits mbi P (PushMessage env m) (fun _ => True).
Proof.
  intros Hm. unfold PushMessage.
  eapply emits_bind; [apply emits_pfrom | intros n _].
  apply emits_seq; [apply emits_emit, Hm | apply emits_modify_node].
Qed.

Lemma emits_return_error_gen {A} (fmt : string) (args : list LogArg) (Q : A -> Prop) :
  P (EvLog fmt args) -> emits mbi P (return_error fmt args) Q.
Proof.
  intros H. unfold return_error.
  apply emits_seq; [apply emits_LOG_gen, H | apply emits_return].
Qed.

Lemma emits_for_each {A} (l : list A) (body : A -> M unit) :
  (forall x, In x l -> emits mbi P (body x) (fun _ => True)) ->
  emits mbi P (for_each l body) (fun _ => True).
Proof.
  induction l as [| x l IH]; intros Hbody; cbn [for_each].
  - apply emits_ret. exact I.
  - apply emits_seq.
    + apply Hbody. left. reflexivity.
    + apply IH. intros y Hy. apply Hbody. right. exact Hy.
Qed.

End EmitsMore.

Lemma run_snd (m : M unit) (w : World) : (run m w).2 = (m w).2.
Proof. unfold run. destruct (m w) as [[[] | b |] w']; reflexivity. Qed.

(** One entry of an inv adds an AskFor only when it is justified. *)
Lemma emits_inv_entry (env : Env) (mbi : gmap uint256 CBlockIndex) (fBlocksOnly : bool)
    (vInv : list CInv) (inv : CInv) :
  In inv vInv ->
  emits mbi (ask_for_justified env fBlocksOnly vInv) (inv_entry env fBlocksOnly inv)
    (fun _ => True).
Proof.
  intros Hin. unfold inv_entry, inv_handle, inv_check_send_size.
  apply emits_seq.
  - destruct (negb ((type inv =? MSG_TX env) || (type inv =? MSG_BLOCK env))
              || (hash inv =? 0)%N) eqn:Hvalid.
    + apply emits_seq; [apply emits_Misbehaving_gen; intros; exact I |].
      apply emits_return_error_gen. exact I.
    + apply orb_false_iff in Hvalid as [Hty _]. apply negb_false_iff in Hty.
      apply emits_seq; [| apply emits_emit; exact I].
      destruct (type inv =? MSG_BLOCK env) eqn:Hblock.
      * eapply emits_bind; [apply emits_get | intros w0 _].
        eapply emits_bind; [apply emits_pfrom | intros n _].
        apply emits_seq; [apply emits_LOG_gen; exact I |].
        apply emits_seq; [apply emits_emit; exact I |].
        match goal with |- emits _ _ (if ?c then _ else _) _ => destruct c end.
        -- apply emits_PushMessage_gen. intros; exact I.
        -- apply emits_LOG_gen. exact I.
      * rewrite orb_false_r in Hty. apply Z.eqb_eq in Hty. apply Z.eqb_neq in Hblock.
        eapply emits_bind; [apply emits_pfrom | intros n _].
        apply emits_seq; [apply emits_LOG_gen; exact I |].
        apply emits_seq; [apply emits_emit; exact I |].
        destruct fBlocksOnly eqn:Hbo.
        -- apply emits_LOG_gen. exact I.
        -- apply emits_when. intros Hc.
           apply andb_true_iff in Hc as [Hhave Hibd].
           apply negb_true_iff in Hhave, Hibd.
           apply emits_emit. cbn. auto 10.
  - eapply emits_bind; [apply emits_pfrom | intros n _].
    apply emits_when. intros _.
    apply emits_seq; [apply emits_Misbehaving_gen; intros; exact I |].
    apply emits_return_error_gen. exact I.
Qed.

(** X12: what the inv branch asks for.  Whatever the message, the block
    index is as before, and every AskFor the branch makes names a
    transaction entry of the message that the node does not have, and is
    made outside initial block download and outside blocks-only mode (a
    whitelisted peer being exempt from that mode when -whitelistrelay is
    on).  A block entry never leads to an AskFor. *)
Theorem inv_asks_only_for_new_transactions (env : Env) (w : World) (vInv : list CInv) :
  let r := run (ProcessInv env vInv) w in
  mapBlockIndex r.2 = mapBlockIndex w /\
  exists new,
    trace r.2 = new ++ trace w /\
    Forall (ask_for_justified env (inv_fBlocksOnly env (node w)) vInv) new.
Proof.
  intros r. subst r. rewrite !run_snd.
  destruct (fImporting env) eqn:Himp.
  { unfold ProcessInv. rewrite Himp. cbn. split; [reflexivity |]. exists []. auto. }
  destruct (fReindex env) eqn:Hre.
  { unfold ProcessInv. rewrite Himp, Hre. cbn. split; [reflexivity |]. exists []. auto. }
  destruct ((MAX_INV_SZ <? Z.of_nat (length vInv)) || (Z.of_nat (length vInv) =? 0)) eqn:Hsize.
  { unfold ProcessInv. rewrite Himp, Hre. cbn [orb]. monad_unfold. cbv beta.
    rewrite Hsize. cbn. split; [reflexivity |].
    eexists [_; _; _]. split; [reflexivity |]. repeat constructor. }
  apply orb_false_iff in Hsize as [Hmax Hzero].
  apply Z.ltb_ge in Hmax. apply Z.eqb_neq in Hzero.
  rewrite ProcessInv_loop by (auto; lia).
  set (w1 := log_event "Received INV list of size %d" [LNum (Z.of_nat (length vInv))] w).
  destruct (emits_for_each (mapBlockIndex w)
              (ask_for_justified env (inv_fBlocksOnly env (node w)) vInv) vInv
              (inv_entry env (inv_fBlocksOnly env (node w)))
              (fun x Hx => emits_inv_entry env _ _ vInv x Hx) w1 eq_refl)
    as ((new & Hnew & Hall) & Hmbi & _).
  split; [exact Hmbi |].
  exists (new ++ [EvLog "Received INV list of size %d" [LNum (Z.of_nat (length vInv))]]).
  split.
  - rewrite Hnew. cbn. rewrite <- app_assoc. reflexivity.
  - apply Forall_app. split; [exact Hall | repeat constructor].
Qed.

Example inv_asks_for_new_transaction :
  In (EvAskFor {| type := 1; hash := 21%N |} 7)
    (trace (run (ProcessInv test_env [{| type := 1; hash := 21%N |}]) test_world).2).
Proof. vm_compute. tauto. Qed.

(** X13: an entry whose type is neither MSG_TX nor MSG_BLOCK, or whose
    hash is null, ends the message: the peer earns 20 points, the branch
    returns false, and the entries behind it are not looked at.  The
    entries before it have been handled by then. *)
Theorem inv_invalid_entry (env : Env) (w w1 : World) (pre rest : list CInv) (inv : CInv) :
  let vInv := pre ++ inv :: rest in
  fImporting env = false ->
  fReindex env = false ->
  Z.of_nat (length vInv) <= MAX_INV_SZ ->
  for_each pre (inv_entry env (inv_fBlocksOnly env (node w)))
    (log_event "Received INV list of size %d" [LNum (Z.of_nat (length vInv))] w)
  = (Normal tt, w1) ->
  (type inv <> MSG_TX env /\ type inv <> MSG_BLOCK env) \/ hash inv = 0%N ->
  run (ProcessInv env vInv) w
  = (HRet false,
     set_trace
       (EvLog "message inv invalid type = %u or is null hash %s"
          [LNum (type inv); LNum (Z.of_N (hash inv))]
        :: EvMisbehaving (id (node w1)) 20 :: trace w1) w1).
Proof.
  intros vInv Himp Hre Hmax Hpre Hbad. unfold vInv in *. clear vInv.
  unfold run. rewrite ProcessInv_loop; try assumption.
  - rewrite for_each_app, Hpre. cbn [for_each].
    unfold inv_entry at 1. unfold bind at 1. unfold bind at 1. unfold inv_handle.
    assert (E : negb ((type inv =? MSG_TX env) || (type inv =? MSG_BLOCK env))
                || (hash inv =? 0)%N = true).
    { apply orb_true_iff. destruct Hbad as [[Ht Hb] | Hnull].
      - left. apply Z.eqb_neq in Ht, Hb. rewrite Ht, Hb. reflexivity.
      - right. apply N.eqb_eq. exact Hnull. }
    rewrite E. monad_unfold. reflexivity.
  - split; [| exact Hmax]. rewrite length_app. cbn [length]. lia.
Qed.

Lemma inv_invalid_entry_witness :
  let bad := {| type := 9; hash := 22%N |} in
  let r := run (ProcessInv test_env (flood_pre ++ bad :: flood_rest)) test_world in
  r.1 = HRet false /\
  In (EvMisbehaving 7 20) (trace r.2) /\
  In (EvInventory 21%N) (trace r.2) /\
  ~ In (EvInventory 23%N) (trace r.2).
Proof.
  intros bad r. subst r.
  pose (w1 := (for_each flood_pre (inv_entry test_env false)
                 (log_event "Received INV list of size %d" [LNum 3] test_world)).2).
  rewrite (inv_invalid_entry test_env test_world w1 flood_pre flood_rest bad).
  - split; [reflexivity |]. split; [vm_compute; tauto |]. split; [vm_compute; tauto |].
    vm_compute. intros H.
    repeat (destruct H as [H | H]; [discriminate H |]). exact H.
  - reflexivity.
  - reflexivity.
  - vm_compute. discriminate.
  - vm_compute. reflexivity.
  - left. split; vm_compute; discriminate.
Defined.

(** ** ProcessGetData: order, back-pressure and frame (main.cpp 741-949) *)

Section NeverReturns.

Lemma never_returns_ret {A} (a : A) : never_returns (ret a).
Proof. intros w b w' [=]. Qed.

Lemma never_returns_crash {A} : never_returns (@crash A).
Proof. intros w b w' [=]. Qed.

Lemma never_returns_bind {A B} (m : M A) (k : A -> M B) :
  never_returns m -> (forall a, never_returns (k a)) -> never_returns (bind m k).
Proof.
  intros Hm Hk w b w' H. unfold bind in H.
  destruct (m w) as [[a | b1 |] w1] eqn:E.
  - exact (Hk a w1 b w' H).
  - exact (Hm w b1 w1 E).
  - discriminate H.
Qed.

Lemma never_returns_get : never_returns get.
Proof. intros w b w' [=]. Qed.

Lemma never_returns_pfrom : never_returns pfrom.
Proof. intros w b w' [=]. Qed.

Lemma never_returns_modify (f : World -> World) : never_returns (modify f).
Proof. intros w b w' [=]. Qed.

Lemma never_returns_modify_node (f : CNode -> CNode) : never_returns (modify_node f).
Proof. intros w b w' [=]. Qed.

Lemma never_returns_emit (e : Event) : never_returns (emit e).
Proof. intros w b w' [=]. Qed.

Lemma never_returns_LOG (fmt : string) (args : list LogArg) : never_returns (LOG fmt args).
Proof. intros w b w' [=]. Qed.

Lemma never_returns_PushMessage (env : Env) (m : OutMsg) : never_returns (PushMessage env m).
Proof. intros w b w' [=]. Qed.

Lemma never_returns_when (c : bool) (m : M unit) :
  never_returns m -> never_returns (when c m).
Proof. intros Hm. destruct c; [exact Hm | apply never_returns_ret]. Qed.

End NeverReturns.

Create HintDb never_returns.

#[local] Hint Resolve never_returns_ret never_returns_crash never_returns_get
  never_returns_pfrom never_returns_modify never_returns_modify_node never_returns_emit
  never_returns_LOG never_returns_PushMessage never_returns_when : never_returns.

Ltac never_returns_tac :=
  repeat first
    [ apply never_returns_bind; [| intros ?]
    | apply never_returns_when
    | solve [auto with never_returns]
    | match goal with
      | |- never_returns (if ?c then _ else _) => destruct c
      | |- never_returns (match ?x with _ => _ end) => destruct x
      | |- never_returns (let '(_, _) := ?x in _) => destruct x
      end ].

Lemma never_returns_push_matched (env : Env) (block : CBlock) (matched : list (nat * uint256)) :
  never_returns (push_matched env block matched).
Proof.
  induction matched as [| p rest IH]; cbn [push_matched]; [apply never_returns_ret |].
  never_returns_tac.
Qed.

Lemma never_returns_getdata_block (env : Env) (inv : CInv) :
  never_returns (getdata_block env inv).
Proof.
  unfold getdata_block, getdata_fSend, getdata_limit, getdata_send_block.
  never_returns_tac; apply never_returns_push_matched.
Qed.

Lemma never_returns_getdata_tx (env : Env) (inv : CInv) :
  never_returns (getdata_tx env inv).
Proof. unfold getdata_tx. never_returns_tac. Qed.

(** The loop of ProcessGetData: it has no early return; it takes items
    off the front of the deque, stops behind the first block-class item,
    and sets gotWorkDone as soon as it has taken one. *)
Lemma getdata_loop_spec (env : Env) (vInv : list CInv) :
  forall (g : bool) (nf : list CInv) (w : World),
    match getdata_loop env vInv g nf w with
    | (Normal (rest, g', nf'), w') =>
        exists k,
          (k <= length vInv)%nat /\
          rest = drop k vInv /\
          g' = g || negb (k =? 0)%nat /\
          Forall (fun inv => is_block_class env inv = false) (take (k - 1) vInv) /\
          (k = 0%nat -> w' = w /\ nf' = nf) /\
          (SendBufferSize env <= nSendSize (node w) -> k = 0%nat)
    | (Return _, _) => False
    | (Crash, _) => True
    end.
Proof.
  induction vInv as [| inv rest IH]; intros g nf w; cbn [getdata_loop].
  - cbn. exists 0%nat. rewrite orb_false_r. repeat split; auto.
  - unfold bind at 1. unfold pfrom at 1.
    destruct (SendBufferSize env <=? nSendSize (node w)) eqn:Hfull.
    + cbn. exists 0%nat. rewrite orb_false_r. repeat split; auto. lia.
    + apply Z.leb_gt in Hfull.
      destruct (is_block_class env inv) eqn:Hclass.
      * unfold bind.
        pose proof (never_returns_getdata_block env inv w) as Hnr.
        destruct (getdata_block env inv w) as [[[] | b |] w1]; [| eapply Hnr; eauto | exact I].
        cbn. exists 1%nat. rewrite orb_true_r. cbn.
        repeat split; auto; try lia; discriminate.
      * unfold bind at 1.
        assert (Hnr : never_returns
                        (if IsKnownType env inv then getdata_tx env inv else ret [])).
        { destruct (IsKnownType env inv);
            [apply never_returns_getdata_tx | apply never_returns_ret]. }
        specialize (Hnr w).
        destruct ((if IsKnownType env inv then getdata_tx env inv else ret []) w)
          as [[nf1 | b |] w1]; [| eapply Hnr; eauto | exact I].
        unfold bind at 1. unfold emit at 1. unfold modify at 1. cbv beta iota.
        specialize (IH true (nf ++ nf1) (set_trace (EvInventory (hash inv) :: trace w1) w1)).
        destruct (getdata_loop env rest true (nf ++ nf1)
                    (set_trace (EvInventory (hash inv) :: trace w1) w1))
          as [[[[rest' g'] nf'] | b |] w2]; [| exact IH | exact I].
        destruct IH as (k & Hk & Hrest & Hg & Hpre & _ & _).
        exists (S k). cbn [length drop]. rewrite orb_true_r.
        split; [lia |]. split; [exact Hrest |]. split; [exact Hg |].
        split; [| split; [discriminate | lia]].
        destruct k as [| k']; cbn [Nat.sub take]; [constructor |].
        constructor; [exact Hclass |].
        cbn [Nat.sub] in Hpre. rewrite Nat.sub_0_r in Hpre. exact Hpre.
Qed.

(** ProcessGetData takes items off the front of the deque and hands the
    rest back. *)
Lemma ProcessGetData_in_order (env : Env) (vInv : list CInv) (w : World) :
  match ProcessGetData env vInv w with
  | (Normal (rest, gotWorkDone), w') =>
      exists k,
        (k <= length vInv)%nat /\
        rest = drop k vInv /\
        gotWorkDone = negb (k =? 0)%nat /\
        Forall (fun inv => is_block_class env inv = false) (take (k - 1) vInv) /\
        (SendBufferSize env <= nSendSize (node w) -> k = 0%nat /\ w' = w)
  | (Return _, _) => False
  | (Crash, _) => True
  end.
Proof.
  unfold ProcessGetData. unfold bind at 1.
  pose proof (getdata_loop_spec env vInv false [] w) as H.
  destruct (getdata_loop env vInv false [] w) as [[[[rest g] nf] | b |] w1];
    [| exact H | exact I].
  destruct H as (k & Hk & Hrest & Hg & Hpre & Hzero & Hfull).
  destruct (negb (length nf =? 0)%nat) eqn:Hnf; cbn;
    exists k; (split; [exact Hk |]); (split; [exact Hrest |]); (split; [exact Hg |]);
    (split; [exact Hpre |]); intros Hf; destruct (Hzero (Hfull Hf)) as [Hw Hn];
    (split; [apply Hfull; exact Hf |]).
  - subst nf. discriminate Hnf.
  - exact Hw.
Qed.

(** X14: ProcessGetData serves in order and yields.  It has no early
    return.  What it hands back is the deque without its first k items;
    gotWorkDone tells whether k is positive; of the items taken only the
    last can be of block class, so at most one block is served per call;
    and when the send buffer is full at the start nothing is taken and
    the world is as before. *)
Theorem getdata_serves_in_order (env : Env) (vInv : list CInv) (w : World) :
  match ProcessGetData env vInv w with
  | (Normal (rest, gotWorkDone), w') =>
      exists k,
        (k <= length vInv)%nat /\
        rest = drop k vInv /\
        gotWorkDone = negb (k =? 0)%nat /\
        Forall (fun inv => is_block_class env inv = false) (take (k - 1) vInv) /\
        (SendBufferSize env <= nSendSize (node w) -> k = 0%nat /\ w' = w)
  | (Return _, _) => False
  | (Crash, _) => True
  end.
Proof. apply ProcessGetData_in_order. Qed.

Section Keeps.

Context {X : Type} (f : World -> X).

Lemma keeps_bind {A B} (m : M A) (k : A -> M B) (w : World) :
  keeps f m w ->
  (forall a w1, m w = (Normal a, w1) -> f w1 = f w -> keeps f (k a) w1) ->
  keeps f (bind m k) w.
Proof.
  unfold keeps, bind. intros Hm Hk.
  destruct (m w) as [[a | b |] w1] eqn:E; cbn in *; auto.
  rewrite (Hk a w1 eq_refl Hm). exact Hm.
Qed.

Lemma keeps_ret {A} (a : A) (w : World) : keeps f (ret a) w.
Proof. reflexivity. Qed.

Lemma keeps_return {A} (b : bool) (w : World) : keeps f (@return_ A b) w.
Proof. reflexivity. Qed.

Lemma keeps_crash {A} (w : World) : keeps f (@crash A) w.
Proof. reflexivity. Qed.

Lemma keeps_get (w : World) : keeps f get w.
Proof. reflexivity. Qed.

Lemma keeps_pfrom (w : World) : keeps f pfrom w.
Proof. reflexivity. Qed.

Lemma keeps_for_each {A} (body : A -> M unit) (l : list A) :
  (forall x w, In x l -> keeps f (body x) w) ->
  forall w, keeps f (for_each l body) w.
Proof.
  induction l as [| x l IH]; intros Hbody w; cbn [for_each].
  - reflexivity.
  - apply keeps_bind; [apply Hbody; left; reflexivity |].
    intros _ w1 _ _. apply IH. intros y w2 Hy. apply Hbody. right. exact Hy.
Qed.

End Keeps.

(** One step of a proof that [f] is kept: through a bind, with the
    equations of the primitive steps solved for the new world; by cases
    on a condition; or by computation. *)
Ltac keeps_step :=
  lazymatch goal with
  | |- keeps _ (ret _) _ => apply keeps_ret
  | |- keeps _ (return_ _) _ => apply keeps_return
  | |- keeps _ crash _ => apply keeps_crash
  | |- keeps _ get _ => apply keeps_get
  | |- keeps _ pfrom _ => apply keeps_pfrom
  | |- keeps _ (bind _ _) _ =>
      apply keeps_bind;
      [| let a := fresh "a" in
         let w1 := fresh "w" in
         let E := fresh "E" in
         let F := fresh "F" in
         intros a w1 E F;
         lazymatch type of E with
         | pfrom _ = _ => cbv [pfrom] in E; injection E as <- <-; clear F
         | get _ = _ => cbv [get] in E; injection E as <- <-; clear F
         | _ => clear E
         end ]
  | |- keeps _ (modify_node _) _ => solve [unfold keeps; reflexivity]
  | |- keeps _ (modify _) _ => solve [unfold keeps; reflexivity]
  | |- keeps _ (emit _) _ => solve [unfold keeps; reflexivity]
  | |- keeps _ (when ?c _) _ => unfold when
  | |- keeps _ (LOG _ _) _ => unfold LOG
  | |- keeps _ (Misbehaving _) _ => unfold Misbehaving
  | |- keeps _ (PushMessage _ _) _ => unfold PushMessage
  | |- keeps _ (return_error _ _) _ => unfold return_error
  | |- keeps _ (if ?c then _ else _) _ => destruct c eqn:?
  | |- keeps _ (match ?x with _ => _ end) _ => destruct x eqn:?
  end.

Ltac keeps_tac := repeat keeps_step.

Lemma keeps_frame_push_matched (env : Env) (block : CBlock) (matched : list (nat * uint256)) :
  forall w, keeps getdata_frame (push_matched env block matched) w.
Proof.
  induction matched as [| p rest IH]; intros w; cbn [push_matched]; [reflexivity |].
  keeps_tac. apply IH.
Qed.

Lemma keeps_frame_getdata_block (env : Env) (inv : CInv) (w : World) :
  keeps getdata_frame (getdata_block env inv) w.
Proof.
  unfold getdata_block, getdata_fSend, getdata_limit, getdata_send_block.
  keeps_tac; apply keeps_frame_push_matched.
Qed.

Lemma keeps_frame_getdata_tx (env : Env) (inv : CInv) (w : World) :
  keeps getdata_frame (getdata_tx env inv) w.
Proof. unfold getdata_tx. keeps_tac. Qed.

Lemma keeps_frame_getdata_loop (env : Env) (vInv : list CInv) :
  forall (g : bool) (nf : list CInv) (w : World),
    keeps getdata_frame (getdata_loop env vInv g nf) w.
Proof.
  induction vInv as [| inv rest IH]; intros g nf w; cbn [getdata_loop]; [reflexivity |].
  keeps_tac;
    lazymatch goal with
    | |- keeps _ (getdata_block _ _) _ => apply keeps_frame_getdata_block
    | |- keeps _ (getdata_tx _ _) _ => apply keeps_frame_getdata_tx
    | |- keeps _ (getdata_loop _ _ _ _) _ => apply IH
    end.
Qed.

Lemma keeps_frame_ProcessGetData (env : Env) (vInv : list CInv) (w : World) :
  keeps getdata_frame (ProcessGetData env vInv) w.
Proof.
  unfold ProcessGetData. keeps_tac. apply keeps_frame_getdata_loop.
Qed.

(** A whitelisted peer keeps its disconnect flag through the step that
    applies the historical-block limit. *)
Lemma keeps_whitelisted_getdata_limit (env : Env) (inv : CInv) (mi : option CBlockIndex)
    (fSend : bool) (w : World) :
  keeps whitelisted_disconnect (getdata_limit env inv mi fSend) w.
Proof.
  unfold getdata_limit. keeps_step; [keeps_step |].
  destruct mi as [mi |]; [| keeps_step].
  match goal with |- keeps _ (if ?c then _ else _) _ => destruct c eqn:Hc end;
    [| keeps_step].
  apply andb_true_iff in Hc as [_ Hwl]. apply negb_true_iff in Hwl.
  unfold keeps, whitelisted_disconnect. cbn. rewrite Hwl. reflexivity.
Qed.

Lemma keeps_whitelisted_push_matched (env : Env) (block : CBlock)
    (matched : list (nat * uint256)) :
  forall w, keeps whitelisted_disconnect (push_matched env block matched) w.
Proof.
  induction matched as [| p rest IH]; intros w; cbn [push_matched]; [reflexivity |].
  keeps_tac. apply IH.
Qed.

Lemma keeps_whitelisted_getdata_block (env : Env) (inv : CInv) (w : World) :
  keeps whitelisted_disconnect (getdata_block env inv) w.
Proof.
  unfold getdata_block. keeps_step; [keeps_step |].
  keeps_step; [unfold getdata_fSend; keeps_tac |].
  keeps_step; [apply keeps_whitelisted_getdata_limit |].
  unfold getdata_send_block. keeps_tac; apply keeps_whitelisted_push_matched.
Qed.

Lemma keeps_whitelisted_getdata_tx (env : Env) (inv : CInv) (w : World) :
  keeps whitelisted_disconnect (getdata_tx env inv) w.
Proof. unfold getdata_tx. keeps_tac. Qed.

Lemma keeps_whitelisted_getdata_loop (env : Env) (vInv : list CInv) :
  forall (g : bool) (nf : list CInv) (w : World),
    keeps whitelisted_disconnect (getdata_loop env vInv g nf) w.
Proof.
  induction vInv as [| inv rest IH]; intros g nf w; cbn [getdata_loop]; [reflexivity |].
  keeps_tac;
    lazymatch goal with
    | |- keeps _ (getdata_block _ _) _ => apply keeps_whitelisted_getdata_block
    | |- keeps _ (getdata_tx _ _) _ => apply keeps_whitelisted_getdata_tx
    | |- keeps _ (getdata_loop _ _ _ _) _ => apply IH
    end.
Qed.

(** X15: what ProcessGetData leaves alone.  Whatever is requested, the
    call changes nothing but the trace and, of the peer, its send size,
    bloom filter, block and transaction counters, continue marker and
    disconnect flag: the block index, the header cache, the node states,
    the request manager and every other field of the peer, its receive
    queues included, are as before.  The whitelisting of the peer is
    among the fields left alone, and a whitelisted peer is never marked
    for disconnection by the call. *)
Theorem getdata_touches_only_the_peer (env : Env) (vInv : list CInv) (w : World) :
  let w' := (ProcessGetData env vInv w).2 in
  getdata_frame w' = getdata_frame w /\
  (fWhitelisted (node w) = true -> fDisconnect (node w') = fDisconnect (node w)).
Proof.
  intros w'. split.
  - apply keeps_frame_ProcessGetData.
  - intros Hwl.
    assert (H : keeps whitelisted_disconnect (ProcessGetData env vInv) w).
    { unfold ProcessGetData. keeps_tac. apply keeps_whitelisted_getdata_loop. }
    unfold keeps, whitelisted_disconnect in H. fold w' in H.
    rewrite Hwl in H. injection H as H1 H2. rewrite H1 in H2. exact H2.
Qed.

Lemma getdata_touches_only_the_peer_witness :
  let old := {| type := 3; hash := 100%N |} in
  let r := ProcessGetData limit_env [old] whitelisted_world in
  let r' := ProcessGetData limit_env [old] test_world in
  fDisconnect (node r.2) = false /\ fDisconnect (node r'.2) = true.
Proof.
  intros old r r'.
  destruct (getdata_touches_only_the_peer limit_env [old] whitelisted_world) as [_ H].
  split; [apply H; reflexivity | reflexivity].
Defined.

(** The loop of ProcessGetData on items that cannot be found: each is
    announced to the listeners and, when its type is known, noted as not
    found. *)
Lemma getdata_loop_not_found (env : Env) (vInv : list CInv) :
  forall (g : bool) (nf : list CInv) (w : World),
    nSendSize (node w) < SendBufferSize env ->
    Forall (not_to_be_found env) vInv ->
    getdata_loop env vInv g nf w
    = (Normal ([], match vInv with [] => g | _ => true end,
               nf ++ List.filter (IsKnownType env) vInv),
       set_trace (rev (map (fun inv => EvInventory (hash inv)) vInv) ++ trace w) w).
Proof.
  induction vInv as [| inv rest IH]; intros g nf w Hsend Hall; cbn [getdata_loop].
  - cbn. rewrite app_nil_r. destruct w; reflexivity.
  - apply Forall_cons in Hall as [(Hclass & Hrelay & Htx) Hall].
    unfold bind at 1. unfold pfrom at 1.
    pose proof Hsend as Hs. apply Z.leb_gt in Hs. rewrite Hs, Hclass.
    assert (Hitem : (if IsKnownType env inv then getdata_tx env inv else ret []) w
                    = (Normal (if IsKnownType env inv then [inv] else []), w)).
    { destruct (IsKnownType env inv); [| reflexivity].
      unfold getdata_tx. rewrite Hrelay. monad_unfold. cbv beta.
      destruct (type inv =? MSG_TX env) eqn:Ht; cbn [negb andb]; [| reflexivity].
      apply Z.eqb_eq in Ht. destruct (Htx Ht) as [-> ->]. reflexivity. }
    unfold bind at 1. rewrite Hitem.
    unfold bind at 1. unfold emit at 1. unfold modify at 1. cbv beta iota.
    rewrite IH by (auto; exact Hsend).
    cbn [map rev List.filter set_trace trace].
    f_equal.
    + f_equal. f_equal.
      * destruct rest; reflexivity.
      * rewrite <- app_assoc. destruct (IsKnownType env inv); reflexivity.
    + rewrite <- app_assoc. reflexivity.
Qed.

(** X16: items that cannot be found.  When the send buffer has room and
    no item of the request is of block class or can be answered from the
    relay map, the admission queue or the mempool, ProcessGetData takes
    every item, pushes nothing but one notfound message that lists the
    items of known type in the order of the request (and no message at
    all when there is none), and announces each item once. *)
Theorem getdata_not_found (env : Env) (vInv : list CInv) (w : World) :
  nSendSize (node w) < SendBufferSize env ->
  Forall (not_to_be_found env) vInv ->
  let missing := List.filter (IsKnownType env) vInv in
  let announced :=
    set_trace (rev (map (fun inv => EvInventory (hash inv)) vInv) ++ trace w) w in
  ProcessGetData env vInv w
  = (Normal ([], match vInv with [] => false | _ => true end),
     match missing with
     | [] => announced
     | _ =>
         set_node
           (set_nSendSize (SendSizeAfterPush env (nSendSize (node w)) (MNOTFOUND missing))
              (node w))
           (set_trace (EvPushMessage (id (node w)) (MNOTFOUND missing) :: trace announced)
              announced)
     end).
Proof.
  intros Hsend Hall missing announced. unfold ProcessGetData. unfold bind at 1.
  rewrite getdata_loop_not_found by assumption. cbn [app]. fold missing. fold announced.
  destruct missing as [| inv rest]; reflexivity.
Qed.

Lemma getdata_not_found_witness :
  let vInv := [{| type := 1; hash := 31%N |}; {| type := 9; hash := 32%N |};
               {| type := 1; hash := 33%N |}] in
  let r := ProcessGetData test_env vInv test_world in
  r.1 = Normal ([], true) /\
  trace r.2
  = [EvPushMessage 7 (MNOTFOUND [{| type := 1; hash := 31%N |}; {| type := 1; hash := 33%N |}]);
     EvInventory 33%N; EvInventory 32%N; EvInventory 31%N].
Proof.
  intros vInv r. subst r.
  rewrite (getdata_not_found test_env vInv test_world).
  - split; reflexivity.
  - reflexivity.
  - repeat (constructor; [repeat split; try reflexivity; intros; reflexivity |]).
    constructor.
Defined.

(** ** getdata: the message (main.cpp 1426-1475) *)

(** Items of the three plain types pass the check of the types without
    any call. *)
Lemma getdata_validate_plain (env : Env) (BasicThinblockChecks : M bool) (vInv : list CInv)
    (w : World) :
  Forall (plain_getdata_type env) vInv ->
  getdata_validate env BasicThinblockChecks vInv w = (Normal tt, w).
Proof.
  induction 1 as [| inv rest [Hty Hthin] _ IH]; cbn [getdata_validate]; [reflexivity |].
  assert (E : negb ((type inv =? MSG_TX env) || (type inv =? MSG_BLOCK env)
                    || (type inv =? MSG_FILTERED_BLOCK env) || (type inv =? MSG_THINBLOCK env))
              = false).
  { apply negb_false_iff.
    destruct Hty as [-> | [-> | ->]]; rewrite Z.eqb_refl, ?orb_true_r; reflexivity. }
  rewrite E. apply Z.eqb_neq in Hthin. rewrite Hthin. exact IH.
Qed.

(** X17: one item of unknown type voids the whole getdata.  While the
    node is neither importing nor reindexing, in a getdata of at most
    MAX_INV_SZ items, when an item is of none of the four types and the
    items ahead of it are all of type MSG_TX, MSG_BLOCK or
    MSG_FILTERED_BLOCK (so that no thin-block check runs before it), the
    peer earns 20 points and the branch returns false before anything is
    served: nothing is sent, nothing is queued, and the items ahead of
    the bad one, valid as they are, go unanswered. *)
Theorem getdata_message_invalid_type (env : Env) (fDebug : bool)
    (BasicThinblockChecks : M bool) (pre rest : list CInv) (bad : CInv) (w : World) :
  fImporting env = false ->
  fReindex env = false ->
  Z.of_nat (length (pre ++ bad :: rest)) <= MAX_INV_SZ ->
  Forall (plain_getdata_type env) pre ->
  type bad <> MSG_TX env ->
  type bad <> MSG_BLOCK env ->
  type bad <> MSG_FILTERED_BLOCK env ->
  type bad <> MSG_THINBLOCK env ->
  run (ProcessGetDataMessage env fDebug BasicThinblockChecks (pre ++ bad :: rest)) w
  = (HRet false,
     set_trace
       (EvLog "message inv invalid type = %u" [LNum (type bad)]
        :: EvMisbehaving (id (node w)) 20 :: trace w) w).
Proof.
  intros Himp Hre Hmax Hpre H1 H2 H3 H4.
  unfold ProcessGetDataMessage. rewrite Himp, Hre. cbn [orb].
  assert (Hlen : 0 < Z.of_nat (length (pre ++ bad :: rest))).
  { rewrite length_app. cbn [length]. lia. }
  destruct (MAX_INV_SZ <? Z.of_nat (length (pre ++ bad :: rest))) eqn:E1;
    [apply Z.ltb_lt in E1; lia |].
  destruct (Z.of_nat (length (pre ++ bad :: rest)) =? 0) eqn:E2;
    [apply Z.eqb_eq in E2; lia |].
  cbn [orb]. rewrite run_bind.
  assert (Hv : getdata_validate env BasicThinblockChecks (pre ++ bad :: rest) w
               = (Return false,
                  set_trace
                    (EvLog "message inv invalid type = %u" [LNum (type bad)]
                     :: EvMisbehaving (id (node w)) 20 :: trace w) w)).
  { clear Hmax Hlen E1 E2.
    induction Hpre as [| inv pre' [Hty Hthin] _ IH]; cbn [app getdata_validate].
    - apply Z.eqb_neq in H1, H2, H3, H4. rewrite H1, H2, H3, H4. reflexivity.
    - assert (E : negb ((type inv =? MSG_TX env) || (type inv =? MSG_BLOCK env)
                        || (type inv =? MSG_FILTERED_BLOCK env)
                        || (type inv =? MSG_THINBLOCK env)) = false).
      { apply negb_false_iff.
        destruct Hty as [-> | [-> | ->]]; rewrite Z.eqb_refl, ?orb_true_r; reflexivity. }
      rewrite E. apply Z.eqb_neq in Hthin. rewrite Hthin. exact IH. }
  rewrite Hv. reflexivity.
Qed.

Lemma getdata_message_invalid_type_witness :
  let vInv := [{| type := 2; hash := 100%N |}; {| type := 9; hash := 5%N |}] in
  let r := run (ProcessGetDataMessage test_env false (ret true) vInv) test_world in
  r.1 = HRet false /\
  trace r.2 = [EvLog "message inv invalid type = %u" [LNum 9]; EvMisbehaving 7 20].
Proof.
  intros vInv r. subst r vInv.
  change [{| type := 2; hash := 100%N |}; {| type := 9; hash := 5%N |}]
    with ([{| type := 2; hash := 100%N |}] ++ {| type := 9; hash := 5%N |} :: []).
  rewrite (getdata_message_invalid_type test_env false (ret true)
             [{| type := 2; hash := 100%N |}] [] {| type := 9; hash := 5%N |} test_world);
    try reflexivity; try (vm_compute; congruence).
  - split; reflexivity.
  - repeat constructor; vm_compute; auto; congruence.
Defined.

(** X18: what a getdata does not get served is queued.  For a request of
    1 to 50000 items of the three plain types, received while the node is
    neither importing nor reindexing, the branch returns true unless the
    program stops; the items not taken by ProcessGetData, a tail of the
    request, are appended to the peer's getdata queue behind what was
    there; and with a full send buffer that is the whole request. *)
Theorem getdata_message_queues_the_rest (env : Env) (fDebug : bool)
    (BasicThinblockChecks : M bool) (vInv : list CInv) (w : World) :
  fImporting env = false ->
  fReindex env = false ->
  0 < Z.of_nat (length vInv) <= MAX_INV_SZ ->
  Forall (plain_getdata_type env) vInv ->
  let r := run (ProcessGetDataMessage env fDebug BasicThinblockChecks vInv) w in
  r.1 = HCrash \/
  (r.1 = HRet true /\
   exists k,
     (k <= length vInv)%nat /\
     vRecvGetData (node r.2) = vRecvGetData (node w) ++ drop k vInv /\
     (SendBufferSize env <= nSendSize (node w) -> k = 0%nat)).
Proof.
  intros Himp Hre [Hpos Hmax] Hplain r. subst r.
  unfold ProcessGetDataMessage. rewrite Himp, Hre. cbn [orb].
  destruct (MAX_INV_SZ <? Z.of_nat (length vInv)) eqn:E1; [apply Z.ltb_lt in E1; lia |].
  destruct (Z.of_nat (length vInv) =? 0) eqn:E2; [apply Z.eqb_eq in E2; lia |].
  cbn [orb]. rewrite run_bind, getdata_validate_plain by exact Hplain.
  assert (Htail : forall w1,
            node w1 = node w ->
            let r := run (bind (ProcessGetData env vInv)
                            (fun r => modify_node
                                        (fun n => set_vRecvGetData (vRecvGetData n ++ r.1) n)))
                       w1 in
            r.1 = HCrash \/
            (r.1 = HRet true /\
             exists k,
               (k <= length vInv)%nat /\
               vRecvGetData (node r.2) = vRecvGetData (node w) ++ drop k vInv /\
               (SendBufferSize env <= nSendSize (node w) -> k = 0%nat))).
  { intros w1 Hnode r. subst r. rewrite run_bind.
    pose proof (ProcessGetData_in_order env vInv w1) as Horder.
    pose proof (keeps_frame_ProcessGetData env vInv w1) as Hframe.
    unfold keeps in Hframe.
    destruct (ProcessGetData env vInv w1) as [[[rest g] | b |] w2];
      [| contradiction | left; reflexivity].
    right. cbn. split; [reflexivity |].
    destruct Horder as (k & Hk & Hrest & _ & _ & Hfull).
    exists k. split; [exact Hk |]. split.
    - apply (f_equal (fun w => vRecvGetData (node w))) in Hframe. cbn in Hframe.
      rewrite Hframe, Hnode, Hrest. reflexivity.
    - intros Hf. rewrite <- Hnode in Hf. apply Hfull. exact Hf. }
  rewrite run_bind. unfold pfrom at 1. cbv beta iota.
  destruct vInv as [| inv0 vInv']; [cbn in Hpos; lia |].
  destruct (fDebug || negb (Z.of_nat (length (inv0 :: vInv')) =? 1));
    destruct (fDebug && (0 <? Z.of_nat (length (inv0 :: vInv')))
              || (Z.of_nat (length (inv0 :: vInv')) =? 1));
    unfold when; rewrite run_bind; cbn [LOG emit modify ret]; cbv beta iota;
    rewrite run_bind; cbn [LOG emit modify ret]; cbv beta iota;
    apply Htail; reflexivity.
Qed.

Lemma getdata_message_queues_the_rest_witness :
  let vInv := [{| type := 2; hash := 100%N |}; {| type := 1; hash := 5%N |}] in
  let r := run (ProcessGetDataMessage test_env false (ret true) vInv) test_world in
  (r.1 = HCrash \/
   (r.1 = HRet true /\
    exists k,
      (k <= length vInv)%nat /\
      vRecvGetData (node r.2) = vRecvGetData (node test_world) ++ drop k vInv /\
      (SendBufferSize test_env <= nSendSize (node test_world) -> k = 0%nat))) /\
  vRecvGetData (node r.2) = [{| type := 1; hash := 5%N |}].
Proof.
  intros vInv r. split; [| reflexivity].
  apply (getdata_message_queues_the_rest test_env false (ret true) vInv test_world).
  - reflexivity.
  - reflexivity.
  - vm_compute. split; [reflexivity | discriminate].
  - repeat constructor; vm_compute; auto; congruence.
Defined.

(** ** headers: size gate, cache bound and direct fetch (main.cpp 1604-1899) *)

(** X19: the size gate of headers.  While the node is neither importing
    nor reindexing, a headers message with more than 2000 entries earns
    the peer 20 points and the branch returns false; an empty message is
    accepted as it is: the branch returns true and makes no call. *)
Theorem headers_size_gate (env : Env) (w : World) (headers : list CBlockHeader) :
  fImporting env = false ->
  fReindex env = false ->
  let r := run (ProcessHeaders env headers) w in
  (headers = [] -> r = (HRet true, w)) /\
  (MAX_HEADERS_RESULTS < Z.of_nat (length headers) ->
   r = (HRet false,
        set_trace
          (EvLog "headers message size = %u" [LNum (Z.of_nat (length headers))]
           :: EvMisbehaving (id (node w)) 20 :: trace w) w)).
Proof.
  intros Himp Hre r. subst r. unfold ProcessHeaders. rewrite Himp, Hre. split.
  - intros ->. reflexivity.
  - intros Hbig. apply Z.ltb_lt in Hbig. rewrite Hbig. reflexivity.
Qed.

Lemma headers_size_gate_witness :
  let big := header_chain 101 2001 in
  (run (ProcessHeaders test_env []) test_world) = (HRet true, test_world) /\
  (run (ProcessHeaders test_env big) test_world).1 = HRet false.
Proof.
  intros big.
  destruct (headers_size_gate test_env test_world [] eq_refl eq_refl) as [Hempty _].
  destruct (headers_size_gate test_env test_world big eq_refl eq_refl) as [_ Hbig].
  split; [apply Hempty; reflexivity |].
  rewrite Hbig; [reflexivity | vm_compute; reflexivity].
Defined.

(** *** The unconnected-header cache stays within its limit *)

Lemma cache_and_announce_size (env : Env) (w : World) (header : CBlockHeader) (s0 : nat) :
  (size (mapUnConnectedHeaders w) <= Nat.max s0 (MAX_UNCONNECTED_HEADERS env))%nat ->
  (size (mapUnConnectedHeaders (cache_and_announce env w header))
   <= Nat.max s0 (MAX_UNCONNECTED_HEADERS env))%nat.
Proof.
  intros H. unfold cache_and_announce.
  destruct (size (mapUnConnectedHeaders w) <? MAX_UNCONNECTED_HEADERS env)%nat eqn:E; cbn.
  - apply Nat.ltb_lt in E.
    pose proof (size_insert_le (mapUnConnectedHeaders w) (GetHash env header)
                  (header, GetTime env)).
    lia.
  - exact H.
Qed.

Lemma headers_walk_size (env : Env) (headers : list CBlockHeader) (s0 : nat) :
  forall (st : bool * uint256) (w : World),
    (size (mapUnConnectedHeaders w) <= Nat.max s0 (MAX_UNCONNECTED_HEADERS env))%nat ->
    (size (mapUnConnectedHeaders (headers_walk env st headers w).2)
     <= Nat.max s0 (MAX_UNCONNECTED_HEADERS env))%nat.
Proof.
  induction headers as [| header rest IH]; intros st w H; cbn [headers_walk].
  - exact H.
  - unfold bind. rewrite headers_walk_step_spec.
    destruct (out_of_order (mapBlockIndex w) st.2 header).
    + destruct (too_old env header); [exact H |].
      apply IH, cache_and_announce_size, H.
    + destruct st.1; [apply IH, cache_and_announce_size, H | apply IH, H].
Qed.

Lemma connect_unconnected_size (env : Env) :
  forall (fuel : nat) (headers : list CBlockHeader) (m : gmap uint256 (CBlockHeader * Z)),
    (size (connect_unconnected env fuel headers m).2 <= size m)%nat.
Proof.
  induction fuel as [| fuel IH]; intros headers m; cbn [connect_unconnected]; [cbn; lia |].
  destruct (unconnected_entries_keys m) as [Hnd Hin].
  destruct (scan_pass_size env headers (unconnected_entries m) m Hnd Hin) as [Hle _].
  destruct (scan_pass env headers (unconnected_entries m) m) as [[hdr |] m'];
    cbn [fst snd] in *; [| exact Hle].
  specialize (IH (headers ++ [hdr]) m'). lia.
Qed.

Lemma keeps_cache_accept_headers (env : Env) (headers : list CBlockHeader) :
  forall (i : nat) (pindexLast : option CBlockIndex) (w : World),
    keeps mapUnConnectedHeaders (accept_headers env headers i pindexLast) w.
Proof.
  induction headers as [| header rest IH]; intros i pindexLast w; cbn [accept_headers];
    [reflexivity |].
  keeps_tac. apply IH.
Qed.

Lemma keeps_cache_direct_fetch (env : Env) (vToFetch : list CBlockIndex) :
  forall (nAskFor : Z) (w : World),
    keeps mapUnConnectedHeaders (direct_fetch env vToFetch nAskFor) w.
Proof.
  induction vToFetch as [| pindex rest IH]; intros nAskFor w; cbn [direct_fetch];
    [reflexivity |].
  keeps_tac. apply IH.
Qed.

Lemma keeps_cache_headers_more (env : Env) (nCount : Z) (pindexLast : option CBlockIndex)
    (w : World) :
  keeps mapUnConnectedHeaders (headers_more env nCount pindexLast) w.
Proof.
  unfold headers_more, reset_sync_start_time, headers_broadcast.
  keeps_tac.
  - unfold keeps, modify. cbn.
    match goal with |- context [nodestate ?x !! ?k] => destruct (nodestate x !! k) end;
      reflexivity.
  - apply keeps_for_each. intros pnode wn _. keeps_tac.
Qed.

Lemma keeps_cache_headers_tail (env : Env) (pindexLast : option CBlockIndex) (w : World) :
  keeps mapUnConnectedHeaders (headers_tail env pindexLast) w.
Proof.
  unfold headers_tail. keeps_tac. apply keeps_cache_direct_fetch.
Qed.

(** X20: the unconnected-header cache never outgrows its limit through a
    headers message.  Whatever the message and the state of the node,
    after the branch the cache holds no more entries than
    MAX_UNCONNECTED_HEADERS, or than it held before if that was more. *)
Theorem unconnected_cache_bounded (env : Env) (w : World) (headers : list CBlockHeader) :
  (size (mapUnConnectedHeaders (run (ProcessHeaders env headers) w).2)
   <= Nat.max (size (mapUnConnectedHeaders w)) (MAX_UNCONNECTED_HEADERS env))%nat.
Proof.
  rewrite run_snd. set (s0 := size (mapUnConnectedHeaders w)).
  assert (H0 : (size (mapUnConnectedHeaders w) <= Nat.max s0 (MAX_UNCONNECTED_HEADERS env))%nat)
    by lia.
  unfold ProcessHeaders.
  destruct (fImporting env); [exact H0 |].
  destruct (fReindex env); [exact H0 |].
  destruct (MAX_HEADERS_RESULTS <? Z.of_nat (length headers)); [exact H0 |].
  destruct (Z.of_nat (length headers) =? 0); [exact H0 |].
  unfold bind at 1.
  pose proof (headers_walk_size env headers s0 (false, 0%N) w H0) as H1.
  destruct (headers_walk env (false, 0%N) headers w) as [[st | b |] w1]; cbn [snd] in H1;
    [| exact H1 | exact H1].
  destruct st.1; [exact H1 |].
  unfold bind at 1. unfold get at 1. cbv beta iota.
  pose proof (connect_unconnected_size env (S (size (mapUnConnectedHeaders w1))) headers
                (mapUnConnectedHeaders w1)) as H2.
  destruct (connect_unconnected env (S (size (mapUnConnectedHeaders w1))) headers
              (mapUnConnectedHeaders w1)) as [headers' m]. cbn [snd] in H2.
  unfold bind at 1. unfold modify at 1. cbv beta iota.
  set (w2 := set_mapUnConnectedHeaders m w1).
  assert (Hrest : forall k : M unit,
            keeps mapUnConnectedHeaders k w2 ->
            (size (mapUnConnectedHeaders (k w2).2)
             <= Nat.max s0 (MAX_UNCONNECTED_HEADERS env))%nat).
  { intros k Hk. unfold keeps in Hk. rewrite Hk. subst w2. cbn. lia. }
  apply Hrest.
  keeps_step; [apply keeps_cache_accept_headers |].
  keeps_step; [keeps_step |].
  keeps_step; [keeps_tac |].
  keeps_step; [apply keeps_cache_headers_more | apply keeps_cache_headers_tail].
Qed.

(** *** Headers taken from the cache connect *)

Lemma scan_pass_spec (env : Env) (headers : list CBlockHeader) :
  forall (entries : list (uint256 * (CBlockHeader * Z))) (m0 m : gmap uint256 (CBlockHeader * Z)),
    m ⊆ m0 ->
    (forall k v, (k, v) ∈ entries -> m0 !! k = Some v) ->
    (scan_pass env headers entries m).2 ⊆ m0 /\
    forall hdr, (scan_pass env headers entries m).1 = Some hdr ->
      hashPrevBlock hdr = back_hash env headers /\ cached m0 hdr.
Proof.
  induction entries as [| [k [hdr t]] rest IH]; intros m0 m Hsub Hin; cbn [scan_pass].
  - cbn. split; [exact Hsub | intros ? [=]].
  - assert (Hdel : delete k m ⊆ m0).
    { etransitivity; [apply delete_subseteq | exact Hsub]. }
    assert (Hrest : forall k' v, (k', v) ∈ rest -> m0 !! k' = Some v).
    { intros k' v Hv. apply Hin. right. exact Hv. }
    destruct (back_hash env headers =? hashPrevBlock hdr)%N eqn:E.
    + cbn. split; [exact Hdel |]. intros hdr' [= <-].
      apply N.eqb_eq in E. split; [symmetry; exact E |].
      exists k, t. apply Hin. left.
    + destruct (UNCONNECTED_HEADERS_TIMEOUT env <=? GetTime env - t); [apply IH; assumption |].
      destruct (existsb (fun header => (GetHash env header =? k)%N) headers);
        apply IH; assumption.
Qed.

Lemma back_hash_snoc (env : Env) (headers : list CBlockHeader) (hdr : CBlockHeader) :
  back_hash env (headers ++ [hdr]) = GetHash env hdr.
Proof. unfold back_hash. rewrite last_snoc. reflexivity. Qed.

(** X21: the headers that the branch takes out of the unconnected-header
    cache connect.  The list it goes on to accept is the list received
    followed by headers that were entries of the cache, the first of
    which names the last received header as its predecessor and each
    further one the header before it; and the cache is left with a part
    of the entries it had. *)
Theorem cached_headers_connect (env : Env) :
  forall (fuel : nat) (headers : list CBlockHeader) (m : gmap uint256 (CBlockHeader * Z)),
    let r := connect_unconnected env fuel headers m in
    r.2 ⊆ m /\
    exists ext,
      r.1 = headers ++ ext /\
      chains_from env (back_hash env headers) ext /\
      Forall (cached m) ext.
Proof.
  induction fuel as [| fuel IH]; intros headers m r; subst r; cbn [connect_unconnected].
  - cbn. split; [reflexivity |]. exists []. rewrite app_nil_r. cbn. auto.
  - assert (Hentries : forall k v, (k, v) ∈ unconnected_entries m -> m !! k = Some v).
    { intros k v Hkv. unfold unconnected_entries in Hkv.
      rewrite merge_sort_Permutation in Hkv. apply elem_of_map_to_list. exact Hkv. }
    destruct (scan_pass_spec env headers (unconnected_entries m) m m (reflexivity m) Hentries)
      as [Hsub Hfound].
    destruct (scan_pass env headers (unconnected_entries m) m) as [[hdr |] m'];
      cbn [fst snd] in *.
    + destruct (Hfound hdr eq_refl) as [Hprev Hcached].
      destruct (IH (headers ++ [hdr]) m') as (Hsub' & ext & Hext & Hchain & Hall).
      split; [etransitivity; eassumption |].
      exists (hdr :: ext). split; [rewrite Hext, <- app_assoc; reflexivity |].
      split.
      * cbn. split; [exact Hprev |]. rewrite back_hash_snoc in Hchain. exact Hchain.
      * constructor; [exact Hcached |].
        eapply Forall_impl; [exact Hall |].
        intros h (k & t & Hk). exists k, t. eapply lookup_weaken; eassumption.
    + split; [exact Hsub |]. exists []. rewrite app_nil_r. cbn. auto.
Qed.

Example cached_headers_connect_example :
  (connect_unconnected test_env 3 (header_chain 2098 2) (mapUnConnectedHeaders cached_world)).1
  = header_chain 2098 2 ++ [test_header 2099 2100 test_now 1; test_header 2100 2101 test_now 0].
Proof. vm_compute. reflexivity. Qed.

(** *** Direct fetch asks for a bounded number of blocks *)

Lemma count_AskFor_app (l1 l2 : list Event) :
  count_AskFor (l1 ++ l2) = count_AskFor l1 + count_AskFor l2.
Proof.
  induction l1 as [| e l1 IH]; cbn [app count_AskFor]; [reflexivity |].
  destruct e; rewrite ?IH; lia.
Qed.

Lemma count_AskFor_nonneg (l : list Event) : 0 <= count_AskFor l.
Proof.
  induction l as [| e l IH]; cbn [count_AskFor]; [lia |]. destruct e; lia.
Qed.

(** The loop only adds to the trace; it ends normally with the number of
    requests made so far, and stops as soon as that number has reached
    the peer's nMaxBlocksInTransit. *)
Lemma direct_fetch_spec (env : Env) (vToFetch : list CBlockIndex) :
  forall (nAskFor : Z) (w : World),
    exists new,
      direct_fetch env vToFetch nAskFor w
      = (Normal (nAskFor + count_AskFor new), set_trace (new ++ trace w) w) /\
      count_AskFor new <= Z.max 1 (nMaxBlocksInTransit (node w) - nAskFor) /\
      count_AskFor new <= Z.of_nat (length vToFetch).
Proof.
  induction vToFetch as [| pindex rest IH]; intros nAskFor w; cbn [direct_fetch].
  - exists []. cbn. rewrite Z.add_0_r. split; [destruct w; reflexivity | lia].
  - monad_unfold. cbv beta zeta.
    set (inv := {| type := MSG_BLOCK env; hash := GetBlockHash pindex |}).
    destruct (negb (AlreadyHaveBlock env w inv)) eqn:Hhave.
    + cbv beta iota.
      set (w1 := set_trace _ _).
      change (node w1) with (node w).
      destruct (nMaxBlocksInTransit (node w) <=? nAskFor + 1) eqn:Hmax.
      * apply Z.leb_le in Hmax.
        exists [EvLog "Large reorg, could only direct fetch %d blocks" [LNum (nAskFor + 1)];
                EvLog "AskFor block via headers direct fetch %s (%d) peer=%d"
                  [LNum (Z.of_N (GetBlockHash pindex)); LNum (nHeight pindex);
                   LNum (id (node w))];
                EvAskFor inv (id (node w))].
        split; [reflexivity |]. cbn. lia.
      * apply Z.leb_gt in Hmax.
        destruct (IH (nAskFor + 1) w1) as (new & Hrun & Hbound & Hlen).
        rewrite Hrun.
        exists (new ++ [EvLog "AskFor block via headers direct fetch %s (%d) peer=%d"
                          [LNum (Z.of_N (GetBlockHash pindex)); LNum (nHeight pindex);
                           LNum (id (node w))];
                        EvAskFor inv (id (node w))]).
        rewrite count_AskFor_app. cbn [count_AskFor].
        split; [| change (node w1) with (node w) in Hbound; cbn [length]; lia].
        f_equal; [f_equal; lia |].
        subst w1. cbn. rewrite <- app_assoc. reflexivity.
    + cbv beta iota.
      destruct (nMaxBlocksInTransit (node w) <=? nAskFor) eqn:Hmax.
      * exists [EvLog "Large reorg, could only direct fetch %d blocks" [LNum nAskFor]].
        split; [cbn; rewrite Z.add_0_r; reflexivity |]. cbn. lia.
      * apply Z.leb_gt in Hmax.
        destruct (IH nAskFor w) as (new & Hrun & Hbound & Hlen).
        exists new. split; [exact Hrun |]. cbn [length]. lia.
Qed.

(** X22: direct fetch is bounded.  For a peer whose limit
    nMaxBlocksInTransit is not negative, the loop that requests the
    blocks between a new header and the active chain only adds to the
    trace, never fails, and makes at most that many requests, one request
    being made even when the limit is zero; it reports the number of
    requests it made. *)
Theorem direct_fetch_bounded (env : Env) (vToFetch : list CBlockIndex) (w : World) :
  0 <= nMaxBlocksInTransit (node w) ->
  exists new,
    direct_fetch env vToFetch 0 w
    = (Normal (count_AskFor new), set_trace (new ++ trace w) w) /\
    count_AskFor new <= Z.max 1 (nMaxBlocksInTransit (node w)) /\
    count_AskFor new <= Z.of_nat (length vToFetch).
Proof.
  intros _.
  destruct (direct_fetch_spec env vToFetch 0 w) as (new & Hrun & Hbound & Hlen).
  exists new. rewrite Z.sub_0_r in Hbound. cbn in Hrun. auto.
Qed.

Lemma direct_fetch_bounded_witness :
  exists new,
    direct_fetch test_env [test_tip] 0 test_world
    = (Normal (count_AskFor new), set_trace (new ++ trace test_world) test_world) /\
    count_AskFor new <= Z.max 1 (nMaxBlocksInTransit (node test_world)) /\
    count_AskFor new <= Z.of_nat (length [test_tip]).
Proof.
  apply (direct_fetch_bounded test_env [test_tip] test_world). simpl. lia.
Defined.

(** ** The counters of main.cpp and the node states (main.cpp 142-196) *)

Section FlagCount.

Context (flag : CNodeState -> bool).

#[local] Abbreviation count ns :=
  (Z.of_nat (size (filter (fun kv : NodeId * CNodeState => flag kv.2 = true) ns))).

Lemma flag_count_delete (ns : gmap NodeId CNodeState) (k : NodeId) (s : CNodeState) :
  ns !! k = Some s ->
  count (delete k ns) = count ns - Z.b2z (flag s).
Proof.
  intros Hk. rewrite map_filter_delete, map_size_delete.
  destruct (flag s) eqn:Hf.
  - assert (H : filter (fun kv : NodeId * CNodeState => flag kv.2 = true) ns !! k = Some s).
    { apply map_lookup_filter_Some. split; [exact Hk | exact Hf]. }
    rewrite H. cbn.
    assert (size (filter (fun kv : NodeId * CNodeState => flag kv.2 = true) ns) <> 0)%nat.
    { intros Hz. apply map_size_empty_inv in Hz. rewrite Hz, lookup_empty in H. discriminate. }
    lia.
  - assert (H : filter (fun kv : NodeId * CNodeState => flag kv.2 = true) ns !! k = None).
    { apply map_lookup_filter_None. right. intros s' Hs'. rewrite Hk in Hs'.
      injection Hs' as <-. cbn. rewrite Hf. discriminate. }
    rewrite H. cbn. lia.
Qed.

Lemma flag_count_insert (ns : gmap NodeId CNodeState) (k : NodeId) (s s' : CNodeState) :
  ns !! k = Some s ->
  count (<[k := s']> ns) = count ns - Z.b2z (flag s) + Z.b2z (flag s').
Proof.
  intros Hk. rewrite <- (flag_count_delete ns k s Hk).
  rewrite <- insert_delete_eq, map_filter_insert.
  destruct (decide (flag (k, s').2 = true)) as [Hf | Hf]; cbn in Hf.
  - rewrite Hf, map_size_insert_None.
    + cbn. lia.
    + apply map_lookup_filter_None. left. apply lookup_delete_eq.
  - apply not_true_is_false in Hf. rewrite Hf, delete_delete_eq. cbn. lia.
Qed.

Lemma flag_count_bounds (ns : gmap NodeId CNodeState) :
  0 <= count ns <= Z.of_nat (size ns).
Proof.
  assert (H : (size (filter (fun kv : NodeId * CNodeState => flag kv.2 = true) ns)
               <= size ns)%nat).
  { apply map_subseteq_size, map_filter_subseteq. }
  lia.
Qed.

End FlagCount.

Lemma int32_wrap_small (z : Z) : - 2 ^ 31 <= z < 2 ^ 31 -> int32_wrap z = z.
Proof.
  intros H. unfold int32_wrap.
  rewrite Z.mod_small by lia. lia.
Qed.

(** X23: the preferred-download counter follows the node states.  When
    nPreferredDownload equals the number of node states with the
    preferred-download flag, it still does after UpdatePreferredDownload,
    which sets the flag of the peer to "neither one-shot nor client", and
    after FinalizeNode of any peer.  The number of node states is taken
    to be below 2^31, the range of the counter. *)
Theorem preferred_download_counter_kept (w : World) (p : NodeId) :
  nPreferredDownload w = preferred_count (nodestate w) ->
  Z.of_nat (size (nodestate w)) < 2 ^ 31 ->
  (let w' := FinalizeNode p w in
   nPreferredDownload w' = preferred_count (nodestate w')) /\
  (forall state,
     nodestate w !! id (node w) = Some state ->
     let r := UpdatePreferredDownload w in
     r.1 = Normal tt /\
     nPreferredDownload r.2 = preferred_count (nodestate r.2) /\
     (fPreferredDownload <$> nodestate r.2 !! id (node w))
     = Some (negb (fOneShot (node w)) && negb (fClient (node w)))).
Proof.
  intros Hinv Hsize.
  pose proof (flag_count_bounds fPreferredDownload (nodestate w)) as Hb.
  fold (preferred_count (nodestate w)) in Hb.
  split.
  - unfold FinalizeNode.
    destruct (nodestate w !! p) as [state |] eqn:Hstate; [| exact Hinv].
    set (w1 := if fSyncStarted state then set_nSyncStarted (nSyncStarted w - 1) w else w).
    assert (Hn1 : nodestate w1 = nodestate w)
      by (subst w1; destruct (fSyncStarted state); reflexivity).
    assert (Hp1 : nPreferredDownload w1 = nPreferredDownload w)
      by (subst w1; destruct (fSyncStarted state); reflexivity).
    destruct (foldl_finalize_block p (GetBlocksInFlight (requester w1) p) w1)
      as (Hn2 & Hp2 & _).
    set (w2 := foldl (finalize_block p) w1 (GetBlocksInFlight (requester w1) p)) in *.
    pose proof (flag_count_delete fPreferredDownload (nodestate w) p state Hstate) as Hdel.
    fold (preferred_count (delete p (nodestate w))) in Hdel.
    fold (preferred_count (nodestate w)) in Hdel.
    pose proof (flag_count_bounds fPreferredDownload (delete p (nodestate w))) as Hb'.
    fold (preferred_count (delete p (nodestate w))) in Hb'.
    assert (Hwrap : int32_wrap (nPreferredDownload w2 - Z.b2z (fPreferredDownload state))
                    = preferred_count (delete p (nodestate w))).
    { rewrite Hp2, Hp1, Hinv, <- Hdel. apply int32_wrap_small.
      assert (size (delete p (nodestate w)) <= size (nodestate w))%nat
        by apply map_subseteq_size, delete_subseteq.
      lia. }
    cbv zeta. cbn [nodestate set_nodestate set_requester set_nPreferredDownload
                     nPreferredDownload requester].
    rewrite Hn2, Hn1, Hwrap.
    destruct (bool_decide (delete p (nodestate w) = ∅)) eqn:Hlast; [| reflexivity].
    apply bool_decide_eq_true in Hlast.
    assert (Hzero : preferred_count (delete p (nodestate w)) = 0).
    { rewrite Hlast. reflexivity. }
    destruct (MapBlocksInFlightEmpty _); cbn; rewrite Hzero; cbn; rewrite Hzero; reflexivity.
  - intros state Hstate r. subst r. unfold UpdatePreferredDownload. monad_unfold.
    rewrite Hstate. cbn [fst snd nodestate set_nodestate set_nPreferredDownload
                           nPreferredDownload].
    set (fNew := negb (fOneShot (node w)) && negb (fClient (node w))).
    split; [reflexivity |]. split; [| rewrite lookup_insert_eq; reflexivity].
    pose proof (flag_count_insert fPreferredDownload (nodestate w) (id (node w)) state
                  (set_fPreferredDownload fNew state) Hstate) as Hins.
    fold (preferred_count (nodestate w)) in Hins.
    unfold preferred_count at 1. rewrite Hins.
    change (fPreferredDownload (set_fPreferredDownload fNew state)) with fNew.
    rewrite Hinv.
    rewrite (int32_wrap_small (preferred_count (nodestate w) - Z.b2z (fPreferredDownload state)))
      by (destruct (fPreferredDownload state); cbn; lia).
    apply int32_wrap_small.
    pose proof (flag_count_delete fPreferredDownload (nodestate w) (id (node w)) state Hstate)
      as Hdel.
    pose proof (flag_count_bounds fPreferredDownload (delete (id (node w)) (nodestate w)))
      as Hb'.
    assert (S (size (delete (id (node w)) (nodestate w))) = size (nodestate w)).
    { rewrite map_size_delete_Some by eauto.
      destruct (size (nodestate w)) eqn:Hz; [| reflexivity].
      apply map_size_empty_inv in Hz. rewrite Hz, lookup_empty in Hstate. discriminate. }
    fold (preferred_count (nodestate w)) in Hdel.
    destruct fNew; cbn; lia.
Qed.

Lemma preferred_download_counter_kept_witness :
  let w' := FinalizeNode 7 finalize_world in
  nPreferredDownload finalize_world = 2 /\
  nPreferredDownload w' = preferred_count (nodestate w') /\
  nPreferredDownload w' = 1.
Proof.
  intros w'.
  destruct (preferred_download_counter_kept finalize_world 7) as [H _].
  - vm_compute. reflexivity.
  - vm_compute. reflexivity.
  - split; [reflexivity |]. split; [exact H | vm_compute; reflexivity].
Defined.

(** What FinalizeNode leaves of the world when the peer has a state. *)
Lemma FinalizeNode_nodestate (w : World) (p : NodeId) (state : CNodeState) :
  nodestate w !! p = Some state ->
  nodestate (FinalizeNode p w) = delete p (nodestate w) /\
  nSyncStarted (FinalizeNode p w) = nSyncStarted w - Z.b2z (fSyncStarted state) /\
  (delete p (nodestate w) <> ∅ ->
   mapBlocksInFlight (requester (FinalizeNode p w))
   = foldl (fun m h => delete (h, p) m) (mapBlocksInFlight (requester w))
       (GetBlocksInFlight (requester w) p)).
Proof.
  intros Hstate. unfold FinalizeNode. rewrite Hstate.
  set (w1 := if fSyncStarted state then set_nSyncStarted (nSyncStarted w - 1) w else w).
  assert (Hn1 : nodestate w1 = nodestate w)
    by (subst w1; destruct (fSyncStarted state); reflexivity).
  assert (Hr1 : requester w1 = requester w)
    by (subst w1; destruct (fSyncStarted state); reflexivity).
  assert (Hs1 : nSyncStarted w1 = nSyncStarted w - Z.b2z (fSyncStarted state)).
  { subst w1. destruct (fSyncStarted state); cbn; lia. }
  destruct (foldl_finalize_block p (GetBlocksInFlight (requester w1) p) w1)
    as (Hn2 & _ & Hs2 & Hfl & _).
  set (w2 := foldl (finalize_block p) w1 (GetBlocksInFlight (requester w1) p)) in *.
  cbv zeta. cbn [nodestate set_nodestate set_requester set_nPreferredDownload requester].
  rewrite Hn2, Hn1.
  destruct (bool_decide (delete p (nodestate w) = ∅)) eqn:Hlast.
  - apply bool_decide_eq_true in Hlast.
    destruct (MapBlocksInFlightEmpty _); cbn;
      match goal with |- context [if ?c then _ else _] => destruct c end; cbn;
      rewrite ?Hs2, ?Hs1; (split; [reflexivity |]); (split; [reflexivity |]);
      intros Hne; contradiction.
  - cbn. rewrite Hs2, Hs1, Hfl, Hr1. auto.
Qed.

(** X24: the sync-started counter follows the node states through
    FinalizeNode: when nSyncStarted equals the number of node states with
    the sync-started flag, it still does after FinalizeNode of any peer,
    known or not. *)
Theorem sync_started_counter_kept (w : World) (p : NodeId) :
  nSyncStarted w = sync_count (nodestate w) ->
  nSyncStarted (FinalizeNode p w) = sync_count (nodestate (FinalizeNode p w)).
Proof.
  intros Hinv.
  destruct (nodestate w !! p) as [state |] eqn:Hstate.
  - destruct (FinalizeNode_nodestate w p state Hstate) as (Hn & Hs & _).
    rewrite Hn, Hs, Hinv. unfold sync_count.
    rewrite (flag_count_delete fSyncStarted (nodestate w) p state Hstate). reflexivity.
  - unfold FinalizeNode. rewrite Hstate. exact Hinv.
Qed.

Lemma sync_started_counter_kept_witness :
  let w := set_nSyncStarted 2 finalize_world in
  let w' := FinalizeNode 7 w in
  nSyncStarted w' = sync_count (nodestate w') /\ nSyncStarted w' = 1.
Proof.
  intros w w'. split; [| vm_compute; reflexivity].
  apply (sync_started_counter_kept w 7). vm_compute. reflexivity.
Defined.

(** X25: FinalizeNode is about its peer only, and a second call does
    nothing.  The node states of the other peers are as before; while
    some node state remains, the in-flight rows of the other peers are as
    before as well; and FinalizeNode of a peer without node state, such
    as one that was finalized already, leaves the world as it is. *)
Theorem FinalizeNode_only_its_peer (w : World) (p : NodeId) :
  let w' := FinalizeNode p w in
  (forall q, q <> p -> nodestate w' !! q = nodestate w !! q) /\
  nodestate w' !! p = None /\
  (nodestate w' <> ∅ ->
   forall h q, q <> p ->
     mapBlocksInFlight (requester w') !! (h, q) = mapBlocksInFlight (requester w) !! (h, q)) /\
  FinalizeNode p w' = w'.
Proof.
  intros w'. subst w'.
  destruct (nodestate w !! p) as [state |] eqn:Hstate.
  - destruct (FinalizeNode_nodestate w p state Hstate) as (Hn & _ & Hrows).
    assert (Hgone : nodestate (FinalizeNode p w) !! p = None).
    { rewrite Hn. apply lookup_delete_eq. }
    split; [| split; [exact Hgone | split]].
    + intros q Hq. rewrite Hn. apply lookup_delete_ne. congruence.
    + intros Hne h q Hq. rewrite Hn in Hne. rewrite (Hrows Hne).
      generalize (GetBlocksInFlight (requester w) p) as l.
      generalize (mapBlocksInFlight (requester w)) as m.
      intros m l. revert m. induction l as [| x l IH]; intros m; cbn [foldl]; [reflexivity |].
      rewrite IH. apply lookup_delete_ne. congruence.
    + unfold FinalizeNode at 1. rewrite Hgone. reflexivity.
  - assert (Hid : FinalizeNode p w = w) by (unfold FinalizeNode; rewrite Hstate; reflexivity).
    rewrite !Hid. repeat split; auto.
Qed.

(** ** FindForkInGlobalIndex, getheaders and getblocks (main.cpp 266-280, 1478-1571) *)

(** X26: FindForkInGlobalIndex returns the block of the first hash of the
    locator that is in the block index and on the chain, and the genesis
    block of the chain when the locator has no such hash; hashes that are
    unknown or off the chain are passed over. *)
Theorem FindForkInGlobalIndex_first_on_chain (Contains : CBlockIndex -> bool)
    (Genesis : option CBlockIndex) (mbi : gmap uint256 CBlockIndex) (vHave : list uint256) :
  let r := FindForkInGlobalIndex Contains Genesis mbi vHave in
  (forall pre h post pindex,
     vHave = pre ++ h :: post ->
     none_on_chain Contains mbi pre ->
     mbi !! h = Some pindex ->
     Contains pindex = true ->
     r = Some pindex) /\
  (none_on_chain Contains mbi vHave -> r = Genesis) /\
  (r = Genesis \/
   exists h pindex,
     In h vHave /\ mbi !! h = Some pindex /\ Contains pindex = true /\ r = Some pindex).
Proof.
  intros r. subst r. split; [| split].
  - intros pre h post pindex -> Hpre Hh Hon.
    induction Hpre as [| x pre Hx _ IH]; cbn [app FindForkInGlobalIndex].
    + rewrite Hh, Hon. reflexivity.
    + destruct (mbi !! x) as [px |] eqn:Ex; [| exact IH].
      rewrite (Hx px eq_refl). exact IH.
  - intros Hnone. induction Hnone as [| x rest Hx _ IH]; cbn [FindForkInGlobalIndex].
    + reflexivity.
    + destruct (mbi !! x) as [px |] eqn:Ex; [| exact IH].
      rewrite (Hx px eq_refl). exact IH.
  - induction vHave as [| x rest IH]; cbn [FindForkInGlobalIndex]; [left; reflexivity |].
    assert (Hrest : FindForkInGlobalIndex Contains Genesis mbi rest = Genesis \/
                    exists h pindex,
                      In h (x :: rest) /\ mbi !! h = Some pindex /\ Contains pindex = true /\
                      FindForkInGlobalIndex Contains Genesis mbi rest = Some pindex).
    { destruct IH as [IH | (h & pindex & Hin & H)]; [left; exact IH |].
      right. exists h, pindex. split; [right; exact Hin | exact H]. }
    destruct (mbi !! x) as [px |] eqn:Ex; [| exact Hrest].
    destruct (Contains px) eqn:Hon; [| exact Hrest].
    right. exists x, px. split; [left; reflexivity |]. auto.
Qed.

(** The loop of getheaders: at most [nLimit] headers, and one even for a
    limit of zero; the blocks follow one another on the chain from the
    start; only the last can have the stop hash; and pindex is left on the
    last block when the loop was stopped, null when it ran off the
    chain. *)
Lemma getheaders_walk_spec (Next : CBlockIndex -> option CBlockIndex) (hashStop : uint256) :
  forall (nLimit : nat) (pindex : option CBlockIndex),
    let r := getheaders_walk Next hashStop nLimit pindex in
    (length r.1 <= Nat.max 1 nLimit)%nat /\
    consecutive Next r.1 /\
    head r.1 = pindex /\
    Forall (fun p => GetBlockHash p <> hashStop) (removelast r.1) /\
    (r.2 = None \/ (r.2 = last r.1 /\ r.1 <> [])).
Proof.
  induction nLimit as [| n IH]; intros pindex r; subst r.
  - destruct pindex as [p |]; cbn; repeat split; auto; lia.
  - destruct pindex as [p |]; [| cbn; repeat split; auto; lia].
    cbn [getheaders_walk].
    destruct n as [| n'].
    + cbn. repeat split; auto.
    + destruct (GetBlockHash p =? hashStop)%N eqn:Hstop.
      * cbn. repeat split; auto; try lia.
      * apply N.eqb_neq in Hstop.
        destruct (IH (Next p)) as (Hlen & Hcons & Hhead & Hstopped & Hend).
        destruct (getheaders_walk Next hashStop (S n') (Next p)) as [l last'] eqn:E.
        cbn [fst snd] in *.
        split; [cbn [length]; lia |].
        split.
        { destruct l as [| q l']; [exact I |]. cbn in Hhead. split; [| exact Hcons].
          symmetry. exact Hhead. }
        split; [reflexivity |].
        split.
        { destruct l as [| q l']; [constructor |].
          change (removelast (p :: q :: l')) with (p :: removelast (q :: l')).
          constructor; [exact Hstop | exact Hstopped]. }
        destruct Hend as [Hend | [Hend Hne]]; [left; exact Hend |].
        right. split; [| discriminate].
        rewrite Hend. destruct l as [| q l']; [contradiction |]. reflexivity.
Qed.

(** X27: the reply to getheaders.  The branch ends in one of three ways.
    It returns early, having done nothing, exactly when the locator is
    empty and the stop hash is not in the block index.  Otherwise it
    stops the program when the peer has no node state, and for a peer
    with a node state it pushes one headers message of at most 2000
    headers, of blocks that follow one another on the active chain, none
    but the last having the stop hash; the best header sent to the peer
    is recorded as the last of them or as the tip; the peer changes in
    its send size only, the trace gains a log line and the push, and the
    block index, the header cache, the counters and the request manager
    stay as they are. *)
Theorem getheaders_reply (env : Env) (Next : CBlockIndex -> option CBlockIndex)
    (Genesis : option CBlockIndex) (locator : CBlockLocator) (hashStop : uint256) (w : World) :
  let r := ProcessGetHeaders env Next Genesis locator hashStop w in
  let early := vHave locator = [] /\ mapBlockIndex w !! hashStop = None in
  (early -> r = (Return true, w)) /\
  (~ early -> nodestate w !! id (node w) = None -> r.1 = Crash) /\
  (~ early ->
   forall state, nodestate w !! id (node w) = Some state ->
     exists l sent line,
       r.1 = Normal l /\
       Z.of_nat (length l) <= MAX_HEADERS_RESULTS /\
       consecutive Next l /\
       Forall (fun p => GetBlockHash p <> hashStop) (removelast l) /\
       (sent = chainActive_Tip env \/ last l = Some sent) /\
       nodestate r.2
       = <[id (node w) := set_pindexBestHeaderSent (Some sent) state]> (nodestate w) /\
       node r.2
       = set_nSendSize (SendSizeAfterPush env (nSendSize (node w)) (MHEADERS l)) (node w) /\
       trace r.2 = EvPushMessage (id (node w)) (MHEADERS l) :: line :: trace w /\
       is_log line /\
       mapBlockIndex r.2 = mapBlockIndex w /\
       mapUnConnectedHeaders r.2 = mapUnConnectedHeaders w /\
       nSyncStarted r.2 = nSyncStarted w /\
       nPreferredDownload r.2 = nPreferredDownload w /\
       requester r.2 = requester w).
Proof.
  intros r early. subst r early.
  unfold ProcessGetHeaders. monad_unfold. cbv beta zeta.
  destruct (getheaders_start env Next Genesis (mapBlockIndex w) locator hashStop)
    as [pindex |] eqn:Hstart.
  - assert (Hlate : ~ (vHave locator = [] /\ mapBlockIndex w !! hashStop = None)).
    { intros [Hnull Hknown]. unfold getheaders_start in Hstart.
      rewrite Hnull, Hknown in Hstart. discriminate Hstart. }
    destruct (getheaders_walk_spec Next hashStop (Z.to_nat MAX_HEADERS_RESULTS) pindex)
      as (Hlen & Hcons & _ & Hstop & Hend).
    destruct (getheaders_walk Next hashStop (Z.to_nat MAX_HEADERS_RESULTS) pindex)
      as [l stopped].
    cbn [fst snd] in Hlen, Hcons, Hstop, Hend.
    cbn [trace set_trace nodestate node fst snd].
    split; [intros Hearly; contradiction |].
    destruct (nodestate w !! id (node w)) as [state |] eqn:Hstate.
    + split; [intros _ Hnone; discriminate Hnone |].
      intros _ state' Hstate'. injection Hstate' as <-.
      exists l, (match stopped with Some p => p | None => chainActive_Tip env end).
      destruct w as [n mbi cache ns nsync npref req tr]. destruct n.
      cbn.
      eexists. split; [reflexivity |].
      split; [unfold MAX_HEADERS_RESULTS in *; lia |].
      split; [exact Hcons |]. split; [exact Hstop |].
      split.
      { destruct Hend as [-> | [-> _]].
        - left. reflexivity.
        - destruct (last l) as [p |]; [right; reflexivity | left; reflexivity]. }
      repeat split; exact I.
    + split; [intros _ _; reflexivity |].
      intros _ state Hstate'. discriminate Hstate'.
  - unfold getheaders_start in Hstart.
    destruct (vHave locator) as [| h rest] eqn:Hnull; [| discriminate Hstart].
    destruct (mapBlockIndex w !! hashStop) eqn:Hknown; [discriminate Hstart |].
    split; [intros _; reflexivity |].
    split; intros Hlate; exfalso; apply Hlate; split; reflexivity.
Qed.

(** X28: a getheaders with an empty locator is answered with the one
    header of the stop hash, when the block index has that hash under a
    block carrying it and the peer has a node state; that block is
    recorded as the best header sent. *)
Theorem getheaders_null_locator (env : Env) (Next : CBlockIndex -> option CBlockIndex)
    (Genesis : option CBlockIndex) (hashStop : uint256) (w : World) (p : CBlockIndex)
    (state : CNodeState) :
  mapBlockIndex w !! hashStop = Some p ->
  GetBlockHash p = hashStop ->
  nodestate w !! id (node w) = Some state ->
  let r := ProcessGetHeaders env Next Genesis {| vHave := [] |} hashStop w in
  r.1 = Normal [p] /\
  nodestate r.2 = <[id (node w) := set_pindexBestHeaderSent (Some p) state]> (nodestate w) /\
  In (EvPushMessage (id (node w)) (MHEADERS [p])) (trace r.2).
Proof.
  intros Hknown Hhash Hstate r. subst r.
  unfold ProcessGetHeaders. monad_unfold. cbv beta zeta.
  unfold getheaders_start. cbn [vHave]. rewrite Hknown.
  cbn [trace set_trace nodestate node]. rewrite Hstate.
  assert (Hwalk : getheaders_walk Next hashStop (Z.to_nat MAX_HEADERS_RESULTS) (Some p)
                  = ([p], Some p)).
  { assert (Hlimit : exists n, Z.to_nat MAX_HEADERS_RESULTS = S (S n)).
    { exists 1998%nat. vm_compute. reflexivity. }
    destruct Hlimit as [n ->]. cbn [getheaders_walk].
    apply N.eqb_eq in Hhash. rewrite Hhash. reflexivity. }
  rewrite Hwalk.
  destruct w as [n mbi cache ns nsync npref req tr]. destruct n.
  cbn. split; [reflexivity |]. split; [reflexivity |]. left. reflexivity.
Qed.

Lemma getheaders_null_locator_witness :
  let r := ProcessGetHeaders test_env (test_Next 105) None {| vHave := [] |} 100%N test_world in
  r.1 = Normal [test_tip] /\
  In (EvPushMessage 7 (MHEADERS [test_tip])) (trace r.2).
Proof.
  intros r.
  destruct (getheaders_null_locator test_env (test_Next 105) None 100%N test_world test_tip
              test_state) as (H1 & _ & H3); [reflexivity | reflexivity | reflexivity |].
  split; [exact H1 | exact H3].
Defined.

Example getheaders_reply_example :
  let r := ProcessGetHeaders test_env (test_Next 103) None {| vHave := [555%N; 100%N] |} 102%N
             test_world in
  let l := [test_index 101 1 13 test_now None; test_index 102 2 13 test_now None] in
  r.1 = Normal l /\
  List.filter (fun e => match e with EvPushMessage _ _ => true | _ => false end) (trace r.2)
  = [EvPushMessage 7 (MHEADERS l)] /\
  nSendSize (node r.2) = nSendSize (node test_world) + 100.
Proof. vm_compute. repeat split; reflexivity. Qed.

(** The loop of getblocks. *)
Lemma getblocks_walk_spec (env : Env) (Next : CBlockIndex -> option CBlockIndex)
    (fPruneMode : bool) (MIN_BLOCKS_TO_KEEP : Z) (hashStop : uint256) :
  forall (nLimit : nat) (pindex : option CBlockIndex) (w : World),
    match getblocks_walk env Next fPruneMode MIN_BLOCKS_TO_KEEP hashStop nLimit pindex w with
    | (Normal l, w') =>
        (length l <= Nat.max 1 nLimit)%nat /\
        Forall (fun inv => type inv = MSG_BLOCK env /\ hash inv <> hashStop) l /\
        same_shared_state w w' /\
        (exists new, trace w' = new ++ trace w /\ Forall is_log new) /\
        (length l = Nat.max 1 nLimit ->
         exists inv, last l = Some inv /\ node w' = set_hashContinue (hash inv) (node w)) /\
        ((length l < Nat.max 1 nLimit)%nat -> node w' = node w)
    | (Return _, _) => False
    | (Crash, _) => nPowTargetSpacing env = 0
    end.
Proof.
  assert (Hstay : forall w w' : World,
            mapBlockIndex w' = mapBlockIndex w -> mapUnConnectedHeaders w' = mapUnConnectedHeaders w ->
            nodestate w' = nodestate w -> nSyncStarted w' = nSyncStarted w ->
            nPreferredDownload w' = nPreferredDownload w -> requester w' = requester w ->
            same_shared_state w w') by (intros; repeat split; assumption).
  induction nLimit as [| n IH]; intros pindex w.
  - destruct pindex as [p |]; cbn [getblocks_walk]; monad_unfold.
    + destruct (GetBlockHash p =? hashStop)%N eqn:Hstop.
      * cbn. split; [lia |]. split; [constructor |]. split; [apply Hstay; reflexivity |].
        split; [eexists [_]; split; [reflexivity | repeat constructor] |].
        split; [discriminate | reflexivity].
      * destruct (nPowTargetSpacing env =? 0) eqn:Hz; [apply Z.eqb_eq; exact Hz |].
        match goal with |- context [if ?c then _ else _] => destruct c end; cbn.
        -- split; [lia |]. split; [constructor |]. split; [apply Hstay; reflexivity |].
           split; [eexists [_]; split; [reflexivity | repeat constructor] |].
           split; [discriminate | reflexivity].
        -- apply N.eqb_neq in Hstop.
           split; [lia |]. split; [repeat constructor; exact Hstop |].
           split; [apply Hstay; reflexivity |].
           split; [eexists [_]; split; [reflexivity | repeat constructor] |].
           split; [| lia]. intros _. eexists. split; reflexivity.
    + cbn. split; [lia |]. split; [constructor |]. split; [apply Hstay; reflexivity |].
      split; [exists []; split; [reflexivity | constructor] |].
      split; [discriminate | destruct w; reflexivity].
  - destruct pindex as [p |]; cbn [getblocks_walk].
    + destruct (GetBlockHash p =? hashStop)%N eqn:Hstop.
      * monad_unfold. cbn. split; [lia |]. split; [constructor |]. split; [apply Hstay; reflexivity |].
        split; [eexists [_]; split; [reflexivity | repeat constructor] |].
        split; [discriminate | reflexivity].
      * destruct (nPowTargetSpacing env =? 0) eqn:Hz; [apply Z.eqb_eq; exact Hz |].
        match goal with |- context [if ?c then _ else _] => destruct c end.
        -- monad_unfold. cbn. split; [lia |]. split; [constructor |]. split; [apply Hstay; reflexivity |].
           split; [eexists [_]; split; [reflexivity | repeat constructor] |].
           split; [discriminate | reflexivity].
        -- apply N.eqb_neq in Hstop. destruct n as [| n'].
           ++ monad_unfold. cbn.
              split; [lia |]. split; [repeat constructor; exact Hstop |].
              split; [apply Hstay; reflexivity |].
              split; [eexists [_]; split; [reflexivity | repeat constructor] |].
              split; [| lia]. intros _. eexists. split; reflexivity.
           ++ unfold bind at 1. specialize (IH (Next p) w).
              destruct (getblocks_walk env Next fPruneMode MIN_BLOCKS_TO_KEEP hashStop
                          (S n') (Next p) w) as [[l | b |] w1]; [| exact IH | exact IH].
              destruct IH as (Hlen & Hall & Hshared & Htrace & Hfull & Hshort).
              cbn [ret length].
              split; [lia |].
              split; [constructor; [split; [reflexivity | exact Hstop] | exact Hall] |].
              split; [exact Hshared |]. split; [exact Htrace |].
              split.
              ** intros Hl.
                 destruct Hfull as (inv & Hlast & Hnode); [lia |].
                 exists inv. split; [| exact Hnode].
                 destruct l as [| x l']; [discriminate Hlast | exact Hlast].
              ** intros Hl. apply Hshort. lia.
    + cbn. split; [lia |]. split; [constructor |]. split; [apply Hstay; reflexivity |].
      split; [exists []; split; [reflexivity | constructor] |].
      split; [lia | reflexivity].
Qed.

(** X29: the reply to getblocks.  While the node imports or reindexes
    the branch returns true at once and changes nothing.  Otherwise it
    has no early return, and it can stop the program only on its division
    by the block spacing of the chain parameters, when that is zero;
    when it ends it has handed at most 500 items to PushInventory, all of
    type MSG_BLOCK and none with the stop hash; it leaves the state shared
    between the peers alone and adds only log lines to the trace; and it
    sets the continue marker of the peer, to the hash of the last item,
    exactly when it has handed over 500 items, the peer being otherwise
    as before. *)
Theorem getblocks_reply (env : Env) (Next : CBlockIndex -> option CBlockIndex)
    (Genesis : option CBlockIndex) (fPruneMode : bool) (MIN_BLOCKS_TO_KEEP : Z)
    (locator : CBlockLocator) (hashStop : uint256) (w : World) :
  let r := ProcessGetBlocks env Next Genesis fPruneMode MIN_BLOCKS_TO_KEEP locator hashStop w in
  (fImporting env || fReindex env = true -> r = (Return true, w)) /\
  (fImporting env || fReindex env = false ->
   match r with
   | (Normal l, w') =>
       (length l <= 500)%nat /\
       Forall (fun inv => type inv = MSG_BLOCK env /\ hash inv <> hashStop) l /\
       same_shared_state w w' /\
       (exists new, trace w' = new ++ trace w /\ Forall is_log new) /\
       (length l = 500%nat ->
        exists inv, last l = Some inv /\ node w' = set_hashContinue (hash inv) (node w)) /\
       ((length l < 500)%nat -> node w' = node w)
   | (Return _, _) => False
   | (Crash, _) => nPowTargetSpacing env = 0
   end).
Proof.
  intros r. subst r. unfold ProcessGetBlocks.
  split; intros Hbusy; rewrite Hbusy; [reflexivity |].
  unfold bind at 1. unfold get at 1. cbv beta iota.
  unfold bind at 1. unfold pfrom at 1. cbv beta iota.
  unfold bind at 1. unfold LOG at 1. unfold emit at 1. unfold modify at 1. cbv beta iota.
  set (pindex := match FindForkInGlobalIndex _ _ _ _ with Some p => Next p | None => None end).
  set (w1 := set_trace _ w).
  pose proof (getblocks_walk_spec env Next fPruneMode MIN_BLOCKS_TO_KEEP hashStop 500 pindex w1)
    as H.
  destruct (getblocks_walk env Next fPruneMode MIN_BLOCKS_TO_KEEP hashStop 500 pindex w1)
    as [[l | b |] w2]; [| destruct H | exact H].
  change (Nat.max 1 500) with 500%nat in H.
  destruct H as (Hlen & Hall & Hshared & (new & Hnew & Hlogs) & Hfull & Hshort).
  split; [exact Hlen |]. split; [exact Hall |]. split; [exact Hshared |].
  split; [| split; [exact Hfull | exact Hshort]].
  eexists (new ++ [_]). split.
  - rewrite Hnew. subst w1. cbn [trace set_trace]. rewrite <- app_assoc. reflexivity.
  - apply Forall_app. split; [exact Hlogs | repeat constructor].
Qed.

Example getblocks_reply_example :
  (ProcessGetBlocks test_env (test_Next 700) None false 288 {| vHave := [100%N] |} 0%N
     test_world).1
  = Normal (map (fun i => {| type := 2; hash := 101 + N.of_nat i |}) (seq 0 500))
  /\ hashContinue (node (ProcessGetBlocks test_env (test_Next 700) None false 288
                           {| vHave := [100%N] |} 0%N test_world).2) = 600%N.
Proof. vm_compute. split; reflexivity. Qed.

(** * The mempool branch *)

(** The loop of the branch for a peer that has no filter: every full batch
    goes out as an INV message of MAX_INV_SZ entries, and the batches sent
    followed by the batch left over are the batch at the start followed by
    the hashes looked at, in order. *)
Lemma mempool_loop_no_filter (env : Env)
    (IsRelevantAndUpdate : CBloomFilter -> CTransaction -> bool * CBloomFilter)
    (vtxid : list uint256) :
  forall (vInv : list CInv) (w : World),
    Z.of_nat (length vInv) < MAX_INV_SZ ->
    exists batches vInv' w',
      mempool_loop env IsRelevantAndUpdate false vtxid vInv w = (Normal vInv', w') /\
      trace w' = rev (map (fun b => EvPushMessage (id (node w)) (MINV b)) batches) ++ trace w /\
      id (node w') = id (node w) /\
      concat batches ++ vInv'
        = vInv ++ map (fun h => {| type := MSG_TX env; hash := h |}) vtxid /\
      Forall (fun b => Z.of_nat (length b) = MAX_INV_SZ) batches /\
      Z.of_nat (length vInv') < MAX_INV_SZ.
Proof.
  induction vtxid as [| h rest IH]; intros vInv w Hlt.
  - exists [], vInv, w. cbn. rewrite app_nil_r. repeat split; auto.
  - cbn [mempool_loop]. unfold bind at 1. unfold ret at 1. cbv beta iota.
    set (inv := {| type := MSG_TX env; hash := h |}).
    destruct (Z.of_nat (length (vInv ++ [inv])) =? MAX_INV_SZ) eqn:Hfull.
    + apply Z.eqb_eq in Hfull.
      cbv beta iota delta [PushMessage bind pfrom get emit modify modify_node].
      match goal with |- context [mempool_loop _ _ _ rest [] ?w1] => set (w1' := w1) end.
      destruct (IH [] w1') as (batches & vInv' & w' & Hrun & Htr & Hid & Hcat & Hall & Hlt').
      { cbn. unfold MAX_INV_SZ. lia. }
      exists ((vInv ++ [inv]) :: batches), vInv', w'.
      split; [exact Hrun |].
      split.
      { rewrite Htr. subst w1'. destruct w as [n ? ? ? ? ? ? ?]; destruct n.
        cbn. rewrite <- app_assoc. reflexivity. }
      split.
      { rewrite Hid. subst w1'. destruct w as [n ? ? ? ? ? ? ?]; destruct n. reflexivity. }
      split.
      { cbn [concat]. rewrite <- !app_assoc. rewrite Hcat. reflexivity. }
      split; [constructor; [exact Hfull | exact Hall] | exact Hlt'].
    + apply Z.eqb_neq in Hfull.
      destruct (IH (vInv ++ [inv]) w) as (batches & vInv' & w' & Hrun & Htr & Hid & Hcat & Hall & Hlt').
      { rewrite length_app in *. cbn [length] in *. lia. }
      exists batches, vInv', w'.
      split; [exact Hrun |]. split; [exact Htr |]. split; [exact Hid |].
      split; [| split; [exact Hall | exact Hlt']].
      rewrite Hcat. rewrite <- app_assoc. reflexivity.
Qed.

(** X30: a mempool request of a peer that has no filter, and that the
    bandwidth limit does not turn away, is answered with the hashes of the
    whole memory pool, in the order queryHashes gives them: the INV messages
    pushed to the peer, put end to end, are exactly these hashes as MSG_TX
    entries; no message is empty and none has more than MAX_INV_SZ
    entries; and nothing else is added to the trace. *)
Theorem mempool_announces_everything (env : Env) (mempool_queryHashes : list uint256)
    (IsRelevantAndUpdate : CBloomFilter -> CTransaction -> bool * CBloomFilter)
    (w : World)
    (Hlimit : OutboundTargetReached env false && negb (fWhitelisted (node w)) = false)
    (Hfilter : pfilter (node w) = None) :
  exists batches w',
    ProcessMempool env mempool_queryHashes IsRelevantAndUpdate w = (Normal tt, w') /\
    trace w' = rev (map (fun b => EvPushMessage (id (node w)) (MINV b)) batches) ++ trace w /\
    concat batches = map (fun h => {| type := MSG_TX env; hash := h |}) mempool_queryHashes /\
    Forall (fun b => 0 < Z.of_nat (length b) <= MAX_INV_SZ) batches.
Proof.
  unfold ProcessMempool. unfold bind at 1. unfold pfrom at 1. cbv beta iota.
  unfold bind at 1. cbv beta iota. rewrite Hlimit, Hfilter.
  unfold bind at 1.
  destruct (mempool_loop_no_filter env IsRelevantAndUpdate mempool_queryHashes [] w)
    as (batches & vInv' & w1 & Hrun & Htr & Hid & Hcat & Hall & Hlt).
  { cbn. unfold MAX_INV_SZ. lia. }
  rewrite Hrun. cbv beta iota.
  assert (Hbig : Forall (fun b => 0 < Z.of_nat (length b) <= MAX_INV_SZ) batches).
  { revert Hall. apply List.Forall_impl. intros b Hb. rewrite Hb. unfold MAX_INV_SZ. lia. }
  unfold when. destruct (0 <? Z.of_nat (length vInv')) eqn:Hrest.
  - apply Z.ltb_lt in Hrest.
    exists (batches ++ [vInv']). eexists. split.
    { cbv beta iota delta [PushMessage bind pfrom get emit modify modify_node].
      reflexivity. }
    split.
    { destruct w1 as [n1 ? ? ? ? ? ? ?]; destruct n1. cbn in *.
      rewrite map_app, rev_app_distr. cbn. rewrite Htr, Hid. reflexivity. }
    split.
    { rewrite concat_app. cbn [concat]. rewrite app_nil_r. exact Hcat. }
    apply Forall_app. split; [exact Hbig |].
    constructor; [lia | constructor].
  - apply Z.ltb_ge in Hrest.
    assert (vInv' = []) by (destruct vInv'; [reflexivity | cbn in Hrest; lia]).
    subst vInv'. rewrite app_nil_r in Hcat.
    exists batches, w1. cbn.
    split; [reflexivity |]. split; [exact Htr |]. split; [exact Hcat | exact Hbig].
Qed.

Lemma mempool_announces_everything_witness :
  exists batches w',
    ProcessMempool test_env [11%N; 12%N; 13%N] (fun f _ => (true, f)) test_world
      = (Normal tt, w') /\
    trace w' = rev (map (fun b => EvPushMessage (id (node test_world)) (MINV b)) batches)
                 ++ trace test_world /\
    concat batches = map (fun h => {| type := MSG_TX test_env; hash := h |})
                       [11%N; 12%N; 13%N] /\
    Forall (fun b => 0 < Z.of_nat (length b) <= MAX_INV_SZ) batches.
Proof.
  apply (mempool_announces_everything test_env [11%N; 12%N; 13%N] (fun f _ => (true, f))
           test_world); reflexivity.
Defined.
